(** * api-leilao: the CAIXA foreclosure-listing scraper and its WordPress forwarder

    A shallow embedding of [index.js] (the scraper) and [sync-wp.js] (the
    forwarder), and the properties of their string, number and record
    handling.

    JavaScript values are modelled as the language has them:
    - a string is the list of its UTF-16 code units ([jsstring]);
    - a number is an IEEE 754 binary64 value ([number], the Standard
      Library's [spec_float] at precision 53);
    - [null]/[undefined] results are [option];
    - an object whose key order is observable is an association list.

    The Unicode tables behind [normalize("NFD")], [toLowerCase] and
    [toUpperCase] are tabulated for the repertoire the site uses: Basic Latin
    and Latin-1 (U+0000..U+00FF), the combining diacritical marks
    (U+0300..U+036F) and the Hebrew points (U+05B0..U+05BD, for their
    combining classes).  Every other code unit is treated as a caseless
    starter without decomposition; statements that depend on the tables say
    which strings they range over. *)

From Stdlib Require Import List NArith ZArith Bool Lia String Ascii Permutation FinFun.
From Stdlib Require Import Floats.SpecFloat.
From Stdlib Require DecimalN DecimalPos.
Import ListNotations.

Set Implicit Arguments.

(* ================================================================== *)
(** * JavaScript strings *)
(* ================================================================== *)

Module JS.

Local Open Scope N_scope.

(** A UTF-16 code unit and a JavaScript string. *)
Definition char16 := N.
Definition jsstring := list char16.

(** ** String literals

    The literals of the source are written as Rocq strings; [js] decodes
    their UTF-8 bytes into UTF-16 code units. *)

Fixpoint bytes (s : string) : list N :=
  match s with
  | EmptyString => []
  | String a r => N_of_ascii a :: bytes r
  end.

Definition cont (b : N) : N := N.land b 63.

Fixpoint utf8_decode (bs : list N) : list N :=
  match bs with
  | [] => []
  | b0 :: r =>
      if b0 <? 128 then b0 :: utf8_decode r
      else match r with
      | [] => [b0]
      | b1 :: r1 =>
          if b0 <? 224 then (N.land b0 31 * 64 + cont b1) :: utf8_decode r1
          else match r1 with
          | [] => [b0; b1]
          | b2 :: r2 =>
              if b0 <? 240
              then (N.land b0 15 * 4096 + cont b1 * 64 + cont b2) :: utf8_decode r2
              else match r2 with
              | [] => [b0; b1; b2]
              | b3 :: r3 =>
                  (N.land b0 7 * 262144 + cont b1 * 4096 + cont b2 * 64 + cont b3)
                    :: utf8_decode r3
              end
          end
      end
  end.

Definition utf16_units (cp : N) : list char16 :=
  if cp <? 65536 then [cp]
  else let v := cp - 65536 in [55296 + v / 1024; 56320 + v mod 1024].

Definition js (s : string) : jsstring := flat_map utf16_units (utf8_decode (bytes s)).

(** ** Character classes *)

(** [\s] of a regular expression and the characters [trim] removes:
    WhiteSpace and LineTerminator of ECMA-262. *)
Definition isWhiteSpace (c : char16) : bool :=
  ((9 <=? c) && (c <=? 13)) || (c =? 32) || (c =? 160) || (c =? 5760)
  || ((8192 <=? c) && (c <=? 8202)) || (c =? 8232) || (c =? 8233)
  || (c =? 8239) || (c =? 8287) || (c =? 12288) || (c =? 65279).

(** [\d]. *)
Definition isDigit (c : char16) : bool := (48 <=? c) && (c <=? 57).

Definition SPACE : char16 := 32.
Definition LF : char16 := 10.
Definition CR : char16 := 13.

(** ** String.prototype methods *)

Definition streq (a b : jsstring) : bool :=
  if list_eq_dec N.eq_dec a b then true else false.

(** Truthiness of a string: the empty string is falsy. *)
Definition truthy (s : jsstring) : bool :=
  match s with [] => false | _ => true end.

(** [a || b] on strings. *)
Definition or_else (a b : jsstring) : jsstring := if truthy a then a else b.

Fixpoint trimStart (s : jsstring) : jsstring :=
  match s with
  | [] => []
  | c :: r => if isWhiteSpace c then trimStart r else s
  end.

Fixpoint trimEnd (s : jsstring) : jsstring :=
  match s with
  | [] => []
  | c :: r =>
      match trimEnd r with
      | [] => if isWhiteSpace c then [] else [c]
      | r' => c :: r'
      end
  end.

Definition trim (s : jsstring) : jsstring := trimEnd (trimStart s).

Fixpoint startsWith (s p : jsstring) : bool :=
  match p, s with
  | [], _ => true
  | _ :: _, [] => false
  | x :: p', y :: s' => (x =? y) && startsWith s' p'
  end.

Fixpoint includes (s p : jsstring) : bool :=
  startsWith s p || match s with [] => false | _ :: r => includes r p end.

(** [s.split(sep)] for a separator of one code unit. *)
Fixpoint split (sep : char16) (s : jsstring) : list jsstring :=
  match s with
  | [] => [[]]
  | c :: r =>
      if c =? sep then [] :: split sep r
      else match split sep r with
           | [] => [[c]]
           | h :: t => (c :: h) :: t
           end
  end.

(** [s.replace(pat, by)] with a string pattern: the first occurrence only. *)
Fixpoint replace_first (pat by_ : jsstring) (s : jsstring) : jsstring :=
  if startsWith s pat then by_ ++ skipn (List.length pat) s
  else match s with
       | [] => []
       | c :: r => c :: replace_first pat by_ r
       end.

(** [arr.join(sep)]. *)
Fixpoint join (sep : jsstring) (l : list jsstring) : jsstring :=
  match l with
  | [] => []
  | [x] => x
  | x :: r => x ++ sep ++ join sep r
  end.

(** ** Case mappings (tabulated repertoire) *)

Definition lower1 (c : char16) : char16 :=
  if (65 <=? c) && (c <=? 90) then c + 32
  else if (192 <=? c) && (c <=? 222) && negb (c =? 215) then c + 32
  else c.

Definition toLowerCase (s : jsstring) : jsstring := map lower1 s.

(** Upper-casing may lengthen the string: U+00DF gives "SS". *)
Definition upper1 (c : char16) : list char16 :=
  if (97 <=? c) && (c <=? 122) then [c - 32]
  else if (224 <=? c) && (c <=? 254) && negb (c =? 247) then [c - 32]
  else if c =? 223 then [83; 83]
  else if c =? 255 then [376]
  else if c =? 181 then [924]
  else if c =? 837 then [921]
  else [c].

Definition toUpperCase (s : jsstring) : jsstring := flat_map upper1 s.

(** Canonicalize of a regular expression with the [i] flag and without the
    [u] flag: the upper-case mapping when it is one code unit, and never from
    a non-ASCII unit to an ASCII one. *)
Definition canonicalize (c : char16) : char16 :=
  match upper1 c with
  | [u] => if (128 <=? c) && (u <? 128) then c else u
  | _ => c
  end.

(** ** Canonical decomposition, NFD (tabulated repertoire) *)

(** Base letter and combining mark of the precomposed Latin-1 letters. *)
Definition latin1_base (c : char16) : option (char16 * char16) :=
  let up (b : N) (m : N) := Some (b, m) in
  match c with
  | 192 => up 65 768 | 193 => up 65 769 | 194 => up 65 770 | 195 => up 65 771
  | 196 => up 65 776 | 197 => up 65 778 | 199 => up 67 807
  | 200 => up 69 768 | 201 => up 69 769 | 202 => up 69 770 | 203 => up 69 776
  | 204 => up 73 768 | 205 => up 73 769 | 206 => up 73 770 | 207 => up 73 776
  | 209 => up 78 771
  | 210 => up 79 768 | 211 => up 79 769 | 212 => up 79 770 | 213 => up 79 771
  | 214 => up 79 776
  | 217 => up 85 768 | 218 => up 85 769 | 219 => up 85 770 | 220 => up 85 776
  | 221 => up 89 769
  | 224 => up 97 768 | 225 => up 97 769 | 226 => up 97 770 | 227 => up 97 771
  | 228 => up 97 776 | 229 => up 97 778 | 231 => up 99 807
  | 232 => up 101 768 | 233 => up 101 769 | 234 => up 101 770 | 235 => up 101 776
  | 236 => up 105 768 | 237 => up 105 769 | 238 => up 105 770 | 239 => up 105 776
  | 241 => up 110 771
  | 242 => up 111 768 | 243 => up 111 769 | 244 => up 111 770 | 245 => up 111 771
  | 246 => up 111 776
  | 249 => up 117 768 | 250 => up 117 769 | 251 => up 117 770 | 252 => up 117 776
  | 253 => up 121 769 | 255 => up 121 776
  | _ => None
  end.

(** Full canonical decomposition of one code unit. *)
Definition decompose1 (c : char16) : list char16 :=
  match latin1_base c with
  | Some (b, m) => [b; m]
  | None =>
      match c with
      | 832 => [768]
      | 833 => [769]
      | 835 => [787]
      | 836 => [776; 769]
      | _ => [c]
      end
  end.

(** Canonical combining class. *)
Definition ccc (c : char16) : N :=
  let within (a b : N) := (a <=? c) && (c <=? b) in
  if within 768 788 then 230 else if c =? 789 then 232
  else if within 790 793 then 220 else if c =? 794 then 232
  else if c =? 795 then 216 else if within 796 800 then 220
  else if within 801 802 then 202 else if within 803 806 then 220
  else if within 807 808 then 202 else if within 809 819 then 220
  else if within 820 824 then 1 else if within 825 828 then 220
  else if within 829 836 then 230 else if c =? 837 then 240
  else if c =? 838 then 230 else if within 839 841 then 220
  else if within 842 844 then 230 else if within 845 846 then 220
  else if c =? 847 then 0 else if within 848 850 then 230
  else if within 851 854 then 220 else if c =? 855 then 230
  else if c =? 856 then 232 else if within 857 858 then 220
  else if c =? 859 then 230 else if c =? 860 then 233
  else if within 861 862 then 234 else if c =? 863 then 233
  else if within 864 865 then 234 else if c =? 866 then 233
  else if within 867 879 then 230
  else if within 1456 1465 then c - 1446
  else if c =? 1466 then 19 else if within 1467 1469 then c - 1447
  else 0.

(** Canonical ordering: a mark moves left past the marks of a greater
    class; a starter (class 0) is never crossed.  [acc] is the reordered
    prefix, last unit first. *)
Fixpoint insert_mark (c : char16) (acc : list char16) : list char16 :=
  match acc with
  | x :: r => if ccc c <? ccc x then x :: insert_mark c r else c :: acc
  | [] => [c]
  end.

Definition reorder_step (acc : list char16) (c : char16) : list char16 :=
  if ccc c =? 0 then c :: acc else insert_mark c acc.

Definition canonical_order (s : jsstring) : jsstring :=
  rev (fold_left reorder_step s []).

(** [s.normalize("NFD")]. *)
Definition normalize_NFD (s : jsstring) : jsstring :=
  canonical_order (flat_map decompose1 s).

(** The Latin repertoire: Basic Latin, Latin-1 and the combining
    diacritical marks. *)
Definition latin_unit (c : char16) : bool :=
  (c <=? 255) || ((768 <=? c) && (c <=? 879)).

Definition latin (s : jsstring) : bool := forallb latin_unit s.

End JS.

(* ================================================================== *)
(** * Regular expressions *)
(* ================================================================== *)

(** The backtracking matcher of ECMA-262 (the continuation-passing
    "pattern semantics"), for the constructs the source uses: classes,
    sequence, alternation, greedy and lazy quantifiers, capturing groups and
    the two anchors.  No group of the source stands under a quantifier, so
    captures are never reset. *)
Module Regex.
Import JS.

Inductive regex : Type :=
| Empty
| Class (p : char16 -> bool)
| Seq (r1 r2 : regex)
| Alt (r1 r2 : regex)
| Rep (greedy : bool) (min : nat) (max : option nat) (r : regex)
| Group (i : nat) (r : regex)
| Bol
| Eol.

(** A position in the input: the index and the units still to read. *)
Definition pos := (nat * jsstring)%type.

(** The captures recorded so far, by group number. *)
Definition caps := list (nat * jsstring).

Definition max_zero (mx : option nat) : bool :=
  match mx with Some O => true | _ => false end.

Definition max_pred (mx : option nat) : option nat :=
  match mx with Some n => Some (pred n) | None => None end.

Section Matcher.
Variable R : Type.

Definition cont := pos -> caps -> option R.
Definition matcher_of := pos -> caps -> cont -> option R.

(** RepeatMatcher: [m] is the matcher of the quantified atom, [k] the
    continuation.  An iteration that consumes nothing once the minimum is
    reached is refused, so [fuel], the minimum plus the length of the
    input plus one, is never used up. *)
Fixpoint repeat_matcher (m : matcher_of) (k : cont) (greedy : bool)
    (fuel mn : nat) (mx : option nat) (x : pos) (cs : caps) {struct fuel}
    : option R :=
  match fuel with
  | O => None
  | S fuel' =>
      if max_zero mx then k x cs
      else
        let d : cont := fun y cs' =>
          if Nat.eqb mn 0 && Nat.eqb (fst y) (fst x) then None
          else repeat_matcher m k greedy fuel' (pred mn) (max_pred mx) y cs' in
        if negb (Nat.eqb mn 0) then m x cs d
        else if greedy then
          match m x cs d with
          | Some z => Some z
          | None => k x cs
          end
        else
          match k x cs with
          | Some z => Some z
          | None => m x cs d
          end
  end.

Fixpoint matcher (r : regex) {struct r} : matcher_of :=
  match r with
  | Empty => fun x cs k => k x cs
  | Class p => fun x cs k =>
      match snd x with
      | c :: rest => if p c then k (S (fst x), rest) cs else None
      | [] => None
      end
  | Seq r1 r2 => fun x cs k =>
      matcher r1 x cs (fun y cs' => matcher r2 y cs' k)
  | Alt r1 r2 => fun x cs k =>
      match matcher r1 x cs k with
      | Some z => Some z
      | None => matcher r2 x cs k
      end
  | Rep greedy mn mx r1 => fun x cs k =>
      repeat_matcher (matcher r1) k greedy
        (mn + List.length (snd x) + 1) mn mx x cs
  | Group i r1 => fun x cs k =>
      matcher r1 x cs (fun y cs' =>
        k y ((i, firstn (fst y - fst x) (snd x)) :: cs'))
  | Bol => fun x cs k => if Nat.eqb (fst x) 0 then k x cs else None
  | Eol => fun x cs k => match snd x with [] => k x cs | _ => None end
  end.
End Matcher.

(** The result of [RegExp.prototype.exec]. *)
Record match_result : Type := {
  index : nat;
  matched : jsstring;   (* m[0] *)
  groups : caps
}.

(** [m[i]] for a group that took part in the match. *)
Fixpoint group (i : nat) (cs : caps) : option jsstring :=
  match cs with
  | [] => None
  | (j, s) :: r => if Nat.eqb i j then Some s else group i r
  end.

(** [m[i]] as the source reads it once it knows that [m] is a match. *)
Definition group_text (i : nat) (m : match_result) : jsstring :=
  match group i (groups m) with Some s => s | None => [] end.

Definition accept (x : pos) : cont match_result := fun y cs =>
  Some {| index := fst x; matched := firstn (fst y - fst x) (snd x); groups := cs |}.

Definition match_at (r : regex) (x : pos) : option match_result :=
  matcher r x [] (accept x).

(** The leftmost match: every start index in turn. *)
Fixpoint search (r : regex) (i : nat) (s : jsstring) : option match_result :=
  match match_at r (i, s) with
  | Some m => Some m
  | None => match s with
            | [] => None
            | _ :: rest => search r (S i) rest
            end
  end.

(** [s.match(r)] for [r] without the [g] flag. *)
Definition exec (r : regex) (s : jsstring) : option match_result := search r 0 s.

(** [s.replace(r, by)] for [r] without the [g] flag and [by] without [$]. *)
Definition replace (r : regex) (by_ : jsstring) (s : jsstring) : jsstring :=
  match exec r s with
  | Some m => firstn (index m) s ++ by_ ++ skipn (index m + List.length (matched m)) s
  | None => s
  end.

(** [s.replace(r, by)] for [r] with the [g] flag: every match from left to
    right, the search resuming behind each one (one unit further after an
    empty match).  [s] is what is left to read from index [i]. *)
Fixpoint replace_from (fuel : nat) (r : regex) (by_ : jsstring) (i : nat)
    (s : jsstring) {struct fuel} : jsstring :=
  match fuel with
  | O => s
  | S fuel' =>
      let step :=
        match s with
        | c :: rest => c :: replace_from fuel' r by_ (S i) rest
        | [] => []
        end in
      match match_at r (i, s) with
      | Some m =>
          match List.length (matched m) with
          | O => by_ ++ step
          | n => by_ ++ replace_from fuel' r by_ (i + n) (skipn n s)
          end
      | None => step
      end
  end.

Definition replace_all (r : regex) (by_ : jsstring) (s : jsstring) : jsstring :=
  replace_from (S (List.length s)) r by_ 0 s.

(** ** Pattern syntax *)

Definition chr (c : char16) : regex := Class (N.eqb c).

(** A pattern character under the [i] flag. *)
Definition chr_i (c : char16) : regex :=
  Class (fun x => N.eqb (canonicalize x) (canonicalize c)).

Fixpoint seq (l : list regex) : regex :=
  match l with
  | [] => Empty
  | [r] => r
  | r :: l' => Seq r (seq l')
  end.

(** A run of pattern characters, without and with the [i] flag. *)
Definition lit (s : string) : regex := seq (map chr (js s)).
Definition lit_i (s : string) : regex := seq (map chr_i (js s)).

Definition star := Rep true 0 None.
Definition plus := Rep true 1 None.
Definition opt := Rep true 0 (Some 1).
Definition plus_lazy := Rep false 1 None.
Definition exactly (n : nat) := Rep true n (Some n).
Definition at_least (n : nat) := Rep true n None.

(** [\s], [\d], and [.] (any unit but a line terminator). *)
Definition ws : regex := Class isWhiteSpace.
Definition digit : regex := Class isDigit.
Definition isLineTerminator (c : char16) : bool :=
  N.eqb c 10 || N.eqb c 13 || N.eqb c 8232 || N.eqb c 8233.
Definition dot : regex := Class (fun c => negb (isLineTerminator c)).

(** Membership in a class given by its members, under the [i] flag: some
    member has the same canonical form. *)
Definition member (s : string) (x : char16) : bool := existsb (N.eqb x) (js s).
Definition member_i (s : string) (x : char16) : bool :=
  existsb (fun c => N.eqb (canonicalize x) (canonicalize c)) (js s).

End Regex.
(* ================================================================== *)
(** * JavaScript numbers *)
(* ================================================================== *)

(** Numbers are IEEE 754 binary64 values with round-to-nearest-even
    arithmetic, as specified by [SpecFloat]. *)
Module Num.
Import JS.

Definition number := spec_float.

Definition prec : Z := 53.
Definition emax : Z := 1024.

Definition NaN : number := S754_nan.
Definition Infinity : number := S754_infinity false.
Definition zero : number := S754_zero false.

Definition sub : number -> number -> number := SFsub prec emax.
Definition mul : number -> number -> number := SFmul prec emax.
Definition div : number -> number -> number := SFdiv prec emax.
Definition ltb : number -> number -> bool := SFltb.
Definition leb : number -> number -> bool := SFleb.
Definition eqb : number -> number -> bool := SFeqb.

Definition isNaN (x : number) : bool :=
  match x with S754_nan => true | _ => false end.

Definition isFinite (x : number) : bool :=
  match x with S754_zero _ | S754_finite _ _ _ => true | _ => false end.

(** The number nearest to an integer. *)
Definition of_Z (z : Z) : number := binary_normalize prec emax z 0 false.

(** The number nearest to [d * 10^e], with the sign [neg]: a decimal
    literal read with correct rounding. *)
Definition of_decimal (neg : bool) (d : N) (e : Z) : number :=
  match d with
  | N0 => S754_zero neg
  | Npos p =>
      if (0 <=? e)%Z
      then binary_round prec emax neg (p * Z.to_pos (10 ^ e)) 0
      else SFdiv prec emax (S754_finite neg p 0)
                           (S754_finite false (Z.to_pos (10 ^ (- e))) 0)
  end.

(** ** parseFloat *)

Fixpoint span (p : char16 -> bool) (s : jsstring) : jsstring * jsstring :=
  match s with
  | c :: r => if p c then let (a, b) := span p r in (c :: a, b) else ([], s)
  | [] => ([], [])
  end.

Definition digits_value (ds : jsstring) : N :=
  fold_left (fun a c => (10 * a + (c - 48))%N) ds 0%N.

(** The sign of a literal and what follows it. *)
Definition read_sign (s : jsstring) : bool * jsstring :=
  match s with
  | c :: r =>
      if (c =? 45)%N then (true, r)
      else if (c =? 43)%N then (false, r)
      else (false, s)
  | [] => (false, s)
  end.

(** The value of an ExponentPart at the head of [s], 0 when there is none. *)
Definition read_exponent (s : jsstring) : Z :=
  match s with
  | c :: r =>
      if (c =? 101)%N || (c =? 69)%N then
        let (neg, r') := read_sign r in
        let (ds, _) := span isDigit r' in
        match ds with
        | [] => 0%Z
        | _ => let v := Z.of_N (digits_value ds) in if neg then (- v)%Z else v
        end
      else 0%Z
  | [] => 0%Z
  end.

(** [parseFloat(s)]: leading white space is skipped, the longest prefix that
    is a decimal literal is read, and there is no number ([NaN]) when no
    prefix is one. *)
Definition parseFloat (s : jsstring) : number :=
  let (neg, s1) := read_sign (trimStart s) in
  if startsWith s1 (js "Infinity") then S754_infinity neg
  else
    let (ip, s2) := span isDigit s1 in
    let (fp, s3) :=
      match s2 with
      | c :: r => if (c =? 46)%N then span isDigit r else ([], s2)
      | [] => ([], s2)
      end in
    match ip ++ fp with
    | [] => NaN
    | ds => of_decimal neg (digits_value ds)
              (read_exponent s3 - Z.of_nat (List.length fp))
    end.

(** ** Number.prototype.toFixed and Number::toString *)

Fixpoint uint_units (u : Decimal.uint) : jsstring :=
  match u with
  | Decimal.Nil => []
  | Decimal.D0 r => 48%N :: uint_units r
  | Decimal.D1 r => 49%N :: uint_units r
  | Decimal.D2 r => 50%N :: uint_units r
  | Decimal.D3 r => 51%N :: uint_units r
  | Decimal.D4 r => 52%N :: uint_units r
  | Decimal.D5 r => 53%N :: uint_units r
  | Decimal.D6 r => 54%N :: uint_units r
  | Decimal.D7 r => 55%N :: uint_units r
  | Decimal.D8 r => 56%N :: uint_units r
  | Decimal.D9 r => 57%N :: uint_units r
  end.

(** The decimal digits of a natural number, "0" for zero. *)
Definition decimal_digits (n : N) : jsstring := uint_units (N.to_uint n).

(** A finite number of exponent [e >= 0] as an integer. *)
Definition integer_value (m : positive) (e : Z) : N := (Npos m * 2 ^ Z.to_N e)%N.

(** The integer [n] for which [n / 10^fd - m * 2^e] is closest to zero, the
    larger one when there are two. *)
Definition scaled_round (fd : nat) (m : positive) (e : Z) : N :=
  let a := (Npos m * 10 ^ N.of_nat fd)%N in
  if (0 <=? e)%Z then (a * 2 ^ Z.to_N e)%N
  else let b := (2 ^ Z.to_N (- e))%N in ((2 * a + b) / (2 * b))%N.

(** [n] written with at least [fd + 1] digits and a point before the last
    [fd]. *)
Definition fixed_digits (fd : nat) (n : N) : jsstring :=
  let ds := decimal_digits n in
  let ds := repeat 48%N (S fd - List.length ds) ++ ds in
  let k := (List.length ds - fd)%nat in
  match fd with
  | O => ds
  | _ => firstn k ds ++ [46%N] ++ skipn k ds
  end.

Fixpoint strip_zeros_rev (s : jsstring) : jsstring :=
  match s with
  | c :: r => if (c =? 48)%N then strip_zeros_rev r else s
  | [] => s
  end.

(** Exponential notation of the integer [v]: its significant digits and its
    decimal exponent. *)
Definition exponential (v : N) : jsstring :=
  let ds := decimal_digits v in
  let e10 := decimal_digits (N.of_nat (List.length ds - 1)) in
  match rev (strip_zeros_rev (rev ds)) with
  | [] => ds
  | [d] => [d] ++ js "e+" ++ e10
  | d :: r => [d] ++ [46%N] ++ r ++ js "e+" ++ e10
  end.

(** Number::toString of a finite number [x >= 1e21], whose integer value is
    [X]: the fewest significant digits that read back as [x], the closest
    such value, in exponential notation. *)
Fixpoint shortest (fuel k : nat) (x : number) (X : N) : jsstring :=
  match fuel with
  | O => exponential X
  | S fuel' =>
      let t := (10 ^ N.of_nat (List.length (decimal_digits X) - k))%N in
      let lo := (X / t * t)%N in
      let hi := (lo + t)%N in
      let okLo := eqb (of_Z (Z.of_N lo)) x in
      let okHi := eqb (of_Z (Z.of_N hi)) x in
      if okLo && okHi then
        exponential
          (if (X - lo <? hi - X)%N then lo
           else if (hi - X <? X - lo)%N then hi
           else if N.even (lo / t) then lo else hi)
      else if okLo then exponential lo
      else if okHi then exponential hi
      else shortest fuel' (S k) x X
  end.

Definition toString_large (x : number) : jsstring :=
  match x with
  | S754_finite _ m e => shortest 17 1 x (integer_value m e)
  | S754_infinity _ => js "Infinity"
  | _ => js "NaN"
  end.

(** [x.toFixed(fd)]. *)
Definition toFixed (fd : nat) (x : number) : jsstring :=
  match x with
  | S754_nan => js "NaN"
  | S754_zero _ => fixed_digits fd 0
  | _ =>
      let neg := ltb x zero in
      let sign := if neg then js "-" else [] in
      let ax := SFabs x in
      if leb (of_Z (10 ^ 21)) ax then sign ++ toString_large ax
      else match ax with
           | S754_finite _ m e => sign ++ fixed_digits fd (scaled_round fd m e)
           | _ => sign
           end
  end.

(** ** Math.min *)

(** [Math.min(...l)]: [+Infinity] for no argument, [NaN] as soon as one
    argument is, and [-0] below [+0]. *)
Fixpoint min_from (lowest : number) (l : list number) : number :=
  match l with
  | [] => lowest
  | x :: r =>
      if isNaN x then NaN
      else
        match x, lowest with
        | S754_zero true, S754_zero false => min_from x r
        | _, _ => if ltb x lowest then min_from x r else min_from lowest r
        end
  end.

Definition Math_min (l : list number) : number := min_from Infinity l.

End Num.

(* ================================================================== *)
(** * index.js: the scraper *)
(* ================================================================== *)

Module Scraper.
Import JS Regex Num.
Local Open Scope N_scope.

(** ** Text normalizer *)

(** [[\u0300-\u036f]]. *)
Definition isCombiningMark (c : char16) : bool := (768 <=? c) && (c <=? 879).

(** [s || empty] for a string that may be absent. *)
Definition or_empty (s : option jsstring) : jsstring :=
  match s with Some x => x | None => [] end.

(** [norm(s)]: lowercase, without accents, white space collapsed. *)
Definition norm (s : option jsstring) : jsstring :=
  trim
    (replace_all (plus ws) (js " ")
       (toLowerCase
          (replace_all (Class isCombiningMark) []
             (normalize_NFD (or_empty s))))).

(** ** The detail page as the extractor queries it *)

(** An element, by the two text properties the extractor reads; a property
    that is absent reads as the empty string, which [||] treats alike. *)
Record Element : Type := {
  innerText : jsstring;
  textContent : jsstring
}.

Inductive Node : Type :=
| TextNode (text : jsstring)
| OtherNode.

(** The [h5] of [#dadosImovel] and its first child node. *)
Record Heading : Type := {
  h5 : Element;
  firstChild : option Node
}.

(** [#dadosImovel]: its heading, its [.content p] paragraphs and, for each
    [.content .control-item.control-span-6_12] column, the column's spans. *)
Record DadosImovel : Type := {
  dados_h5 : option Heading;
  content_p : list Element;
  control_items : list (list Element)
}.

(** An anchor with a document handler: its [onclick] attribute and text. *)
Record Anchor : Type := {
  onclick : option jsstring;
  anchor_text : jsstring
}.

(** [.related-box]: the three candidates for the auction-type node, its
    spans, its paragraphs and its registration-document anchor. *)
Record RelatedBox : Type := {
  tipo_contador_span_b : option Element;
  tipo_contador_b : option Element;
  tipo_div_span_b : option Element;
  rel_spans : list Element;
  rel_p : list Element;
  rel_linkMat : option Anchor
}.

(** A gallery thumbnail: [src], [dataset.src] and the attributes [data-src]
    and [data-original]. *)
Record Img : Type := {
  src : jsstring;
  dataset_src : jsstring;
  attr_data_src : jsstring;
  attr_data_original : jsstring
}.

(** The loaded document.  A hidden field is [Some] of its value when the
    element exists.  [URL_href rel] is [new URL(rel,
    window.location.origin).href], [None] when the constructor throws. *)
Record Document : Type := {
  dadosImovel : option DadosImovel;
  hdnimovel : option jsstring;
  relatedBox : option RelatedBox;
  linkMatGlobal : option Anchor;
  exibeDoc_anchors : list Anchor;
  thumbs : list Img;
  hdn_estado : option jsstring;
  hdn_cidade : option jsstring;
  hdn_bairro : option jsstring;
  URL_href : jsstring -> option jsstring
}.

(** The city context passed by the caller; each field may be missing. *)
Record Meta : Type := {
  estado : option jsstring;
  cidadeCodigo : option jsstring;
  cidadeNome : option jsstring
}.

Definition safeText (el : option Element) : jsstring :=
  match el with
  | Some e =>
      if truthy (or_else (innerText e) (textContent e))
      then trim (or_else (innerText e) (textContent e))
      else []
  | None => []
  end.

(** ** 1) Title and code *)

Definition tituloImovel (d : Document) : jsstring :=
  match dadosImovel d with
  | Some di =>
      match dados_h5 di with
      | Some h =>
          match firstChild h with
          | Some (TextNode t) => trim t
          | _ => safeText (Some (h5 h))
          end
      | None => []
      end
  | None => []
  end.

Definition codigoImovel (d : Document) : jsstring :=
  match hdnimovel d with
  | Some v => if truthy v then trim v else []
  | None => []
  end.

(** ** 2) Monetary values *)

(** [[\d\.,]] under the [i] flag. *)
Definition isMoneyChar (c : char16) : bool := isDigit c || member ".," c.

(** A class under the [i] flag whose members are their own canonical forms. *)
Definition class_i (p : char16 -> bool) : regex := Class (fun x => p (canonicalize x)).

(** [/Valor de avaliação:\s*R\$\s*([\d\.,]+)/i] *)
Definition re_aval : regex :=
  seq [lit_i "Valor de avaliação:"; star ws; lit_i "R$"; star ws;
       Group 1 (plus (class_i isMoneyChar))].

(** [/Valor mínimo de venda\s*1º Leilão:\s*R\$\s*([\d\.,]+)/i] *)
Definition re_min1 : regex :=
  seq [lit_i "Valor mínimo de venda"; star ws; lit_i "1º Leilão:"; star ws;
       lit_i "R$"; star ws; Group 1 (plus (class_i isMoneyChar))].

(** [/Valor mínimo de venda\s*2º Leilão:\s*R\$\s*([\d\.,]+)/i] *)
Definition re_min2 : regex :=
  seq [lit_i "Valor mínimo de venda"; star ws; lit_i "2º Leilão:"; star ws;
       lit_i "R$"; star ws; Group 1 (plus (class_i isMoneyChar))].

(** [/Valor mínimo de venda:\s*R\$\s*([\d\.,]+)/i] *)
Definition re_min_generic : regex :=
  seq [lit_i "Valor mínimo de venda:"; star ws; lit_i "R$"; star ws;
       Group 1 (plus (class_i isMoneyChar))].

(** [[^\d,.-]] *)
Definition notMoneySign (c : char16) : bool := negb (isDigit c || member ",.-" c).

(** [parseBRL(s)]: the number of a Brazilian currency string, [None] for
    the source's [null]. *)
Definition parseBRL (s : option jsstring) : option number :=
  let only :=
    replace_first (js ",") (js ".")
      (replace_all (chr 46) []
         (replace_all (Class notMoneySign) [] (or_empty s))) in
  let n := parseFloat only in
  if isNaN n then None else Some n.

(** [`${x.toFixed(2).replace(".", ",")}`] *)
Definition toFixed2_comma (x : number) : jsstring :=
  replace_first (js ".") (js ",") (toFixed 2 x).

(** The discount of an appraisal [vAval] over the overall minimum
    [vMinGeral], with the divisors of the divisions it evaluates. *)
Definition desconto (vAval vMinGeral : option number) : jsstring * list number :=
  match vAval, vMinGeral with
  | Some a, Some m =>
      if ltb zero a then
        let desc := mul (div (sub a m) a) (of_Z 100) in
        let desc := if ltb desc zero then zero else desc in
        (toFixed2_comma desc ++ js "%", [a])
      else ([], [])
  | _, _ => ([], [])
  end.

(** The locals of the value block, for the white-space-collapsed text of
    the paragraph that holds the values. *)
Section Valores.
Variable text : jsstring.

Definition matchAval := exec re_aval text.
Definition matchMin1 := exec re_min1 text.
Definition matchMin2 := exec re_min2 text.
Definition matchMinGeneric := exec re_min_generic text.

Definition captured (m : option match_result) : jsstring :=
  match m with Some r => trim (group_text 1 r) | None => [] end.

Definition valorAvaliacao : jsstring := captured matchAval.
Definition valorMinimo1 : jsstring := captured matchMin1.
Definition valorMinimo2 : jsstring := captured matchMin2.
Definition valorMinimoGenerico : jsstring :=
  match matchMin1, matchMin2, matchMinGeneric with
  | None, None, Some r => trim (group_text 1 r)
  | _, _, _ => []
  end.

Definition vAval := parseBRL (Some valorAvaliacao).
Definition vMin1 := parseBRL (Some valorMinimo1).
Definition vMin2 := parseBRL (Some valorMinimo2).
Definition vMinGen := parseBRL (Some valorMinimoGenerico).

(** [[vMin1, vMin2, vMinGen].filter((v) => v !== null)] *)
Definition candidatos : list number :=
  flat_map (fun v => match v with Some x => [x] | None => [] end)
           [vMin1; vMin2; vMinGen].

Definition vMinGeral : option number :=
  match candidatos with
  | [] => None
  | _ => Some (Math_min candidatos)
  end.

Definition valorMinimoGeral : jsstring :=
  match vMinGeral with
  | Some v => toFixed2_comma v
  | None => []
  end.

Definition descontoPercentual : jsstring := fst (desconto vAval vMinGeral).
End Valores.

(** The paragraph of [.content p] that holds the values, and its text with
    white space collapsed. *)
Definition pValores (di : DadosImovel) : option Element :=
  find (fun p => includes (toUpperCase (innerText p)) (js "VALOR DE AVALIAÇÃO"))
       (content_p di).

Definition texto_valores (p : Element) : jsstring :=
  trim (replace_all (plus ws) (js " ") (innerText p)).

(** A local of the value block for a document: the empty string unless the
    paragraph is there. *)
Definition valor_de (f : jsstring -> jsstring) (d : Document) : jsstring :=
  match dadosImovel d with
  | Some di =>
      match pValores di with
      | Some p => f (texto_valores p)
      | None => []
      end
  | None => []
  end.

(** ** 3) Labelled attributes of the first column *)

Definition getValueAfterLabel (arr : list jsstring) (label : jsstring) : jsstring :=
  let lab := norm (Some label) in
  match find (fun t => let n := norm (Some t) in startsWith n lab || includes n lab) arr with
  | Some row =>
      if truthy row then
        match nth_error (split 58 row) 1 with
        | Some part => if truthy part then trim part else []
        | None => []
        end
      else []
  | None => []
  end.

(** The labels looked up in the first column. *)
Definition labels_colInfo1 : list jsstring :=
  [js "Tipo de imóvel"; js "Quartos"; js "Garagem"; js "Número do imóvel";
   js "Matrícula"; js "Comarca"; js "Ofício"; js "Inscrição imobiliária";
   js "Averbação dos leilões negativos"].

Definition spans_text (col : list Element) : list jsstring :=
  map (fun s => trim (innerText s)) col.

Definition colInfo (i : nat) (d : Document) : option (list Element) :=
  match dadosImovel d with
  | Some di => nth_error (control_items di) i
  | None => None
  end.

Definition info1 (label : string) (d : Document) : jsstring :=
  match colInfo 0 d with
  | Some col => getValueAfterLabel (spans_text col) (js label)
  | None => []
  end.

(** ** 4) Areas of the second column *)

(** [/^\s*\*?\s*/] *)
Definition re_area_prefix : regex := seq [Bol; star ws; opt (chr 42); star ws].

Definition getValueAfterEqOrColon (arr : list jsstring) (label : jsstring) : jsstring :=
  let lab := norm (Some label) in
  match find (fun t => let n := norm (Some t) in startsWith n lab || includes n lab) arr with
  | Some row =>
      if truthy row then
        let parts := if includes row (js "=") then split 61 row else split 58 row in
        match nth_error parts 1 with
        | Some part => if truthy part then trim (replace re_area_prefix [] part) else []
        | None => []
        end
      else []
  | None => []
  end.

Definition info2 (label : string) (d : Document) : jsstring :=
  match colInfo 1 d with
  | Some col => getValueAfterEqOrColon (spans_text col) (js label)
  | None => []
  end.

(** ** 5) The related box *)

(** [a || b || c] on elements that may be missing. *)
Definition first_of (a b c : option Element) : option Element :=
  match a with
  | Some _ => a
  | None => match b with Some _ => b | None => c end
  end.

Definition tipoLeilao (d : Document) : jsstring :=
  match relatedBox d with
  | Some rb =>
      safeText (first_of (tipo_contador_span_b rb) (tipo_contador_b rb) (tipo_div_span_b rb))
  | None => []
  end.

(** [/^Edital:\s*/i], [/^Leiloeiro(?:\(a\))?:\s*/i], [/^Número do item:\s*/i] *)
Definition re_edital : regex := seq [Bol; lit_i "Edital:"; star ws].
Definition re_leiloeiro : regex :=
  seq [Bol; lit_i "Leiloeiro"; opt (lit_i "(a)"); lit_i ":"; star ws].
Definition re_numero_item : regex := seq [Bol; lit_i "Número do item:"; star ws].

(** The five locals the loop over the spans assigns. *)
Record SpansRel : Type := {
  editalTexto : jsstring;
  leiloeiro : jsstring;
  numeroItem : jsstring;
  dataLeilao1 : jsstring;
  dataLeilao2 : jsstring
}.

Definition spansRel_step (st : SpansRel) (span : Element) : SpansRel :=
  let raw := or_else (innerText span) (textContent span) in
  let t := trim (replace_all (plus ws) (js " ") raw) in
  let tn := toUpperCase t in
  if startsWith tn (js "EDITAL") then
    {| editalTexto := trim (replace re_edital [] t); leiloeiro := leiloeiro st;
       numeroItem := numeroItem st; dataLeilao1 := dataLeilao1 st;
       dataLeilao2 := dataLeilao2 st |}
  else if startsWith tn (js "LEILOEIRO") then
    {| editalTexto := editalTexto st; leiloeiro := trim (replace re_leiloeiro [] t);
       numeroItem := numeroItem st; dataLeilao1 := dataLeilao1 st;
       dataLeilao2 := dataLeilao2 st |}
  else if startsWith tn (js "NÚMERO DO ITEM") || startsWith tn (js "NUMERO DO ITEM") then
    {| editalTexto := editalTexto st; leiloeiro := leiloeiro st;
       numeroItem := trim (replace re_numero_item [] t); dataLeilao1 := dataLeilao1 st;
       dataLeilao2 := dataLeilao2 st |}
  else if includes t (js "Data do 1º Leilão") || includes t (js "Data do 1o Leilão") then
    {| editalTexto := editalTexto st; leiloeiro := leiloeiro st;
       numeroItem := numeroItem st; dataLeilao1 := t; dataLeilao2 := dataLeilao2 st |}
  else if includes t (js "Data do 2º Leilão") || includes t (js "Data do 2o Leilão") then
    {| editalTexto := editalTexto st; leiloeiro := leiloeiro st;
       numeroItem := numeroItem st; dataLeilao1 := dataLeilao1 st; dataLeilao2 := t |}
  else st.

Definition spansRel (d : Document) : SpansRel :=
  let init := {| editalTexto := []; leiloeiro := []; numeroItem := [];
                 dataLeilao1 := []; dataLeilao2 := [] |} in
  match relatedBox d with
  | Some rb => fold_left spansRel_step (rel_spans rb) init
  | None => init
  end.

(** [/^Endere[cç]o:\s*/i] and [/^Descri[cç][aã]o:\s*/i] *)
Definition re_endereco : regex :=
  seq [Bol; lit_i "Endere"; Class (member_i "cç"); lit_i "o:"; star ws].
Definition re_descricao : regex :=
  seq [Bol; lit_i "Descri"; Class (member_i "cç"); Class (member_i "aã");
       lit_i "o:"; star ws].

(** The three locals the loop over the paragraphs assigns. *)
Record PList : Type := {
  enderecoCompleto : jsstring;
  descricao : jsstring;
  formasPagamento : jsstring
}.

Definition pList_step (st : PList) (p : Element) : PList :=
  let txt := trim (innerText p) in
  if startsWith txt (js "Endereço:") || startsWith txt (js "Endereco:") then
    {| enderecoCompleto := trim (replace re_endereco [] txt);
       descricao := descricao st; formasPagamento := formasPagamento st |}
  else if startsWith txt (js "Descrição:") || startsWith txt (js "Descricao:") then
    {| enderecoCompleto := enderecoCompleto st;
       descricao := trim (replace re_descricao [] txt);
       formasPagamento := formasPagamento st |}
  else if includes txt (js "FORMAS DE PAGAMENTO ACEITAS") then
    {| enderecoCompleto := enderecoCompleto st; descricao := descricao st;
       formasPagamento := txt |}
  else st.

Definition pList (d : Document) : PList :=
  let init := {| enderecoCompleto := []; descricao := []; formasPagamento := [] |} in
  match relatedBox d with
  | Some rb => fold_left pList_step (rel_p rb) init
  | None => init
  end.

(** [/ExibeDoc\(q([^q]+)q\)/i], [q] standing for the class of the single
    and the double quote. *)
Definition isQuote (c : char16) : bool := (c =? 39) || (c =? 34).
Definition re_exibeDoc : regex :=
  seq [lit_i "ExibeDoc("; class_i isQuote;
       Group 1 (plus (Class (fun x => negb (isQuote (canonicalize x)))));
       class_i isQuote; lit_i ")"].

(** The link of an anchor's handler: its path argument made absolute, the
    path itself when that fails, nothing when the handler has none. *)
Definition link_of (d : Document) (a : Anchor) : jsstring :=
  match exec re_exibeDoc (or_empty (onclick a)) with
  | Some m =>
      let rel := group_text 1 m in
      match URL_href d rel with
      | Some href => href
      | None => rel
      end
  | None => []
  end.

Definition linkMatricula (d : Document) : jsstring :=
  let inBox :=
    match relatedBox d with
    | Some rb => match rel_linkMat rb with Some a => link_of d a | None => [] end
    | None => []
    end in
  if truthy inBox then inBox
  else match linkMatGlobal d with Some a => link_of d a | None => [] end.

Definition linkEdital (d : Document) : jsstring :=
  match find (fun a => includes (toUpperCase (anchor_text a)) (js "BAIXAR EDITAL"))
             (exibeDoc_anchors d) with
  | Some a => link_of d a
  | None => []
  end.

(** ** 5.3) Address decomposition *)

(** [/CEP:\s*([\d\-]+)/i] *)
Definition isCepChar (c : char16) : bool := isDigit c || (c =? 45).
Definition re_cep : regex :=
  seq [lit_i "CEP:"; star ws; Group 1 (plus (class_i isCepChar))].

(** [/\s*,\s*$/] *)
Definition re_trailing_comma : regex := seq [star ws; chr 44; star ws; Eol].

(** [/N[º.]?\s*([\d]+)/i] *)
Definition re_numero : regex :=
  seq [chr_i 78; opt (Class (member_i "º.")); star ws; Group 1 (plus (class_i isDigit))].

(** [/\-\s*$/i] *)
Definition re_trailing_dash : regex := seq [chr_i 45; star ws; Eol].

(** [/^(.+?)\s*-\s*([A-Z]{2})$/i] *)
Definition isUpperAZ (c : char16) : bool := (65 <=? c) && (c <=? 90).
Definition re_cidade_uf : regex :=
  seq [Bol; Group 1 (plus_lazy dot); star ws; chr_i 45; star ws;
       Group 2 (exactly 2 (class_i isUpperAZ)); Eol].

Record Endereco : Type := {
  enderecoLogradouro : jsstring;
  enderecoNumero : jsstring;
  enderecoBairroTexto : jsstring;
  enderecoCep : jsstring;
  enderecoCidadeTexto : jsstring;
  enderecoEstadoTexto : jsstring
}.

(** The postal code of an address and the address without its CEP token. *)
Definition separar_cep (e : jsstring) : jsstring * jsstring :=
  match exec re_cep e with
  | Some m =>
      (trim (group_text 1 m),
       replace re_trailing_comma [] (replace_first (matched m) [] e))
  | None => ([], e)
  end.

(** [e.split(",").map((p) => p.trim()).filter(Boolean)] *)
Definition partes (e : jsstring) : list jsstring :=
  filter truthy (map trim (split 44 e)).

Definition quebrar_endereco (enderecoCompleto : jsstring) : Endereco :=
  if truthy enderecoCompleto then
    let (cep, e) := separar_cep enderecoCompleto in
    let parts := partes e in
    let cidade_uf :=
      if (4 <=? List.length parts)%nat then
        let ultima := last parts [] in
        match exec re_cidade_uf ultima with
        | Some m => (trim (group_text 1 m), toUpperCase (group_text 2 m))
        | None => (ultima, [])
        end
      else ([], []) in
    {| enderecoLogradouro := nth 0 parts [];
       enderecoNumero :=
         match nth_error parts 1 with
         | Some numParte =>
             match exec re_numero numParte with
             | Some m => trim (group_text 1 m)
             | None => []
             end
         | None => []
         end;
       enderecoBairroTexto :=
         match nth_error parts 2 with
         | Some b => trim (replace re_trailing_dash [] b)
         | None => []
         end;
       enderecoCep := cep;
       enderecoCidadeTexto := fst cidade_uf;
       enderecoEstadoTexto := snd cidade_uf |}
  else
    {| enderecoLogradouro := []; enderecoNumero := []; enderecoBairroTexto := [];
       enderecoCep := []; enderecoCidadeTexto := []; enderecoEstadoTexto := [] |}.

(** ** 6) Images *)

Definition img_url (d : Document) (img : Img) : jsstring :=
  let s := or_else (src img)
             (or_else (dataset_src img)
                (or_else (attr_data_src img) (attr_data_original img))) in
  if truthy s then
    match URL_href d s with
    | Some href => href
    | None => s
    end
  else [].

Definition imgsLista (d : Document) : list jsstring :=
  filter truthy (map (img_url d) (thumbs d)).

(** ** 7) State, city and neighbourhood *)

(** A hidden field's trimmed value when the field exists with a value, the
    fallback when that is not empty, the empty string otherwise. *)
Definition hidden_or (h : option jsstring) (fallback : jsstring) : jsstring :=
  match h with
  | Some v => if truthy v then trim v else fallback
  | None => fallback
  end.

(** A destructuring default: the value unless it is missing. *)
Definition default (s : string) (v : option jsstring) : jsstring :=
  match v with Some x => x | None => js s end.

Definition meta_estado (meta : option Meta) : jsstring :=
  match meta with Some m => default "RO" (estado m) | None => js "RO" end.
Definition meta_cidadeCodigo (meta : option Meta) : jsstring :=
  match meta with Some m => or_empty (cidadeCodigo m) | None => [] end.
Definition meta_cidadeNome (meta : option Meta) : jsstring :=
  match meta with Some m => or_empty (cidadeNome m) | None => [] end.

(** ** The record of one property *)

Record PropertyRecord : Type := {
  _imoveis_codigo_imovel : jsstring;
  _imoveis_titulo : jsstring;
  _imoveis_valor_avaliacao : jsstring;
  _imoveis_valor_minimo_1_leilao : jsstring;
  _imoveis_valor_minimo_2_leilao : jsstring;
  _imoveis_valor_minimo_generico : jsstring;
  _imoveis_valor_minimo : jsstring;
  _imoveis_desconto_percentual : jsstring;
  _imoveis_desconto_pct : jsstring;
  _imoveis_tipo_imovel : jsstring;
  _imoveis_quartos : jsstring;
  _imoveis_garagem : jsstring;
  _imoveis_numero_imovel : jsstring;
  _imoveis_matricula : jsstring;
  _imoveis_comarca : jsstring;
  _imoveis_oficio : jsstring;
  _imoveis_inscricao_imobiliaria : jsstring;
  _imoveis_averbacao_leiloes : jsstring;
  _imoveis_area_total : jsstring;
  _imoveis_area_privativa : jsstring;
  _imoveis_area_terreno : jsstring;
  _imoveis_tipo_leilao : jsstring;
  _imoveis_edital : jsstring;
  _imoveis_leiloeiro : jsstring;
  _imoveis_numero_item : jsstring;
  _imoveis_data_leilao_1 : jsstring;
  _imoveis_data_leilao_2 : jsstring;
  _imoveis_endereco_completo : jsstring;
  _imoveis_endereco_logradouro : jsstring;
  _imoveis_endereco_numero : jsstring;
  _imoveis_endereco_bairro_texto : jsstring;
  _imoveis_endereco_cidade_texto : jsstring;
  _imoveis_endereco_estado_texto : jsstring;
  _imoveis_cep : jsstring;
  _imoveis_descricao : jsstring;
  _imoveis_formas_pagamento : jsstring;
  _imoveis_link_matricula : jsstring;
  _imoveis_link_edital : jsstring;
  _imoveis_imgs_lista : jsstring;
  _imoveis_estado : jsstring;
  _imoveis_cidade_codigo : jsstring;
  _imoveis_cidade : jsstring;
  _imoveis_bairro : jsstring
}.

(** What [page.evaluate] returns for a loaded document. *)
Definition dados (d : Document) (meta : option Meta) : PropertyRecord :=
  let sr := spansRel d in
  let pl := pList d in
  let en := quebrar_endereco (enderecoCompleto pl) in
  let desconto_ := valor_de descontoPercentual d in
  {| _imoveis_codigo_imovel := codigoImovel d;
     _imoveis_titulo := tituloImovel d;
     _imoveis_valor_avaliacao := valor_de valorAvaliacao d;
     _imoveis_valor_minimo_1_leilao := valor_de valorMinimo1 d;
     _imoveis_valor_minimo_2_leilao := valor_de valorMinimo2 d;
     _imoveis_valor_minimo_generico := valor_de valorMinimoGenerico d;
     _imoveis_valor_minimo := valor_de valorMinimoGeral d;
     _imoveis_desconto_percentual := desconto_;
     _imoveis_desconto_pct := desconto_;
     _imoveis_tipo_imovel := info1 "Tipo de imóvel" d;
     _imoveis_quartos := info1 "Quartos" d;
     _imoveis_garagem := info1 "Garagem" d;
     _imoveis_numero_imovel := info1 "Número do imóvel" d;
     _imoveis_matricula := info1 "Matrícula" d;
     _imoveis_comarca := info1 "Comarca" d;
     _imoveis_oficio := info1 "Ofício" d;
     _imoveis_inscricao_imobiliaria := info1 "Inscrição imobiliária" d;
     _imoveis_averbacao_leiloes := info1 "Averbação dos leilões negativos" d;
     _imoveis_area_total := info2 "Área total" d;
     _imoveis_area_privativa := info2 "Área privativa" d;
     _imoveis_area_terreno := info2 "Área do terreno" d;
     _imoveis_tipo_leilao := tipoLeilao d;
     _imoveis_edital := editalTexto sr;
     _imoveis_leiloeiro := leiloeiro sr;
     _imoveis_numero_item := numeroItem sr;
     _imoveis_data_leilao_1 := dataLeilao1 sr;
     _imoveis_data_leilao_2 := dataLeilao2 sr;
     _imoveis_endereco_completo := enderecoCompleto pl;
     _imoveis_endereco_logradouro := enderecoLogradouro en;
     _imoveis_endereco_numero := enderecoNumero en;
     _imoveis_endereco_bairro_texto := enderecoBairroTexto en;
     _imoveis_endereco_cidade_texto := enderecoCidadeTexto en;
     _imoveis_endereco_estado_texto := enderecoEstadoTexto en;
     _imoveis_cep := enderecoCep en;
     _imoveis_descricao := descricao pl;
     _imoveis_formas_pagamento := formasPagamento pl;
     _imoveis_link_matricula := linkMatricula d;
     _imoveis_link_edital := linkEdital d;
     _imoveis_imgs_lista := join (js "|") (imgsLista d);
     _imoveis_estado := hidden_or (hdn_estado d) (meta_estado meta);
     _imoveis_cidade_codigo := hidden_or (hdn_cidade d) (meta_cidadeCodigo meta);
     _imoveis_cidade :=
       or_else (meta_cidadeNome meta) (enderecoCidadeTexto en);
     _imoveis_bairro := hidden_or (hdn_bairro d) (enderecoBairroTexto en) |}.

(** The browser as the extractor sees it: the document a URL leads to once
    [#dadosImovel] has appeared, [None] when the navigation or the wait
    throws. *)
Definition Page := jsstring -> option Document.

(** [extrairDetalhesImovel(page, url, meta)]: the record, or [None] for the
    [null] of the [catch] branch. *)
Definition extrairDetalhesImovel (page : Page) (url : jsstring) (meta : option Meta)
    : option PropertyRecord :=
  match page url with
  | Some d => Some (dados d meta)
  | None => None
  end.

(** ** Listing collector *)

(** [parseInt(s, 10)] as an integer: [None] for [NaN].  The sign is kept
    apart for the [-0] of the source, which the comparison below treats as
    zero. *)
Definition parseInt10 (s : jsstring) : option Z :=
  let (neg, s1) := read_sign (trimStart s) in
  let (ds, _) := span isDigit s1 in
  match ds with
  | [] => None
  | _ => let v := Z.of_N (digits_value ds) in Some (if neg then (- v)%Z else v)
  end.

(** The page count read from [#hdnQtdPag]: 1 unless the field holds a
    positive integer. *)
Definition totalPages (hdnQtdPag : option jsstring) : Z :=
  match hdnQtdPag with
  | Some v =>
      if truthy v then
        match parseInt10 v with
        | Some n => if (n <=? 0)%Z then 1%Z else n
        | None => 1%Z
        end
      else 1%Z
  | None => 1%Z
  end.

(** A [.group-block-item]: the [onclick] of its first
    [a[onclick*='detalhe_imovel']], when it has one. *)
Record Item : Type := {
  link_onclick : option (option jsstring)
}.

(** [/detalhe_imovel\((\d+)\)/] *)
Definition re_detalhe_imovel : regex :=
  seq [lit "detalhe_imovel("; Group 1 (plus digit); lit ")"].

Definition urlDet (idImovel : jsstring) : jsstring :=
  js "https://venda-imoveis.caixa.gov.br/sistema/detalhe-imovel.asp?hdnimovel="
  ++ idImovel.

(** The identifier of an item, when its handler carries one. *)
Definition idImovel (it : Item) : option jsstring :=
  match link_onclick it with
  | Some oc =>
      match exec re_detalhe_imovel (or_empty oc) with
      | Some m => Some (group_text 1 m)
      | None => None
      end
  | None => None
  end.

(** The URLs pushed for the items of one page. *)
Definition urls_of_items (items : list Item) : list jsstring :=
  flat_map (fun it => match idImovel it with Some i => [urlDet i] | None => [] end) items.

(** A [Set] of strings in insertion order, and [Set.prototype.add]. *)
Definition Set_add (set : list jsstring) (u : jsstring) : list jsstring :=
  if existsb (streq u) set then set else set ++ [u].

(** The loop over the pages [p], [p + 1], ..: [lista p] is the list of items
    the document shows when page [p] is read. *)
Fixpoint coletar_paginas (lista : nat -> list Item) (p n : nat)
    (urlsSet : list jsstring) : list jsstring :=
  match n with
  | O => urlsSet
  | S n' =>
      coletar_paginas lista (S p) n'
        (fold_left Set_add (urls_of_items (lista p)) urlsSet)
  end.

(** [coletarUrlsCidade(page)], for a page count [total] that the loop
    counter can reach (below 2^53). *)
Definition coletarUrlsCidade (total : nat) (lista : nat -> list Item) : list jsstring :=
  coletar_paginas lista 1 total [].

(** ** Spreadsheet rows *)

(** The values a record object may hold under a key. *)
Inductive jsvalue : Type :=
| Undefined
| Null
| Str (s : jsstring).

(** An object with string keys, in insertion order. *)
Definition jsobject := list (jsstring * jsvalue).

(** [o[k]] *)
Fixpoint get (o : jsobject) (k : jsstring) : jsvalue :=
  match o with
  | [] => Undefined
  | (k', v) :: r => if streq k k' then v else get r k
  end.

(** [o[k] = v]: in place for a key that is there, at the end for a new one. *)
Fixpoint set (o : jsobject) (k : jsstring) (v : jsvalue) : jsobject :=
  match o with
  | [] => [(k, v)]
  | (k', v') :: r => if streq k k' then (k', v) :: r else (k', v') :: set r k v
  end.

Definition campos : list jsstring :=
  map js
  ["_imoveis_codigo_imovel"; "_imoveis_titulo"; "_imoveis_valor_avaliacao";
   "_imoveis_valor_minimo_1_leilao"; "_imoveis_valor_minimo_2_leilao";
   "_imoveis_valor_minimo_generico"; "_imoveis_valor_minimo";
   "_imoveis_desconto_percentual"; "_imoveis_desconto_pct";
   "_imoveis_tipo_imovel"; "_imoveis_quartos"; "_imoveis_garagem";
   "_imoveis_numero_imovel"; "_imoveis_matricula"; "_imoveis_comarca";
   "_imoveis_oficio"; "_imoveis_inscricao_imobiliaria";
   "_imoveis_averbacao_leiloes"; "_imoveis_area_total";
   "_imoveis_area_privativa"; "_imoveis_area_terreno"; "_imoveis_tipo_leilao";
   "_imoveis_edital"; "_imoveis_leiloeiro"; "_imoveis_numero_item";
   "_imoveis_data_leilao_1"; "_imoveis_data_leilao_2";
   "_imoveis_endereco_completo"; "_imoveis_endereco_logradouro";
   "_imoveis_endereco_numero"; "_imoveis_endereco_bairro_texto";
   "_imoveis_endereco_cidade_texto"; "_imoveis_endereco_estado_texto";
   "_imoveis_cep"; "_imoveis_descricao"; "_imoveis_formas_pagamento";
   "_imoveis_link_matricula"; "_imoveis_link_edital"; "_imoveis_imgs_lista";
   "_imoveis_estado"; "_imoveis_cidade_codigo"; "_imoveis_cidade";
   "_imoveis_bairro"]%string.

(** [/\r?\n|\r/g] and [/\s{2,}/g] *)
Definition re_newline : regex := Alt (Seq (opt (chr CR)) (chr LF)) (chr CR).
Definition re_spaces : regex := at_least 2 ws.

Definition sanitize (value : jsvalue) : jsstring :=
  match value with
  | Undefined | Null => []
  | Str s => trim (replace_all re_spaces (js " ") (replace_all re_newline (js " ") s))
  end.

(** The row of one record: every field of [campos] in turn. *)
Definition row_of (det : jsobject) : jsobject :=
  fold_left (fun row campo => set row campo (Str (sanitize (get det campo)))) campos [].

(** The rows [salvarComoXlsx] hands to the sheet writer, with [campos] as
    the header. *)
Definition rows (detalhes : list jsobject) : list jsobject := map row_of detalhes.

(** The object literal the extractor returns, for a record. *)
Definition object_of (r : PropertyRecord) : jsobject :=
  combine campos
    (map Str
      [_imoveis_codigo_imovel r; _imoveis_titulo r; _imoveis_valor_avaliacao r;
       _imoveis_valor_minimo_1_leilao r; _imoveis_valor_minimo_2_leilao r;
       _imoveis_valor_minimo_generico r; _imoveis_valor_minimo r;
       _imoveis_desconto_percentual r; _imoveis_desconto_pct r;
       _imoveis_tipo_imovel r; _imoveis_quartos r; _imoveis_garagem r;
       _imoveis_numero_imovel r; _imoveis_matricula r; _imoveis_comarca r;
       _imoveis_oficio r; _imoveis_inscricao_imobiliaria r;
       _imoveis_averbacao_leiloes r; _imoveis_area_total r;
       _imoveis_area_privativa r; _imoveis_area_terreno r; _imoveis_tipo_leilao r;
       _imoveis_edital r; _imoveis_leiloeiro r; _imoveis_numero_item r;
       _imoveis_data_leilao_1 r; _imoveis_data_leilao_2 r;
       _imoveis_endereco_completo r; _imoveis_endereco_logradouro r;
       _imoveis_endereco_numero r; _imoveis_endereco_bairro_texto r;
       _imoveis_endereco_cidade_texto r; _imoveis_endereco_estado_texto r;
       _imoveis_cep r; _imoveis_descricao r; _imoveis_formas_pagamento r;
       _imoveis_link_matricula r; _imoveis_link_edital r; _imoveis_imgs_lista r;
       _imoveis_estado r; _imoveis_cidade_codigo r; _imoveis_cidade r;
       _imoveis_bairro r]).


(** ** The object the extractor returns *)

(** The object literal at the end of [page.evaluate], key by key. *)
Definition retorno (r : PropertyRecord) : jsobject :=
  [(js "_imoveis_codigo_imovel", Str (_imoveis_codigo_imovel r));
   (js "_imoveis_titulo", Str (_imoveis_titulo r));
   (js "_imoveis_valor_avaliacao", Str (_imoveis_valor_avaliacao r));
   (js "_imoveis_valor_minimo_1_leilao", Str (_imoveis_valor_minimo_1_leilao r));
   (js "_imoveis_valor_minimo_2_leilao", Str (_imoveis_valor_minimo_2_leilao r));
   (js "_imoveis_valor_minimo_generico", Str (_imoveis_valor_minimo_generico r));
   (js "_imoveis_valor_minimo", Str (_imoveis_valor_minimo r));
   (js "_imoveis_desconto_percentual", Str (_imoveis_desconto_percentual r));
   (js "_imoveis_desconto_pct", Str (_imoveis_desconto_pct r));
   (js "_imoveis_tipo_imovel", Str (_imoveis_tipo_imovel r));
   (js "_imoveis_quartos", Str (_imoveis_quartos r));
   (js "_imoveis_garagem", Str (_imoveis_garagem r));
   (js "_imoveis_numero_imovel", Str (_imoveis_numero_imovel r));
   (js "_imoveis_matricula", Str (_imoveis_matricula r));
   (js "_imoveis_comarca", Str (_imoveis_comarca r));
   (js "_imoveis_oficio", Str (_imoveis_oficio r));
   (js "_imoveis_inscricao_imobiliaria", Str (_imoveis_inscricao_imobiliaria r));
   (js "_imoveis_averbacao_leiloes", Str (_imoveis_averbacao_leiloes r));
   (js "_imoveis_area_total", Str (_imoveis_area_total r));
   (js "_imoveis_area_privativa", Str (_imoveis_area_privativa r));
   (js "_imoveis_area_terreno", Str (_imoveis_area_terreno r));
   (js "_imoveis_tipo_leilao", Str (_imoveis_tipo_leilao r));
   (js "_imoveis_edital", Str (_imoveis_edital r));
   (js "_imoveis_leiloeiro", Str (_imoveis_leiloeiro r));
   (js "_imoveis_numero_item", Str (_imoveis_numero_item r));
   (js "_imoveis_data_leilao_1", Str (_imoveis_data_leilao_1 r));
   (js "_imoveis_data_leilao_2", Str (_imoveis_data_leilao_2 r));
   (js "_imoveis_endereco_completo", Str (_imoveis_endereco_completo r));
   (js "_imoveis_endereco_logradouro", Str (_imoveis_endereco_logradouro r));
   (js "_imoveis_endereco_numero", Str (_imoveis_endereco_numero r));
   (js "_imoveis_endereco_bairro_texto", Str (_imoveis_endereco_bairro_texto r));
   (js "_imoveis_endereco_cidade_texto", Str (_imoveis_endereco_cidade_texto r));
   (js "_imoveis_endereco_estado_texto", Str (_imoveis_endereco_estado_texto r));
   (js "_imoveis_cep", Str (_imoveis_cep r));
   (js "_imoveis_descricao", Str (_imoveis_descricao r));
   (js "_imoveis_formas_pagamento", Str (_imoveis_formas_pagamento r));
   (js "_imoveis_link_matricula", Str (_imoveis_link_matricula r));
   (js "_imoveis_link_edital", Str (_imoveis_link_edital r));
   (js "_imoveis_imgs_lista", Str (_imoveis_imgs_lista r));
   (js "_imoveis_estado", Str (_imoveis_estado r));
   (js "_imoveis_cidade_codigo", Str (_imoveis_cidade_codigo r));
   (js "_imoveis_cidade", Str (_imoveis_cidade r));
   (js "_imoveis_bairro", Str (_imoveis_bairro r))].

(** ** The main flow *)

(** An [option] of [#cmb_cidade], by its value and its text content. *)
Record OptionEl : Type := {
  option_value : jsstring;
  option_textContent : jsstring
}.

(** A city as [getCidades] returns it: the [value] and the [text] of the
    source's object. *)
Record Cidade : Type := {
  cidade_value : jsstring;
  cidade_text : jsstring
}.

(** [getCidades(page)]: [sel] is the list of the options of [#cmb_cidade],
    [None] when the select is missing. *)
Definition getCidades (sel : option (list OptionEl)) : list Cidade :=
  match sel with
  | None => []
  | Some opts =>
      filter (fun o => truthy (cidade_value o)
                       && negb (streq (cidade_value o) (js "0")))
        (map (fun o => {| cidade_value := option_value o;
                          cidade_text := trim (option_textContent o) |}) opts)
  end.

(** What the search of one city comes to inside the [try]: an exception,
    no listing, or a listing with its page-count field and its pages. *)
Inductive Busca : Type :=
| Erro
| Nenhum
| Listagem (hdnQtdPag : option jsstring) (lista : nat -> list Item).

Definition urls_da_busca (b : Busca) : list jsstring :=
  match b with
  | Erro | Nenhum => []
  | Listagem h lista => coletarUrlsCidade (Z.to_nat (totalPages h)) lista
  end.

(** A value of [urlsPorCidade]: the [cidade] and the [urls] of the source's
    object. *)
Record InfoCidade : Type := {
  info_cidade : jsstring;
  info_urls : list jsstring
}.

(** The array index a property key stands for, when it is one: a canonical
    decimal numeral below 2^32 - 1. *)
Definition array_index (k : jsstring) : option N :=
  match k with
  | [] => None
  | c :: r =>
      if forallb isDigit k && (negb (c =? 48) || negb (truthy r)) then
        if digits_value k <? 4294967295 then Some (digits_value k) else None
      else None
  end.

(** [o[k] = v] on an ordinary object, whose own keys are kept as
    [Object.entries] lists them: the array indices in ascending order, then
    the other strings in creation order. *)
Fixpoint obj_set (V : Type) (o : list (jsstring * V)) (k : jsstring) (v : V)
    : list (jsstring * V) :=
  match o with
  | [] => [(k, v)]
  | (k', v') :: r =>
      if streq k k' then (k', v) :: r
      else
        match array_index k, array_index k' with
        | Some n, Some n' =>
            if n <? n' then (k, v) :: o else (k', v') :: obj_set r k v
        | Some _, None => (k, v) :: o
        | None, _ => (k', v') :: obj_set r k v
        end
  end.

(** Step 4: one assignment to [urlsPorCidade] for each city, in the order
    of [getCidades]; each city comes with what its search gives. *)
Definition indexar (o : list (jsstring * InfoCidade)) (cb : Cidade * Busca)
    : list (jsstring * InfoCidade) :=
  obj_set o (cidade_value (fst cb))
    {| info_cidade := cidade_text (fst cb); info_urls := urls_da_busca (snd cb) |}.

Definition urlsPorCidade (cidades : list (Cidade * Busca))
    : list (jsstring * InfoCidade) :=
  fold_left indexar cidades [].

(** Step 5: the detail pages opened, in order, each with the code and the
    name of its city. *)
Definition visitas (o : list (jsstring * InfoCidade))
    : list (jsstring * jsstring * jsstring) :=
  flat_map (fun e => map (fun u => (fst e, info_cidade (snd e), u)) (info_urls (snd e))) o.

Definition meta_da_visita (v : jsstring * jsstring * jsstring) : Meta :=
  {| estado := Some (js "RO");
     cidadeCodigo := Some (fst (fst v));
     cidadeNome := Some (snd (fst v)) |}.

(** [detalhes]: the records of the visits that gave one.  [abre n] is the
    browser at the [n]-th visit. *)
Definition detalhes (abre : nat -> Page) (o : list (jsstring * InfoCidade))
    : list PropertyRecord :=
  flat_map
    (fun nv => match extrairDetalhesImovel (abre (fst nv)) (snd (snd nv))
                       (Some (meta_da_visita (snd nv))) with
               | Some det => [det]
               | None => []
               end)
    (combine (List.seq 0 (List.length (visitas o))) (visitas o)).

(** The names of the two files [runScrape] writes in the working
    directory. *)
Definition json_name : jsstring := js "urls_ro_por_cidade.json".
Definition xlsx_name : jsstring := js "imoveis_ro_detalhes.xlsx".

(** What [runScrape] returns and hands to the sheet writer. *)
Record Scrape : Type := {
  scrape_urlsPorCidade : list (jsstring * InfoCidade);
  scrape_detalhes : list PropertyRecord;
  scrape_rows : list jsobject
}.

Definition runScrape (sel : list (Cidade * Busca)) (abre : nat -> Page) : Scrape :=
  let o := urlsPorCidade sel in
  let dets := detalhes abre o in
  {| scrape_urlsPorCidade := o;
     scrape_detalhes := dets;
     scrape_rows := rows (map retorno dets) |}.
End Scraper.

(* ================================================================== *)
(** * sync-wp.js: the forwarder *)
(* ================================================================== *)

Module SyncWP.
Import JS.

(** A JSON value. *)
#[warnings="-register-all"]
Inductive json : Type :=
| JNull
| JBool (b : bool)
| JNumber (n : Num.number)
| JString (s : jsstring)
| JArray (l : list json)
| JObject (l : list (jsstring * json)).

(** A file as [fs.readFileSync] and [JSON.parse] find it. *)
Inductive File : Type :=
| Unreadable                              (* readFileSync throws *)
| NotJSON (text : jsstring)               (* JSON.parse throws *)
| JSONText (text : jsstring) (value : json).

(** The request [fetch] is given; [body] is the value handed to
    [JSON.stringify]. *)
Record Request : Type := {
  url : jsstring;
  method : jsstring;
  headers : list (jsstring * jsstring);
  body : json
}.

Record Response : Type := {
  status : nat;
  text : jsstring
}.

(** [res.ok] *)
Definition ok (res : Response) : bool :=
  Nat.leb 200 (status res) && Nat.leb (status res) 299.

(** What the script runs against: the two environment variables, the
    entries of the working directory, its files, and the network ([None]
    when [fetch] rejects). *)
Record Env : Type := {
  WP_URL : option jsstring;
  WP_TOKEN : option jsstring;
  readdirSync : list jsstring;
  readFileSync : jsstring -> File;
  fetch : Request -> option Response
}.

(** How the process ends: [process.exit(code)], an uncaught exception or
    rejection (Node ends with a non-zero code), or the end of the script. *)
Inductive Exit : Type :=
| ProcessExit (code : nat)
| Uncaught
| Completed.

Definition nonzero_exit (e : Exit) : bool :=
  match e with
  | ProcessExit O => false
  | ProcessExit (S _) => true
  | Uncaught => true
  | Completed => false
  end.

Inductive Stream : Type := Stdout | Stderr.

(** The result of a run: how it ended, what it printed, what it sent. *)
Record Run : Type := {
  exit : Exit;
  console : list (Stream * jsstring);
  requests : list Request
}.

(** [!v] for an environment variable. *)
Definition missing (v : option jsstring) : bool :=
  match v with Some s => negb (truthy s) | None => true end.

Definition endsWith (s p : jsstring) : bool := startsWith (rev s) (rev p).

Definition jsonFile (env : Env) : option jsstring :=
  find (fun f => startsWith f (js "urls_") && endsWith f (js "_por_cidade.json"))
       (readdirSync env).

Definition xlsxFile (env : Env) : option jsstring :=
  find (fun f => startsWith f (js "imoveis_") && endsWith f (js "_detalhes.xlsx"))
       (readdirSync env).

Definition request (wp_url wp_token : jsstring) (urlsPorCidade : json) : Request :=
  {| url := wp_url ++ js "/wp-json/imoveis/v1/import";
     method := js "POST";
     headers := [(js "Content-Type", js "application/json");
                 (js "Authorization", js "Bearer " ++ wp_token)];
     body := JObject [(js "urlsPorCidade", urlsPorCidade)] |}.

(** The script, from top to bottom. *)
Definition main (env : Env) : Run :=
  if missing (WP_URL env) || missing (WP_TOKEN env) then
    {| exit := ProcessExit 1;
       console :=
         [(Stderr, js "❌ Defina WP_URL e WP_TOKEN nas variáveis de ambiente.")];
       requests := [] |}
  else
    let wp_url := Scraper.or_empty (WP_URL env) in
    let wp_token := Scraper.or_empty (WP_TOKEN env) in
    match jsonFile env with
    | None =>
        {| exit := ProcessExit 1;
           console :=
             [(Stderr, js "❌ JSON de URLs não encontrado. Rode o scraper antes.")];
           requests := [] |}
    | Some file =>
        match readFileSync env file with
        | Unreadable | NotJSON _ =>
            {| exit := Uncaught; console := []; requests := [] |}
        | JSONText _ urlsPorCidade =>
            let logs :=
              [(Stdout, js "📤 Enviando dados para WP: " ++ wp_url);
               (Stdout, js "   JSON: " ++ file)]
              ++ match xlsxFile env with
                 | Some x => [(Stdout, js "   XLSX: " ++ x)]
                 | None => []
                 end in
            let req := request wp_url wp_token urlsPorCidade in
            match fetch env req with
            | None => {| exit := Uncaught; console := logs; requests := [req] |}
            | Some res =>
                if negb (ok res) then
                  {| exit := ProcessExit 1;
                     console := logs ++ [(Stderr, js "❌ Erro no import WP: " ++ text res)];
                     requests := [req] |}
                else
                  {| exit := Completed;
                     console := logs ++ [(Stdout, js "✅ Import WP OK: " ++ text res)];
                     requests := [req] |}
            end
        end
    end.

End SyncWP.

(* ================================================================== *)
(** * Closed forms of the global replacements *)
(* ================================================================== *)

(** What the global replacements of the source compute, written by recursion
    on the string; each is proved equal to the matcher's result below. *)
Module Direct.
Import JS.

(** The length of the longest prefix made of units of the class [p]. *)
Fixpoint run (p : char16 -> bool) (s : jsstring) : nat :=
  match s with
  | c :: r => if p c then S (run p r) else 0
  | [] => 0
  end.

(** Every run of units of [p] replaced by [by_]; [inrun] tells that the
    previous unit belonged to a run already replaced. *)
Fixpoint squeeze (p : char16 -> bool) (by_ : jsstring) (inrun : bool)
    (s : jsstring) : jsstring :=
  match s with
  | [] => []
  | c :: r =>
      if p c then
        if inrun then squeeze p by_ true r else by_ ++ squeeze p by_ true r
      else c :: squeeze p by_ false r
  end.

(** Every run of two or more units of [p] replaced by [by_]. *)
Fixpoint squeeze2 (p : char16 -> bool) (by_ : jsstring) (inrun : bool)
    (s : jsstring) : jsstring :=
  match s with
  | [] => []
  | c :: r =>
      if p c then
        if inrun then squeeze2 p by_ true r
        else match r with
             | d :: _ =>
                 if p d then by_ ++ squeeze2 p by_ true r
                 else c :: squeeze2 p by_ false r
             | [] => [c]
             end
      else c :: squeeze2 p by_ false r
  end.

(** CR LF, LF and CR each replaced by [by_]. *)
Fixpoint newlines (by_ : jsstring) (s : jsstring) : jsstring :=
  match s with
  | [] => []
  | c :: r =>
      if N.eqb c CR then
        match r with
        | d :: r' => if N.eqb d LF then by_ ++ newlines by_ r' else by_ ++ newlines by_ r
        | [] => by_
        end
      else if N.eqb c LF then by_ ++ newlines by_ r
      else c :: newlines by_ r
  end.

(** No white space but single spaces: [prev] tells that the previous unit
    was white space. *)
Fixpoint tidy (prev : bool) (s : jsstring) : bool :=
  match s with
  | [] => true
  | c :: r =>
      if isWhiteSpace c then N.eqb c SPACE && negb prev && tidy true r
      else tidy false r
  end.

(** No two white-space units in a row. *)
Fixpoint spaced (prev : bool) (s : jsstring) : bool :=
  match s with
  | [] => true
  | c :: r =>
      if isWhiteSpace c then negb prev && spaced true r
      else spaced false r
  end.

(** A unit that is no line break. *)
Definition noNewline (c : char16) : Prop := c <> CR /\ c <> LF.

(** Neither the first nor the last unit is white space. *)
Definition trimmed (s : jsstring) : Prop := trimStart s = s /\ trimEnd s = s.

(** The text of a line behind its first colon, and the part of it before
    the next colon. *)
Fixpoint after_colon (s : jsstring) : jsstring :=
  match s with
  | [] => []
  | c :: r => if N.eqb c 58 then r else after_colon r
  end.

Fixpoint before_colon (s : jsstring) : jsstring :=
  match s with
  | [] => []
  | c :: r => if N.eqb c 58 then [] else c :: before_colon r
  end.

(** The lookup as the specification words it: of the first line whose
    normalized form starts with or contains the normalized label, the text
    behind the first colon, trimmed. *)
Definition getValueAfterLabel_spec (arr : list jsstring) (label : jsstring) : jsstring :=
  let lab := Scraper.norm (Some label) in
  match find (fun t => let n := Scraper.norm (Some t) in
                       startsWith n lab || includes n lab) arr with
  | Some row => trim (after_colon row)
  | None => []
  end.

(** The identifiers matched on the pages [1..total], repeats included. *)
Definition ids_lidos (total : nat) (lista : nat -> list Scraper.Item) : list jsstring :=
  flat_map
    (fun p => flat_map
                (fun it => match Scraper.idImovel it with Some i => [i] | None => [] end)
                (lista p))
    (List.seq 1 total).

(** A unit of Basic Latin or Latin-1 that is no precomposed letter. *)
Definition plain (c : char16) : bool :=
  N.leb c 255 && match latin1_base c with None => true | Some _ => false end.

(** A unit its lower-case mapping leaves alone. *)
Definition lowercase (c : char16) : bool := N.eqb (lower1 c) c.

(** The units of a normalized string. *)
Definition normal_unit (c : char16) : bool :=
  plain c && lowercase c && negb (Scraper.isCombiningMark c).

(** A unit outside the block of the combining diacritical marks. *)
Definition notMark (c : char16) : bool := negb (Scraper.isCombiningMark c).

(** The rank of a number that is not NaN: its class (-2 and 2 for the
    infinities, -1 and 1 for the finite numbers, 0 for the zeros), then its
    exponent and its mantissa, negated below zero. *)
Definition rank (x : Num.number) : Z * Z * Z :=
  match x with
  | S754_zero _ => (0, 0, 0)%Z
  | S754_infinity s => (if s then (-2)%Z else 2%Z, 0%Z, 0%Z)
  | S754_nan => (0, 0, 0)%Z
  | S754_finite false m e => (1%Z, e, Zpos m)
  | S754_finite true m e => ((-1)%Z, (- e)%Z, Zneg m)
  end.

(** The comparison of two numbers that are not NaN is the lexicographic
    comparison of their ranks. *)
Definition rank_lt (a b : Z * Z * Z) : Prop :=
  let '(a1, a2, a3) := a in
  let '(b1, b2, b3) := b in
  (a1 < b1)%Z \/ (a1 = b1 /\ ((a2 < b2)%Z \/ (a2 = b2 /\ (a3 < b3)%Z))).

Definition rank_le (a b : Z * Z * Z) : Prop :=
  let '(a1, a2, a3) := a in
  let '(b1, b2, b3) := b in
  (a1 < b1)%Z \/ (a1 = b1 /\ ((a2 < b2)%Z \/ (a2 = b2 /\ (a3 <= b3)%Z))).

(** The text [parseBRL] hands to [parseFloat]: the digits, commas, periods
    and hyphens of the input, without the periods, the first comma turned
    into a period. *)
Definition brl_text (s : option jsstring) : jsstring :=
  replace_first (js ",") (js ".")
    (filter (fun c => negb (N.eqb 46 c))
       (filter (fun c => negb (Scraper.notMoneySign c)) (Scraper.or_empty s))).

(** A digit, a comma, a period or a hyphen. *)
Definition moneyChar (c : char16) : bool :=
  isDigit c || N.eqb c 44 || N.eqb c 45 || N.eqb c 46.

(** A text that begins with a digit or with a period and a digit. *)
Definition starts_digits (t : jsstring) : bool :=
  match t with
  | d :: r =>
      isDigit d
      || (N.eqb d 46 && match r with d2 :: _ => isDigit d2 | [] => false end)
  | [] => false
  end.

(** A text that begins with a decimal number, after an optional hyphen. *)
Definition starts_number (t : jsstring) : bool :=
  match t with
  | c :: r => if N.eqb c 45 then starts_digits r else starts_digits t
  | [] => false
  end.

(** A Brazilian currency amount as the specification describes it: digits,
    in groups of three behind each period when it has periods, then
    optionally a comma and the decimals. *)
Fixpoint all_digits (s : jsstring) : bool :=
  match s with
  | [] => true
  | c :: r => isDigit c && all_digits r
  end.

Fixpoint groups_of_three (gs : list jsstring) : bool :=
  match gs with
  | [] => true
  | g :: r => Nat.eqb (List.length g) 3 && all_digits g && groups_of_three r
  end.

Definition brl_amount (s : jsstring) : bool :=
  match split 44%N s with
  | [int] | [int; _] =>
      match split 46%N int with
      | g :: gs =>
          negb (Nat.eqb (List.length g) 0) && all_digits g
          && (match gs with [] => true | _ => Nat.leb (List.length g) 3 end)
          && groups_of_three gs
      | [] => false
      end
      && match split 44%N s with
         | [_; dec] => negb (Nat.eqb (List.length dec) 0) && all_digits dec
         | _ => true
         end
  | _ => false
  end.

(** A number other than NaN. *)
Definition notNaN (x : Num.number) : Prop := Num.isNaN x = false.

(** [p] holds of every unit below [n]. *)
Definition below (n : nat) (p : char16 -> bool) : bool :=
  forallb p (map N.of_nat (List.seq 0 n)).

End Direct.

(* ================================================================== *)
(** * Sample inputs *)
(* ================================================================== *)

(** A detail page and three environments of the forwarder, used to run the
    statements below on concrete inputs. *)
Module Exemplos.
Import JS Scraper SyncWP.

Definition el (s : string) : Element := {| innerText := js s; textContent := js s |}.

(** A listing with an appraisal of 100.000,00 and a minimum of 80.000,00. *)
Definition detalhe : Document :=
  {| dadosImovel := Some
       {| dados_h5 := Some {| h5 := el "Casa em Porto Velho";
                              firstChild := Some (TextNode (js " Casa em Porto Velho ")) |};
          content_p :=
            [el "Valor de avaliação: R$ 100.000,00
Valor mínimo de venda: R$ 80.000,00"];
          control_items :=
            [[el "Tipo de imóvel: Casa"; el "Quartos: 3"; el "Matrícula(s): 12345"];
             [el "Área total = 200,00m2"]] |};
     hdnimovel := Some (js "8787700000001");
     relatedBox := Some
       {| tipo_contador_span_b := None;
          tipo_contador_b := Some (el "Licitação Aberta");
          tipo_div_span_b := None;
          rel_spans := [el "Edital: 0001/2025"; el "Número do item: 7"];
          rel_p := [el "Endereço: Rua A, Nº 123, Bairro B, CEP: 12345-000, Cidade C - RO"];
          rel_linkMat := None |};
     linkMatGlobal := None;
     exibeDoc_anchors := [];
     thumbs := [];
     hdn_estado := Some (js "RO");
     hdn_cidade := None;
     hdn_bairro := None;
     URL_href := fun _ => None |}.

Definition url_detalhe : jsstring := urlDet (js "8787700000001").

(** A browser that reaches [detalhe] at [url_detalhe] and nothing else. *)
Definition pagina : Page :=
  fun u => if streq u url_detalhe then Some detalhe else None.

Definition indice : json :=
  JObject [(js "5457", JObject [(js "cidade", JString (js "PORTO VELHO"));
                                (js "urls", JArray [JString url_detalhe])])].

(** The endpoint answers 200. *)
Definition env_ok : Env :=
  {| WP_URL := Some (js "https://wp.example");
     WP_TOKEN := Some (js "segredo");
     readdirSync := [js "index.js"; js "urls_ro_por_cidade.json"];
     readFileSync := fun _ => JSONText (js "{}") indice;
     fetch := fun _ => Some {| status := 200; text := js "ok" |} |}.

(** The endpoint cannot be reached: [fetch] rejects. *)
Definition env_sem_rede : Env :=
  {| WP_URL := Some (js "https://wp.example");
     WP_TOKEN := Some (js "segredo");
     readdirSync := [js "index.js"; js "urls_ro_por_cidade.json"];
     readFileSync := fun _ => JSONText (js "{}") indice;
     fetch := fun _ => None |}.

(** The index file was cut short and is no JSON text. *)
Definition env_json_cortado : Env :=
  {| WP_URL := Some (js "https://wp.example");
     WP_TOKEN := Some (js "segredo");
     readdirSync := [js "index.js"; js "urls_ro_por_cidade.json"];
     readFileSync := fun _ => NotJSON (js "{");
     fetch := fun _ => Some {| status := 200; text := js "ok" |} |}.

End Exemplos.

(* ================================================================== *)
(** * Shapes of patterns and of their results *)
(* ================================================================== *)

(** Notions the statements about the patterns of the scraper are written
    with. *)
Module Shapes.
Import JS Regex.

(** A pattern without a capturing group. *)
Fixpoint nogroup (r : regex) : bool :=
  match r with
  | Empty | Class _ | Bol | Eol => true
  | Seq r1 r2 | Alt r1 r2 => nogroup r1 && nogroup r2
  | Rep _ _ _ r1 => nogroup r1
  | Group _ _ => false
  end.

(** A pattern that is a sequence whose last group is group [i], a
    quantified class [p] with the bounds [mn] and [mx], with no group
    behind it. *)
Inductive captures (i : nat) (p : char16 -> bool) (mn : nat) (mx : option nat)
    : regex -> Prop :=
| captures_last (g : bool) :
    captures i p mn mx (Group i (Rep g mn mx (Class p)))
| captures_then (g : bool) (post : regex) :
    nogroup post = true ->
    captures i p mn mx (Seq (Group i (Rep g mn mx (Class p))) post)
| captures_seq (a r : regex) :
    captures i p mn mx r -> captures i p mn mx (Seq a r).

(** The bounds of a quantifier are in order. *)
Definition bounded (mn : nat) (mx : option nat) : Prop :=
  forall m, mx = Some m -> (mn <= m)%nat.

(** A captured text: units of [p], as many as the bounds allow. *)
Definition captured_by (p : char16 -> bool) (mn : nat) (mx : option nat)
    (cap : jsstring) : Prop :=
  forallb p cap = true
  /\ (mn <= List.length cap)%nat
  /\ forall m, mx = Some m -> (List.length cap <= m)%nat.

(** The sign bit of a number. *)
Definition negative (x : Num.number) : bool :=
  match x with
  | S754_zero s | S754_infinity s | S754_finite s _ _ => s
  | S754_nan => false
  end.

(** A text without a hyphen. *)
Definition no_hyphen (s : jsstring) : bool := negb (existsb (N.eqb 45) s).

(** The elements of a list, each at its first occurrence. *)
Fixpoint first_occurrences (l : list jsstring) : list jsstring :=
  match l with
  | [] => []
  | x :: r => x :: filter (fun y => negb (streq x y)) (first_occurrences r)
  end.

(** The text of a line behind its first separator [sep], and the part of
    a text before its first [sep]. *)
Fixpoint after (sep : char16) (s : jsstring) : jsstring :=
  match s with
  | [] => []
  | c :: r => if N.eqb c sep then r else after sep r
  end.

Fixpoint before (sep : char16) (s : jsstring) : jsstring :=
  match s with
  | [] => []
  | c :: r => if N.eqb c sep then [] else c :: before sep r
  end.

(** A text without its leading asterisk, when it has one. *)
Definition drop_star (s : jsstring) : jsstring :=
  match s with
  | c :: r => if N.eqb 42 c then r else s
  | [] => []
  end.

(** [k] may stand before [k'] among the keys of an object: an array index
    before a larger one and before any other string, another string before
    any other string. *)
Definition precedes (k k' : jsstring) : bool :=
  match Scraper.array_index k, Scraper.array_index k' with
  | Some n, Some n' => N.ltb n n'
  | Some _, None => true
  | None, Some _ => false
  | None, None => true
  end.

(** Keys in the order of [Object.entries]. *)
Fixpoint ordered (ks : list jsstring) : bool :=
  match ks with
  | [] => true
  | k :: r => forallb (precedes k) r && ordered r
  end.

(** The decimal numeral of a string of digits. *)
Fixpoint uint_of_units (s : jsstring) : Decimal.uint :=
  match s with
  | [] => Decimal.Nil
  | c :: r =>
      let u := uint_of_units r in
      if N.eqb c 48 then Decimal.D0 u else if N.eqb c 49 then Decimal.D1 u
      else if N.eqb c 50 then Decimal.D2 u else if N.eqb c 51 then Decimal.D3 u
      else if N.eqb c 52 then Decimal.D4 u else if N.eqb c 53 then Decimal.D5 u
      else if N.eqb c 54 then Decimal.D6 u else if N.eqb c 55 then Decimal.D7 u
      else if N.eqb c 56 then Decimal.D8 u else Decimal.D9 u
  end.

End Shapes.

(* ================================================================== *)
(** * Further sample inputs *)
(* ================================================================== *)

Module Amostras.
Import JS Scraper SyncWP.

(** The sample detail page with two gallery thumbnails, the second one
    lazy-loaded. *)
Definition detalhe_com_fotos : Document :=
  {| dadosImovel := dadosImovel Exemplos.detalhe;
     hdnimovel := hdnimovel Exemplos.detalhe;
     relatedBox := relatedBox Exemplos.detalhe;
     linkMatGlobal := None;
     exibeDoc_anchors := [];
     thumbs :=
       [{| src := js "/fotos/F8787700000001_21.jpg"; dataset_src := [];
           attr_data_src := []; attr_data_original := [] |};
        {| src := []; dataset_src := js "/fotos/F8787700000001_22.jpg";
           attr_data_src := js "/fotos/F8787700000001_22.jpg";
           attr_data_original := [] |};
        {| src := []; dataset_src := []; attr_data_src := [];
           attr_data_original := [] |}];
     hdn_estado := Some (js "RO");
     hdn_cidade := None;
     hdn_bairro := None;
     URL_href := fun rel => Some (js "https://venda-imoveis.caixa.gov.br" ++ rel) |}.

End Amostras.

(* ================================================================== *)
(** * The matcher on the patterns of the global replacements *)
(* ================================================================== *)

Module RegexFacts.
Import JS Regex Direct Scraper.

Lemma repeat_matcher_S (R : Type) (m : matcher_of R) (k : cont R) (g : bool)
    (f mn : nat) (mx : option nat) (x : pos) (cs : caps) :
  repeat_matcher m k g (S f) mn mx x cs =
  if max_zero mx then k x cs
  else
    let d : cont R := fun y cs' =>
      if Nat.eqb mn 0 && Nat.eqb (fst y) (fst x) then None
      else repeat_matcher m k g f (pred mn) (max_pred mx) y cs' in
    if negb (Nat.eqb mn 0) then m x cs d
    else if g then match m x cs d with Some z => Some z | None => k x cs end
    else match k x cs with Some z => Some z | None => m x cs d end.
Proof. reflexivity. Qed.

Lemma matcher_Class_cons (R : Type) (p : char16 -> bool) i c r cs (k : cont R) :
  matcher (Class p) (i, c :: r) cs k = if p c then k (S i, r) cs else None.
Proof. reflexivity. Qed.

Lemma matcher_Class_nil (R : Type) (p : char16 -> bool) i cs (k : cont R) :
  matcher (Class p) (i, []) cs k = None.
Proof. reflexivity. Qed.

Lemma matcher_Rep (R : Type) g mn mx r1 (x : pos) cs (k : cont R) :
  matcher (Rep g mn mx r1) x cs k =
  repeat_matcher (matcher r1) k g (mn + List.length (snd x) + 1) mn mx x cs.
Proof. reflexivity. Qed.

Lemma repeat_class_greedy (R : Type) (p : char16 -> bool) (k : cont R) :
  (forall y cs, k y cs <> None) ->
  forall (s : jsstring) (fuel mn i : nat) (cs : caps),
    (mn + List.length s < fuel)%nat ->
    repeat_matcher (matcher (Class p)) k true fuel mn None (i, s) cs =
    if (mn <=? run p s)%nat then k ((i + run p s)%nat, skipn (run p s) s) cs else None.
Proof.
  intros Hk s.
  induction s as [|c r IH]; intros fuel mn i cs Hf;
    (destruct fuel as [|f]; [lia|]); rewrite repeat_matcher_S;
    cbn [max_zero].
  - rewrite matcher_Class_nil. cbn [run skipn].
    destruct mn as [|mn']; cbn [Nat.eqb negb Nat.leb].
    + rewrite Nat.add_0_r. reflexivity.
    + reflexivity.
  - rewrite matcher_Class_cons. cbn [run fst].
    destruct (p c) eqn:Hp.
    + assert (Hi : Nat.eqb (S i) i = false) by (apply Nat.eqb_neq; lia).
      rewrite Hi, Bool.andb_false_r.
      cbn [max_pred].
      rewrite IH by (cbn [List.length] in Hf; destruct mn; cbn; lia).
      cbn [skipn].
      replace (S i + run p r)%nat with (i + S (run p r))%nat by lia.
      destruct mn as [|mn']; cbn [Nat.eqb negb pred Nat.leb].
      * destruct (k _ cs) eqn:E; [reflexivity|]. apply Hk in E. destruct E.
      * reflexivity.
    + cbn [skipn]. destruct mn as [|mn']; cbn [Nat.eqb negb Nat.leb].
      * rewrite Nat.add_0_r. reflexivity.
      * reflexivity.
Qed.

(** [p+] and [p{2,}] at a position, before [accept]. *)
Lemma match_at_least (p : char16 -> bool) (mn i : nat) (s : jsstring) :
  match_at (Rep true mn None (Class p)) (i, s) =
  if (mn <=? run p s)%nat
  then Some {| index := i; matched := firstn (run p s) s; groups := [] |}
  else None.
Proof.
  unfold match_at. rewrite matcher_Rep. cbn [snd].
  rewrite repeat_class_greedy by (try discriminate; lia).
  unfold accept. cbn [fst snd].
  replace (i + run p s - i)%nat with (run p s) by lia. reflexivity.
Qed.

Lemma match_at_class (p : char16 -> bool) (i : nat) (s : jsstring) :
  match_at (Class p) (i, s) =
  match s with
  | c :: _ => if p c then Some {| index := i; matched := [c]; groups := [] |} else None
  | [] => None
  end.
Proof.
  unfold match_at. destruct s as [|c r]; [reflexivity|].
  rewrite matcher_Class_cons. unfold accept. cbn [fst snd].
  replace (S i - i)%nat with 1%nat by lia. reflexivity.
Qed.

Lemma replace_from_S (f : nat) (r : regex) (by_ : jsstring) (i : nat) (s : jsstring) :
  replace_from (S f) r by_ i s =
  let step :=
    match s with
    | c :: rest => c :: replace_from f r by_ (S i) rest
    | [] => []
    end in
  match match_at r (i, s) with
  | Some m =>
      match List.length (matched m) with
      | O => by_ ++ step
      | n => by_ ++ replace_from f r by_ (i + n) (skipn n s)
      end
  | None => step
  end.
Proof. reflexivity. Qed.

(** Deleting the units of a class is filtering. *)
Lemma replace_from_class (p : char16 -> bool) (s : jsstring) :
  forall fuel i, (List.length s < fuel)%nat ->
  replace_from fuel (Class p) [] i s = filter (fun c => negb (p c)) s.
Proof.
  induction s as [|c r IH]; intros fuel i Hf; (destruct fuel as [|f]; [cbn in Hf; lia|]);
    cbn [replace_from]; rewrite match_at_class.
  - reflexivity.
  - cbn [filter]. destruct (p c) eqn:Hp; cbn [negb matched List.length app skipn].
    + apply IH. cbn in Hf; lia.
    + rewrite IH by (cbn in Hf; lia). reflexivity.
Qed.

Lemma replace_all_class (p : char16 -> bool) (s : jsstring) :
  replace_all (Class p) [] s = filter (fun c => negb (p c)) s.
Proof. unfold replace_all. apply replace_from_class. lia. Qed.


Lemma run_le_length (p : char16 -> bool) (s : jsstring) : (run p s <= List.length s)%nat.
Proof. induction s as [|c r IH]; cbn; [lia|]. destruct (p c); lia. Qed.

Lemma length_firstn_run (p : char16 -> bool) (s : jsstring) :
  List.length (firstn (run p s) s) = run p s.
Proof. rewrite length_firstn. pose proof (run_le_length p s). lia. Qed.

Lemma squeeze_in_run (p : char16 -> bool) (by_ s : jsstring) :
  squeeze p by_ true s = squeeze p by_ false (skipn (run p s) s).
Proof.
  induction s as [|c r IH]; [reflexivity|].
  cbn [squeeze run]. destruct (p c) eqn:Hp.
  - cbn [skipn]. exact IH.
  - cbn [skipn squeeze]. rewrite Hp. reflexivity.
Qed.

Lemma squeeze2_in_run (p : char16 -> bool) (by_ s : jsstring) :
  squeeze2 p by_ true s = squeeze2 p by_ false (skipn (run p s) s).
Proof.
  induction s as [|c r IH]; [reflexivity|].
  cbn [squeeze2 run]. destruct (p c) eqn:Hp.
  - cbn [skipn]. exact IH.
  - cbn [skipn squeeze2]. rewrite Hp. reflexivity.
Qed.

(** Replacing the runs of a class. *)
Lemma replace_from_plus (p : char16 -> bool) (by_ : jsstring) :
  forall fuel (s : jsstring) i, (List.length s < fuel)%nat ->
  replace_from fuel (plus (Class p)) by_ i s = squeeze p by_ false s.
Proof.
  unfold plus.
  induction fuel as [|f IH]; intros s i Hf; [lia|].
  rewrite replace_from_S, match_at_least. cbv zeta.
  destruct s as [|c r].
  - reflexivity.
  - cbn [run squeeze]. destruct (p c) eqn:Hp.
    + cbn [Nat.leb]. cbn [matched].
      change (firstn (S (run p r)) (c :: r)) with (c :: firstn (run p r) r).
      cbn [List.length]. rewrite length_firstn_run. cbn [skipn].
      rewrite IH.
      * rewrite squeeze_in_run. reflexivity.
      * rewrite length_skipn. cbn in Hf. lia.
    + cbn [Nat.leb]. rewrite IH by (cbn in Hf; lia). reflexivity.
Qed.

Lemma replace_all_plus (p : char16 -> bool) (by_ s : jsstring) :
  replace_all (plus (Class p)) by_ s = squeeze p by_ false s.
Proof. unfold replace_all. apply replace_from_plus. lia. Qed.

(** Replacing the runs of two or more units of a class. *)
Lemma replace_from_at_least_2 (p : char16 -> bool) (by_ : jsstring) :
  forall fuel (s : jsstring) i, (List.length s < fuel)%nat ->
  replace_from fuel (at_least 2 (Class p)) by_ i s = squeeze2 p by_ false s.
Proof.
  unfold at_least.
  induction fuel as [|f IH]; intros s i Hf; [lia|].
  rewrite replace_from_S, match_at_least. cbv zeta.
  destruct s as [|c r].
  - reflexivity.
  - cbn [run squeeze2]. destruct (p c) eqn:Hp.
    + destruct r as [|d r'].
      * cbn [run Nat.leb]. rewrite IH by (cbn in Hf |- *; lia). reflexivity.
      * cbn [run]. destruct (p d) eqn:Hd.
        -- cbn [Nat.leb matched].
           change (firstn (S (S (run p r'))) (c :: d :: r'))
             with (c :: d :: firstn (run p r') r').
           cbn [List.length]. rewrite length_firstn_run. cbn [skipn].
           rewrite IH by (rewrite length_skipn; cbn in Hf; lia).
           rewrite squeeze2_in_run. cbn [run]. rewrite Hd. reflexivity.
        -- cbn [Nat.leb]. rewrite IH by (cbn in Hf |- *; lia). reflexivity.
    + cbn [Nat.leb]. rewrite IH by (cbn in Hf; lia). reflexivity.
Qed.

Lemma replace_all_at_least_2 (p : char16 -> bool) (by_ s : jsstring) :
  replace_all (at_least 2 (Class p)) by_ s = squeeze2 p by_ false s.
Proof. unfold replace_all. apply replace_from_at_least_2. lia. Qed.


Lemma match_at_newline (i : nat) (s : jsstring) :
  match_at re_newline (i, s) =
  match s with
  | [] => None
  | c :: r =>
      if N.eqb CR c then
        match r with
        | d :: _ =>
            if N.eqb LF d
            then Some {| index := i; matched := [c; d]; groups := [] |}
            else Some {| index := i; matched := [c]; groups := [] |}
        | [] => Some {| index := i; matched := [c]; groups := [] |}
        end
      else if N.eqb LF c then Some {| index := i; matched := [c]; groups := [] |}
      else None
  end.
Proof.
  assert (H1 : (S i - i = 1)%nat) by lia.
  assert (H2 : (S (S i) - i = 2)%nat) by lia.
  assert (H3 : Nat.eqb (S i) i = false) by (apply Nat.eqb_neq; lia).
  destruct s as [|c [|d r]]; unfold match_at, re_newline, opt, chr, accept;
    cbn -[N.eqb Nat.sub Nat.eqb]; rewrite ?H1, ?H2, ?H3; [reflexivity| |].
  - destruct (N.eqb CR c) eqn:Hc.
    + apply N.eqb_eq in Hc. subst c. reflexivity.
    + cbn -[N.eqb]. destruct (N.eqb LF c); reflexivity.
  - destruct (N.eqb CR c) eqn:Hc.
    + apply N.eqb_eq in Hc. subst c. cbn -[N.eqb Nat.sub Nat.eqb].
      rewrite ?H1, ?H2, ?H3.
      destruct (N.eqb LF d); reflexivity.
    + cbn -[N.eqb]. destruct (N.eqb LF c); reflexivity.
Qed.

Lemma replace_from_newline (by_ : jsstring) :
  forall fuel (s : jsstring) i, (List.length s < fuel)%nat ->
  replace_from fuel re_newline by_ i s = newlines by_ s.
Proof.
  induction fuel as [|f IH]; intros s i Hf; [lia|].
  rewrite replace_from_S, match_at_newline. cbv zeta.
  destruct s as [|c r]; [reflexivity|].
  cbn [newlines]. rewrite (N.eqb_sym c CR), (N.eqb_sym c LF).
  destruct (N.eqb CR c) eqn:Hc.
  - destruct r as [|d r'].
    + cbn [matched List.length skipn]. rewrite IH by (cbn in Hf |- *; lia).
      rewrite app_nil_r. reflexivity.
    + rewrite (N.eqb_sym d LF). destruct (N.eqb LF d) eqn:Hd;
        cbn [matched List.length skipn]; rewrite IH by (cbn in Hf |- *; lia); reflexivity.
  - destruct (N.eqb LF c) eqn:Hl.
    + cbn [matched List.length skipn]. rewrite IH by (cbn in Hf; lia). reflexivity.
    + rewrite IH by (cbn in Hf; lia). reflexivity.
Qed.

Lemma replace_all_newline (by_ s : jsstring) :
  replace_all re_newline by_ s = newlines by_ s.
Proof. unfold replace_all. apply replace_from_newline. lia. Qed.

(** The three source functions in closed form. *)
Lemma norm_direct (s : option jsstring) :
  norm s =
  trim (squeeze isWhiteSpace (js " ") false
          (toLowerCase
             (filter (fun c => negb (isCombiningMark c)) (normalize_NFD (or_empty s))))).
Proof.
  unfold norm, ws. rewrite replace_all_plus, replace_all_class. reflexivity.
Qed.

Lemma sanitize_direct (s : jsstring) :
  sanitize (Str s) =
  trim (squeeze2 isWhiteSpace (js " ") false (newlines (js " ") s)).
Proof.
  unfold sanitize, re_spaces, ws.
  rewrite replace_all_at_least_2, replace_all_newline. reflexivity.
Qed.

End RegexFacts.

(* ================================================================== *)
(** * Trimming and collapsing white space *)
(* ================================================================== *)

Module TextFacts.
Import JS Direct.

Lemma trimStart_idem (s : jsstring) : trimStart (trimStart s) = trimStart s.
Proof.
  induction s as [|c r IH]; [reflexivity|].
  cbn [trimStart]. destruct (isWhiteSpace c) eqn:H; [exact IH|].
  cbn [trimStart]. rewrite H. reflexivity.
Qed.

Lemma trimEnd_cons (c : char16) (r : jsstring) :
  trimEnd (c :: r) =
  match trimEnd r with
  | [] => if isWhiteSpace c then [] else [c]
  | r' => c :: r'
  end.
Proof. reflexivity. Qed.

Lemma trimEnd_idem (s : jsstring) : trimEnd (trimEnd s) = trimEnd s.
Proof.
  induction s as [|c r IH]; [reflexivity|].
  rewrite trimEnd_cons. destruct (trimEnd r) as [|d r'] eqn:E.
  - destruct (isWhiteSpace c) eqn:H; [reflexivity|].
    cbn. rewrite H. reflexivity.
  - rewrite trimEnd_cons, IH. reflexivity.
Qed.

Lemma trimEnd_nil_trimStart (s : jsstring) : trimEnd s = [] -> trimStart s = [].
Proof.
  induction s as [|c r IH]; [reflexivity|].
  rewrite trimEnd_cons. destruct (trimEnd r) eqn:E; [|discriminate].
  destruct (isWhiteSpace c) eqn:H; [|discriminate].
  intros _. cbn. rewrite H. auto.
Qed.

Lemma trimStart_trimEnd (s : jsstring) : trimStart (trimEnd s) = trimEnd (trimStart s).
Proof.
  induction s as [|c r IH]; [reflexivity|].
  cbn [trimStart]. destruct (isWhiteSpace c) eqn:H.
  - rewrite trimEnd_cons. destruct (trimEnd r) as [|d r'] eqn:E.
    + rewrite H. rewrite (trimEnd_nil_trimStart r E). reflexivity.
    + rewrite <- IH. cbn [trimStart]. rewrite H. reflexivity.
  - rewrite trimEnd_cons. destruct (trimEnd r) as [|d r'] eqn:E.
    + rewrite H. cbn. rewrite H. reflexivity.
    + cbn [trimStart]. rewrite H. reflexivity.
Qed.

Lemma trim_idem (s : jsstring) : trim (trim s) = trim s.
Proof.
  unfold trim. rewrite trimStart_trimEnd, trimStart_idem, trimEnd_idem. reflexivity.
Qed.

Lemma trim_trimmed (s : jsstring) : trimmed (trim s).
Proof.
  split; unfold trim.
  - rewrite trimStart_trimEnd, trimStart_idem. reflexivity.
  - apply trimEnd_idem.
Qed.

Lemma trimmed_trim (s : jsstring) : trimmed s -> trim s = s.
Proof. intros [H1 H2]. unfold trim. rewrite H1. exact H2. Qed.

(** ** Properties kept by trimming *)

Lemma Forall_trimStart (P : char16 -> Prop) (s : jsstring) :
  Forall P s -> Forall P (trimStart s).
Proof.
  induction 1 as [|c r Hc Hr IH]; [constructor|].
  cbn. destruct (isWhiteSpace c); [exact IH|]. constructor; assumption.
Qed.

Lemma Forall_trimEnd (P : char16 -> Prop) (s : jsstring) :
  Forall P s -> Forall P (trimEnd s).
Proof.
  induction 1 as [|c r Hc Hr IH]; [constructor|].
  rewrite trimEnd_cons. destruct (trimEnd r).
  - destruct (isWhiteSpace c); constructor; [assumption|constructor].
  - constructor; assumption.
Qed.

Lemma Forall_trim (P : char16 -> Prop) (s : jsstring) :
  Forall P s -> Forall P (trim s).
Proof. intros H. apply Forall_trimEnd, Forall_trimStart, H. Qed.

Lemma Forall_squeeze (P : char16 -> Prop) (p : char16 -> bool) (by_ s : jsstring) :
  Forall P by_ -> Forall P s -> forall b, Forall P (squeeze p by_ b s).
Proof.
  intros Hb. induction 1 as [|c r Hc Hr IH]; intros b; [constructor|].
  cbn. destruct (p c).
  - destruct b; [apply IH|]. apply Forall_app. split; [assumption|apply IH].
  - constructor; [assumption|apply IH].
Qed.

(** ** Tidy strings *)

Lemma tidy_weaken (s : jsstring) : tidy true s = true -> tidy false s = true.
Proof.
  destruct s as [|c r]; [reflexivity|]. cbn.
  destruct (isWhiteSpace c); [|auto].
  rewrite Bool.andb_false_r. discriminate.
Qed.

Lemma squeeze_tidy (s : jsstring) :
  forall b, tidy b (squeeze isWhiteSpace (js " ") b s) = true.
Proof.
  induction s as [|c r IH]; intros b; [reflexivity|].
  cbn [squeeze]. destruct (isWhiteSpace c) eqn:H.
  - destruct b; [apply IH|].
    change (js " ") with [SPACE]. cbn [app tidy].
    change (isWhiteSpace SPACE) with true. cbn. apply IH.
  - cbn [tidy]. rewrite H. apply IH.
Qed.

Lemma tidy_squeeze (s : jsstring) :
  forall b, tidy b s = true -> squeeze isWhiteSpace (js " ") b s = s.
Proof.
  induction s as [|c r IH]; intros b; [reflexivity|].
  cbn [squeeze tidy]. destruct (isWhiteSpace c) eqn:H.
  - intros Ht. apply andb_prop in Ht. destruct Ht as [Ht Hr].
    apply andb_prop in Ht. destruct Ht as [Hc Hb].
    apply N.eqb_eq in Hc. destruct b; [discriminate|].
    rewrite (IH true Hr). subst c. reflexivity.
  - intros Ht. rewrite (IH false Ht). reflexivity.
Qed.

Lemma tidy_trimStart (s : jsstring) :
  forall b, tidy b s = true -> tidy false (trimStart s) = true.
Proof.
  induction s as [|c r IH]; intros b; [reflexivity|].
  cbn [tidy trimStart]. destruct (isWhiteSpace c) eqn:H.
  - intros Ht. apply andb_prop in Ht. destruct Ht as [_ Hr]. apply (IH true Hr).
  - intros Ht. cbn [tidy]. rewrite H. exact Ht.
Qed.

Lemma tidy_trimEnd (s : jsstring) :
  forall b, tidy b s = true -> tidy b (trimEnd s) = true.
Proof.
  induction s as [|c r IH]; intros b; [reflexivity|].
  rewrite trimEnd_cons. cbn [tidy]. destruct (isWhiteSpace c) eqn:H.
  - intros Ht. apply andb_prop in Ht. destruct Ht as [Ht Hr].
    specialize (IH true Hr).
    destruct (trimEnd r) as [|d r'] eqn:E; [reflexivity|].
    cbn [tidy]. rewrite H, Ht. exact IH.
  - intros Ht. specialize (IH false Ht).
    destruct (trimEnd r) as [|d r'] eqn:E.
    + cbn. rewrite H. reflexivity.
    + cbn [tidy]. rewrite H. exact IH.
Qed.

Lemma tidy_trim (s : jsstring) : tidy false s = true -> tidy false (trim s) = true.
Proof. intros H. unfold trim. apply tidy_trimEnd, (tidy_trimStart s false H). Qed.

(** Collapsing and trimming a second time changes nothing. *)
Lemma trim_squeeze_idem (s : jsstring) :
  let w := trim (squeeze isWhiteSpace (js " ") false s) in
  trim (squeeze isWhiteSpace (js " ") false w) = w.
Proof.
  intros w. subst w.
  rewrite (tidy_squeeze _ false) by (apply tidy_trim, squeeze_tidy).
  apply trim_idem.
Qed.

End TextFacts.

(* ================================================================== *)
(** * The normalizer on the Latin repertoire *)
(* ================================================================== *)

Module NormFacts.
Import JS Regex Direct Scraper RegexFacts TextFacts.
Local Open Scope N_scope.

Lemma below_spec (n : nat) (p : char16 -> bool) :
  below n p = true -> forall c, c < N.of_nat n -> p c = true.
Proof.
  unfold below. intros H c Hc.
  rewrite forallb_forall in H. apply H.
  apply in_map_iff. exists (N.to_nat c). split; [apply N2Nat.id|].
  apply in_seq. lia.
Qed.

(** A check over Latin-1 and over the combining marks. *)
Lemma latin_units (p : char16 -> bool) :
  below 256 p = true ->
  below 112 (fun k => p (768 + k)) = true ->
  forall c, latin_unit c = true -> p c = true.
Proof.
  intros H1 H2 c Hc. unfold latin_unit in Hc.
  apply Bool.orb_true_iff in Hc. destruct Hc as [Hc|Hc].
  - apply N.leb_le in Hc. apply (below_spec 256 p H1). lia.
  - apply andb_prop in Hc. destruct Hc as [Ha Hb].
    apply N.leb_le in Ha. apply N.leb_le in Hb.
    replace c with (768 + (c - 768)) by lia.
    apply (below_spec 112 (fun k => p (768 + k)) H2). lia.
Qed.

(** The units a Latin unit decomposes into are plain or combining marks. *)
Lemma decompose1_latin (c : char16) :
  latin_unit c = true ->
  forallb (fun x => plain x || isCombiningMark x) (decompose1 c) = true.
Proof.
  revert c. apply latin_units; vm_compute; reflexivity.
Qed.

Lemma plain_facts (c : char16) :
  plain c = true ->
  decompose1 c = [c] /\ ccc c = 0 /\ isCombiningMark c = false /\
  plain (lower1 c) = true /\ latin_unit c = true.
Proof.
  intros H.
  assert (Hc : c <= 255).
  { unfold plain in H. apply andb_prop in H. destruct H as [H _].
    apply N.leb_le. exact H. }
  pose (chk := fun x =>
    implb (plain x)
      (streq (decompose1 x) [x] && (ccc x =? 0) && negb (isCombiningMark x)
       && plain (lower1 x) && latin_unit x)).
  assert (Hall : chk c = true).
  { apply (below_spec 256 chk); [vm_compute; reflexivity | lia]. }
  unfold chk in Hall. rewrite H in Hall. cbn [implb] in Hall.
  repeat (apply andb_prop in Hall; destruct Hall as [Hall ?]).
  unfold streq in Hall. destruct (list_eq_dec N.eq_dec (decompose1 c) [c]); [|discriminate].
  repeat split; auto.
  - apply N.eqb_eq. assumption.
  - apply Bool.negb_true_iff. assumption.
Qed.

Lemma lower1_idem (c : char16) : lower1 (lower1 c) = lower1 c.
Proof.
  unfold lower1.
  destruct ((65 <=? c) && (c <=? 90)) eqn:H1.
  - apply andb_prop in H1. destruct H1 as [Ha Hb].
    apply N.leb_le in Ha. apply N.leb_le in Hb.
    replace (65 <=? c + 32) with true by (symmetry; apply N.leb_le; lia).
    replace (c + 32 <=? 90) with false by (symmetry; apply N.leb_gt; lia).
    replace (192 <=? c + 32) with false by (symmetry; apply N.leb_gt; lia).
    reflexivity.
  - destruct ((192 <=? c) && (c <=? 222) && negb (c =? 215)) eqn:H2.
    + apply andb_prop in H2. destruct H2 as [H2 _].
      apply andb_prop in H2. destruct H2 as [Ha Hb].
      apply N.leb_le in Ha. apply N.leb_le in Hb.
      replace (c + 32 <=? 90) with false by (symmetry; apply N.leb_gt; lia).
      replace (c + 32 <=? 222) with false by (symmetry; apply N.leb_gt; lia).
      rewrite !Bool.andb_false_r. reflexivity.
    + rewrite H1, H2. reflexivity.
Qed.

(** ** Canonical ordering and the removal of marks *)

Lemma filter_insert_mark (c : char16) (acc : list char16) :
  notMark c = false ->
  filter notMark (insert_mark c acc) = filter notMark acc.
Proof.
  intros Hc. induction acc as [|x r IH]; cbn [insert_mark filter].
  - rewrite Hc. reflexivity.
  - destruct (ccc c <? ccc x).
    + cbn [filter]. rewrite IH. reflexivity.
    + cbn [filter]. rewrite Hc. reflexivity.
Qed.

(** When every unit of a nonzero class is a mark of the block, ordering
    does not change what is left once the marks are removed. *)
Lemma filter_reorder (t : jsstring) :
  Forall (fun c => ccc c <> 0 -> isCombiningMark c = true) t ->
  forall acc, filter notMark (fold_left reorder_step t acc)
              = rev (filter notMark t) ++ filter notMark acc.
Proof.
  induction 1 as [|c r Hc Hr IH]; intros acc; [reflexivity|].
  cbn [fold_left]. rewrite IH. unfold reorder_step.
  destruct (ccc c =? 0) eqn:E.
  - cbn [filter]. destruct (notMark c); cbn [rev]; [|reflexivity].
    rewrite <- app_assoc. reflexivity.
  - apply N.eqb_neq in E. specialize (Hc E).
    assert (Hn : notMark c = false) by (unfold notMark; rewrite Hc; reflexivity).
    rewrite filter_insert_mark by exact Hn.
    cbn [filter]. rewrite Hn. reflexivity.
Qed.

Lemma filter_rev (A : Type) (f : A -> bool) (l : list A) :
  filter f (rev l) = rev (filter f l).
Proof.
  induction l as [|a l IH]; [reflexivity|].
  cbn [rev filter]. rewrite filter_app, IH. cbn [filter].
  destruct (f a); cbn [rev]; [reflexivity|]. rewrite app_nil_r. reflexivity.
Qed.

Lemma strip_canonical_order (t : jsstring) :
  Forall (fun c => ccc c <> 0 -> isCombiningMark c = true) t ->
  filter notMark (canonical_order t) = filter notMark t.
Proof.
  intros H. unfold canonical_order.
  rewrite filter_rev, (filter_reorder H). cbn [filter].
  rewrite app_nil_r, rev_involutive. reflexivity.
Qed.

Lemma canonical_order_starters (t : jsstring) :
  Forall (fun c => ccc c = 0) t -> canonical_order t = t.
Proof.
  intros H. unfold canonical_order.
  assert (G : forall acc, fold_left reorder_step t acc = rev t ++ acc).
  { induction H as [|c r Hc Hr IH]; intros acc; [reflexivity|].
    cbn [fold_left rev]. rewrite IH. unfold reorder_step.
    rewrite Hc. cbn. rewrite <- app_assoc. reflexivity. }
  rewrite G, app_nil_r. apply rev_involutive.
Qed.


(** ** The two passes of the normalizer *)

Lemma normal_unit_facts (c : char16) :
  normal_unit c = true ->
  plain c = true /\ lower1 c = c /\ isCombiningMark c = false.
Proof.
  unfold normal_unit, lowercase. intros H.
  apply andb_prop in H. destruct H as [H Hm].
  apply andb_prop in H. destruct H as [Hp Hl].
  apply N.eqb_eq in Hl. apply Bool.negb_true_iff in Hm. auto.
Qed.

(** Removing the marks of the decomposition of a Latin string leaves plain
    units, whatever the canonical order did. *)
Lemma strip_NFD_latin (s : jsstring) :
  latin s = true ->
  let t := filter notMark (normalize_NFD s) in
  t = filter notMark (flat_map decompose1 s) /\ Forall (fun c => plain c = true) t.
Proof.
  intros Hs. cbv zeta. unfold normalize_NFD.
  assert (Hd : Forall (fun x => plain x || isCombiningMark x = true) (flat_map decompose1 s)).
  { unfold latin in Hs. rewrite forallb_forall in Hs.
    apply Forall_forall. intros x Hx. apply in_flat_map in Hx.
    destruct Hx as [c [Hc Hx]].
    pose proof (decompose1_latin c (Hs c Hc)) as Hf.
    rewrite forallb_forall in Hf. apply Hf, Hx. }
  rewrite strip_canonical_order.
  - split; [reflexivity|].
    apply Forall_forall. intros x Hx. apply filter_In in Hx. destruct Hx as [Hx Hn].
    rewrite Forall_forall in Hd. specialize (Hd x Hx).
    unfold notMark in Hn. apply Bool.negb_true_iff in Hn. rewrite Hn in Hd.
    rewrite Bool.orb_false_r in Hd. exact Hd.
  - eapply Forall_impl; [|exact Hd]. intros x Hx Hc. cbv beta in Hx.
    apply Bool.orb_true_iff in Hx. destruct Hx as [Hx|Hx]; [|exact Hx].
    apply plain_facts in Hx. destruct Hx as [_ [Hx _]]. contradiction.
Qed.

Lemma norm_latin_normal (s : option jsstring) :
  latin (or_empty s) = true ->
  Forall (fun c => normal_unit c = true) (norm s)
  /\ tidy false (norm s) = true /\ trimmed (norm s).
Proof.
  intros Hs. rewrite norm_direct.
  destruct (strip_NFD_latin (or_empty s) Hs) as [_ Hp].
  fold notMark. set (t := filter notMark (normalize_NFD (or_empty s))) in *.
  split; [|split].
  - apply Forall_trim, Forall_squeeze.
    + repeat constructor.
    + unfold toLowerCase. apply Forall_forall. intros x Hx.
      apply in_map_iff in Hx. destruct Hx as [c [Hc Hx]]. subst x.
      rewrite Forall_forall in Hp. specialize (Hp c Hx).
      destruct (plain_facts c Hp) as [_ [_ [_ [Hl _]]]].
      destruct (plain_facts _ Hl) as [_ [_ [Hm _]]].
      unfold normal_unit, lowercase. rewrite Hl, lower1_idem, N.eqb_refl, Hm.
      reflexivity.
  - apply tidy_trim, squeeze_tidy.
  - apply trim_trimmed.
Qed.

Lemma norm_fixpoint (w : jsstring) :
  Forall (fun c => normal_unit c = true) w -> tidy false w = true -> trimmed w ->
  norm (Some w) = w.
Proof.
  intros Hw Ht Htr. rewrite norm_direct. cbn [or_empty].
  assert (Hd : flat_map decompose1 w = w).
  { clear Ht Htr. induction Hw as [|c r Hc Hr IH]; [reflexivity|].
    cbn [flat_map]. rewrite IH.
    apply normal_unit_facts in Hc. destruct Hc as [Hc _].
    apply plain_facts in Hc. destruct Hc as [Hc _]. rewrite Hc. reflexivity. }
  unfold normalize_NFD. rewrite Hd, canonical_order_starters.
  - assert (Hf : filter (fun c => negb (isCombiningMark c)) w = w).
    { clear Ht Htr Hd. induction Hw as [|c r Hc Hr IH]; [reflexivity|].
      cbn [filter]. apply normal_unit_facts in Hc. destruct Hc as [_ [_ Hc]].
      rewrite Hc, IH. reflexivity. }
    assert (Hl : toLowerCase w = w).
    { clear Ht Htr Hd Hf. unfold toLowerCase.
      induction Hw as [|c r Hc Hr IH]; [reflexivity|].
      cbn [map]. apply normal_unit_facts in Hc. destruct Hc as [_ [Hc _]].
      rewrite Hc, IH. reflexivity. }
    rewrite Hf, Hl, (tidy_squeeze w false Ht). apply trimmed_trim, Htr.
  - eapply Forall_impl; [|exact Hw]. intros c Hc.
    apply normal_unit_facts in Hc. destruct Hc as [Hc _].
    apply plain_facts in Hc. tauto.
Qed.

End NormFacts.

(* ================================================================== *)
(** * Sanitized cells and rows *)
(* ================================================================== *)

Module RowFacts.
Import JS Regex Direct Scraper RegexFacts TextFacts.
Local Open Scope N_scope.

Lemma streq_true (a b : jsstring) : streq a b = true <-> a = b.
Proof.
  unfold streq. destruct (list_eq_dec N.eq_dec a b); split; auto; discriminate.
Qed.

Lemma streq_refl (a : jsstring) : streq a a = true.
Proof. apply streq_true. reflexivity. Qed.

Lemma streq_false (a b : jsstring) : a <> b -> streq a b = false.
Proof.
  intros H. unfold streq. destruct (list_eq_dec N.eq_dec a b); [contradiction|reflexivity].
Qed.

(** ** The three steps of [sanitize] *)

Lemma newlines_noNewline (s : jsstring) : Forall noNewline (newlines (js " ") s).
Proof.
  assert (Hsp : noNewline SPACE) by (split; discriminate).
  assert (G : forall n (s : jsstring), (List.length s < n)%nat ->
              Forall noNewline (newlines (js " ") s)).
  { induction n as [|n IH]; intros t Hn; [lia|].
    destruct t as [|c r]; [constructor|].
    cbn [newlines]. destruct (c =? CR) eqn:Hc.
    - destruct r as [|d r'].
      + repeat constructor; discriminate.
      + destruct (d =? LF); (constructor; [exact Hsp|]); apply IH; cbn in Hn |- *; lia.
    - destruct (c =? LF) eqn:Hl.
      + constructor; [exact Hsp|]. apply IH. cbn in Hn; lia.
      + constructor.
        * apply N.eqb_neq in Hc. apply N.eqb_neq in Hl. split; assumption.
        * apply IH. cbn in Hn; lia. }
  apply (G (S (List.length s))). lia.
Qed.

Lemma Forall_squeeze2 (P : char16 -> Prop) (p : char16 -> bool) (by_ s : jsstring) :
  Forall P by_ -> Forall P s -> forall b, Forall P (squeeze2 p by_ b s).
Proof.
  intros Hb. induction 1 as [|c r Hc Hr IH]; intros b; [constructor|].
  cbn [squeeze2]. destruct (p c).
  - destruct b; [apply IH|]. destruct r as [|d r'].
    + repeat constructor. exact Hc.
    + destruct (p d).
      * apply Forall_app. split; [assumption|apply IH].
      * constructor; [assumption|apply IH].
  - constructor; [assumption|apply IH].
Qed.

Lemma squeeze2_spaced (s : jsstring) :
  forall b, spaced b (squeeze2 isWhiteSpace (js " ") b s) = true.
Proof.
  induction s as [|c r IH]; intros b; [reflexivity|].
  cbn [squeeze2]. destruct (isWhiteSpace c) eqn:H.
  - destruct b; [apply IH|]. destruct r as [|d r'].
    + cbn. rewrite H. reflexivity.
    + destruct (isWhiteSpace d) eqn:Hd.
      * change (js " ") with [SPACE]. cbn [app spaced].
        change (isWhiteSpace SPACE) with true. cbn [negb andb]. apply IH.
      * cbn [spaced]. rewrite H. cbn [negb andb].
        specialize (IH false). cbn [squeeze2] in IH |- *. rewrite Hd in IH |- *.
        cbn [spaced] in IH |- *. rewrite Hd in IH |- *. exact IH.
  - cbn [spaced]. rewrite H. apply IH.
Qed.

Lemma spaced_trimStart (s : jsstring) :
  forall b, spaced b s = true -> spaced false (trimStart s) = true.
Proof.
  induction s as [|c r IH]; intros b; [reflexivity|].
  cbn [spaced trimStart]. destruct (isWhiteSpace c) eqn:H.
  - intros Ht. apply andb_prop in Ht. destruct Ht as [_ Hr]. apply (IH true Hr).
  - intros Ht. cbn [spaced]. rewrite H. exact Ht.
Qed.

Lemma spaced_trimEnd (s : jsstring) :
  forall b, spaced b s = true -> spaced b (trimEnd s) = true.
Proof.
  induction s as [|c r IH]; intros b; [reflexivity|].
  rewrite trimEnd_cons. cbn [spaced]. destruct (isWhiteSpace c) eqn:H.
  - intros Ht. apply andb_prop in Ht. destruct Ht as [Ht Hr].
    specialize (IH true Hr).
    destruct (trimEnd r) as [|d r'] eqn:E; [reflexivity|].
    cbn [spaced]. rewrite H, Ht. exact IH.
  - intros Ht. specialize (IH false Ht).
    destruct (trimEnd r) as [|d r'] eqn:E.
    + cbn. rewrite H. reflexivity.
    + cbn [spaced]. rewrite H. exact IH.
Qed.

Lemma sanitize_clean (v : jsvalue) :
  Forall noNewline (sanitize v)
  /\ spaced false (sanitize v) = true
  /\ trimmed (sanitize v).
Proof.
  destruct v as [| |s]; try (cbn; repeat split; constructor).
  rewrite sanitize_direct. split; [|split].
  - apply Forall_trim, Forall_squeeze2.
    + repeat constructor; discriminate.
    + apply newlines_noNewline.
  - unfold trim. apply spaced_trimEnd.
    apply (spaced_trimStart _ false). apply squeeze2_spaced.
  - apply trim_trimmed.
Qed.

(** ** Building a row *)

Lemma set_fresh (o : jsobject) (k : jsstring) (v : jsvalue) :
  ~ In k (map fst o) -> set o k v = o ++ [(k, v)].
Proof.
  induction o as [|[k' v'] r IH]; intros H; [reflexivity|].
  cbn [set]. rewrite streq_false.
  - cbn [app]. rewrite IH; [reflexivity|]. intros Hin. apply H. right. exact Hin.
  - intros E. apply H. left. symmetry. exact E.
Qed.

Lemma fold_set (f : jsstring -> jsvalue) (ks : list jsstring) :
  NoDup ks -> forall acc : jsobject,
  (forall k, In k ks -> ~ In k (map fst acc)) ->
  fold_left (fun row k => set row k (f k)) ks acc = acc ++ map (fun k => (k, f k)) ks.
Proof.
  induction 1 as [|k r Hk Hr IH]; intros acc Hacc.
  - cbn. rewrite app_nil_r. reflexivity.
  - cbn [fold_left map]. rewrite set_fresh by (apply Hacc; left; reflexivity).
    rewrite IH.
    + rewrite <- app_assoc. reflexivity.
    + intros k' Hk' Hin. rewrite map_app, in_app_iff in Hin. destruct Hin as [Hin|Hin].
      * apply (Hacc k'); [right; exact Hk'|exact Hin].
      * cbn in Hin. destruct Hin as [E|[]]. subst k'. contradiction.
Qed.

Lemma campos_NoDup : NoDup campos.
Proof.
  assert (H : nodup (list_eq_dec N.eq_dec) campos = campos) by (vm_compute; reflexivity).
  rewrite <- H. apply NoDup_nodup.
Qed.

Lemma row_of_eq (det : jsobject) :
  row_of det = map (fun campo => (campo, Str (sanitize (get det campo)))) campos.
Proof.
  unfold row_of.
  rewrite (fold_set (fun campo => Str (sanitize (get det campo))) campos_NoDup []).
  - reflexivity.
  - intros k _ H. exact H.
Qed.

Lemma get_map (f : jsstring -> jsvalue) (ks : list jsstring) (k : jsstring) :
  In k ks -> get (map (fun k => (k, f k)) ks) k = f k.
Proof.
  induction ks as [|k' r IH]; intros H; [destruct H|].
  cbn [map get]. destruct (streq k k') eqn:E.
  - apply streq_true in E. subst k'. reflexivity.
  - destruct H as [H|H]; [subst k'; rewrite streq_refl in E; discriminate|].
    apply IH, H.
Qed.

End RowFacts.


(* ================================================================== *)
(** * Labelled attributes *)
(* ================================================================== *)

Module LabelFacts.
Import JS Regex Direct Scraper.
Local Open Scope N_scope.

Lemma startsWith_includes (s p : jsstring) :
  startsWith s p || includes s p = includes s p.
Proof.
  destruct s as [|c r]; cbn [includes]; destruct (startsWith _ p); reflexivity.
Qed.

Lemma find_ext (A : Type) (f g : A -> bool) (l : list A) :
  (forall a, f a = g a) -> find f l = find g l.
Proof.
  intros H. induction l as [|a l IH]; [reflexivity|].
  cbn. rewrite H, IH. reflexivity.
Qed.

(** The second element of [row.split(":")]: the text between the first two
    colons, when the line has a colon. *)
Lemma split_colon (row : jsstring) :
  split 58 row = before_colon row ::
    (if existsb (N.eqb 58) row then split 58 (after_colon row) else []).
Proof.
  induction row as [|c r IH]; [reflexivity|].
  cbn [split before_colon after_colon existsb].
  rewrite (N.eqb_sym 58 c). destruct (c =? 58) eqn:E.
  - reflexivity.
  - rewrite IH. cbn [orb]. reflexivity.
Qed.

Lemma split_head (t : jsstring) :
  exists rest, split 58 t = before_colon t :: rest.
Proof. rewrite split_colon. eexists. reflexivity. Qed.

Lemma after_colon_nil (row : jsstring) :
  existsb (N.eqb 58) row = false -> after_colon row = [].
Proof.
  induction row as [|c r IH]; [reflexivity|].
  cbn [existsb after_colon]. rewrite (N.eqb_sym 58 c).
  destruct (c =? 58); [discriminate|]. exact IH.
Qed.

Lemma second_part (row : jsstring) :
  match nth_error (split 58 row) 1 with
  | Some part => if truthy part then trim part else []
  | None => []
  end = trim (before_colon (after_colon row)).
Proof.
  rewrite split_colon. cbn [nth_error].
  destruct (existsb (N.eqb 58) row) eqn:E.
  - destruct (split_head (after_colon row)) as [rest Hr]. rewrite Hr.
    cbn [nth_error]. destruct (before_colon (after_colon row)); reflexivity.
  - rewrite (after_colon_nil row E). reflexivity.
Qed.

Lemma before_colon_id (t : jsstring) :
  existsb (N.eqb 58) t = false -> before_colon t = t.
Proof.
  induction t as [|c r IH]; [reflexivity|].
  cbn [existsb before_colon]. rewrite (N.eqb_sym 58 c).
  destruct (c =? 58); [discriminate|]. intros H. rewrite (IH H). reflexivity.
Qed.

End LabelFacts.


(* ================================================================== *)
(** * The set of collected URLs *)
(* ================================================================== *)

Module CollectFacts.
Import JS Regex Direct Scraper RowFacts.

Lemma existsb_streq (u : jsstring) (set : list jsstring) :
  existsb (streq u) set = true <-> In u set.
Proof.
  rewrite existsb_exists. split.
  - intros [x [Hx E]]. apply streq_true in E. subst x. exact Hx.
  - intros H. exists u. split; [exact H|apply streq_refl].
Qed.

Lemma Set_add_In (set : list jsstring) (u v : jsstring) :
  In v (Set_add set u) <-> In v set \/ v = u.
Proof.
  unfold Set_add. destruct (existsb (streq u) set) eqn:E.
  - apply existsb_streq in E. split; [auto|]. intros [H|H]; [exact H|subst v; exact E].
  - rewrite in_app_iff. cbn. split; intros [H|H]; auto.
    + destruct H as [H|[]]. auto.
Qed.

Lemma Set_add_NoDup (set : list jsstring) (u : jsstring) :
  NoDup set -> NoDup (Set_add set u).
Proof.
  intros H. unfold Set_add. destruct (existsb (streq u) set) eqn:E; [exact H|].
  apply NoDup_app; [exact H|repeat constructor; intros []|].
  intros x Hx [Hu|[]]. subst x.
  apply existsb_streq in Hx. rewrite Hx in E. discriminate.
Qed.

Lemma fold_Set_add (l : list jsstring) :
  forall set, NoDup set ->
    NoDup (fold_left Set_add l set)
    /\ forall v, In v (fold_left Set_add l set) <-> In v set \/ In v l.
Proof.
  induction l as [|u l IH]; intros set Hs.
  - cbn. split; [exact Hs|]. intros v. tauto.
  - cbn [fold_left]. destruct (IH _ (Set_add_NoDup u Hs)) as [Hn Hi].
    split; [exact Hn|]. intros v. rewrite Hi, Set_add_In. cbn. intuition auto.
Qed.

(** The loop adds the URLs of the pages in turn. *)
Lemma coletar_paginas_fold (lista : nat -> list Item) (n : nat) :
  forall p set,
    coletar_paginas lista p n set =
    fold_left Set_add (flat_map (fun q => urls_of_items (lista q)) (List.seq p n)) set.
Proof.
  induction n as [|n IH]; intros p set; [reflexivity|].
  cbn [coletar_paginas List.seq flat_map]. rewrite IH, fold_left_app. reflexivity.
Qed.

Lemma urls_of_ids (total : nat) (lista : nat -> list Item) :
  flat_map (fun q => urls_of_items (lista q)) (List.seq 1 total)
  = map urlDet (ids_lidos total lista).
Proof.
  unfold ids_lidos. generalize (List.seq 1 total) as ps.
  induction ps as [|p ps IH]; [reflexivity|].
  cbn [flat_map]. rewrite map_app, IH. f_equal.
  unfold urls_of_items. generalize (lista p) as items.
  induction items as [|it items IHi]; [reflexivity|].
  cbn [flat_map]. rewrite map_app, IHi. destruct (idImovel it); reflexivity.
Qed.

Lemma urlDet_inj (a b : jsstring) : urlDet a = urlDet b -> a = b.
Proof. unfold urlDet. apply app_inv_head. Qed.

End CollectFacts.


(* ================================================================== *)
(** * Numbers: rounding never yields NaN, and the order of numbers *)
(* ================================================================== *)

Module NumFacts.
Import JS Num Direct.
Local Open Scope Z_scope.

Lemma iter_pos_inv (A : Type) (P : A -> Prop) (f : A -> A) :
  (forall x, P x -> P (f x)) -> forall n x, P x -> P (iter_pos f n x).
Proof.
  intros Hf. induction n as [n IH|n IH|]; intros x Hx; cbn; auto.
Qed.

Lemma shr_1_nonneg (mrs : shr_record) : 0 <= shr_m mrs -> 0 <= shr_m (shr_1 mrs).
Proof.
  destruct mrs as [m r s]. cbn. destruct m as [|p|p]; [cbn; lia| |lia].
  intros _. destruct p; cbn; lia.
Qed.

Lemma shr_nonneg (mrs : shr_record) (e n : Z) :
  0 <= shr_m mrs -> 0 <= shr_m (fst (shr mrs e n)).
Proof.
  intros H. unfold shr. destruct n; cbn [fst]; try exact H.
  apply iter_pos_inv; [apply shr_1_nonneg|exact H].
Qed.

Lemma shr_fexp_nonneg (m e : Z) (l : location) :
  0 <= m -> 0 <= shr_m (fst (shr_fexp prec emax m e l)).
Proof.
  intros H. unfold shr_fexp. apply shr_nonneg.
  destruct l as [|[| |]]; exact H.
Qed.

Lemma round_nearest_even_nonneg (m : Z) (l : location) :
  0 <= m -> 0 <= round_nearest_even m l.
Proof.
  intros H. unfold round_nearest_even.
  destruct l as [|[| |]]; try lia. destruct (Z.even m); lia.
Qed.

Lemma binary_round_aux_not_nan (sx : bool) (mx ex : Z) (lx : location) :
  0 <= mx -> isNaN (binary_round_aux prec emax sx mx ex lx) = false.
Proof.
  intros H. unfold binary_round_aux.
  pose proof (shr_fexp_nonneg ex lx H) as H1.
  destruct (shr_fexp prec emax mx ex lx) as [mrs' e']. cbn [fst] in H1.
  pose proof (shr_fexp_nonneg e' loc_Exact
                (round_nearest_even_nonneg (loc_of_shr_record mrs') H1)) as H2.
  destruct (shr_fexp prec emax _ e' loc_Exact) as [mrs'' e'']. cbn [fst] in H2.
  destruct (shr_m mrs'') as [|p|p]; [reflexivity| |lia].
  destruct (e'' <=? emax - prec); reflexivity.
Qed.

Lemma binary_round_not_nan (sx : bool) (mx : positive) (ex : Z) :
  isNaN (binary_round prec emax sx mx ex) = false.
Proof.
  unfold binary_round.
  destruct (shl_align mx ex _) as [mz ez].
  apply binary_round_aux_not_nan. lia.
Qed.

Lemma of_decimal_not_nan (neg : bool) (d : N) (e : Z) : isNaN (of_decimal neg d e) = false.
Proof.
  unfold of_decimal. destruct d as [|p]; [reflexivity|].
  destruct (0 <=? e); [apply binary_round_not_nan|].
  cbn [SFdiv]. unfold SFdiv_core_binary.
  set (m' := match _ with Zpos _ => _ | _ => _ end).
  assert (Hm : 0 <= m').
  { subst m'. destruct (0 - 0 - _); try lia.
    rewrite Z.shiftl_mul_pow2 by lia. apply Z.mul_nonneg_nonneg; [lia|].
    apply Z.pow_nonneg. lia. }
  assert (Hd0 : Z.pos (Z.to_pos (10 ^ (- e))) <> 0) by lia.
  assert (Hd1 : 0 < Z.pos (Z.to_pos (10 ^ (- e)))) by lia.
  pose proof (Z.div_eucl_eq m' _ Hd0) as Hq.
  pose proof (Z.mod_pos_bound m' _ Hd1) as Hr.
  unfold Z.modulo in Hr.
  destruct (Z.div_eucl m' _) as [q r].
  apply binary_round_aux_not_nan.
  assert (0 <= q \/ q < 0) as [Hq0|Hq0] by lia; [exact Hq0|]. nia.
Qed.


(** ** The order of numbers *)

Lemma ltb_rank (x y : number) :
  isNaN x = false -> isNaN y = false ->
  (ltb x y = true <-> rank_lt (rank x) (rank y)).
Proof.
  intros Hx Hy. unfold ltb, SFltb.
  destruct x as [sx|sx| |sx mx ex], y as [sy|sy| |sy my ey]; try discriminate;
    cbn [SFcompare rank rank_lt];
    try (destruct sx); try (destruct sy); cbn [rank_lt];
    try (split; [discriminate|lia]); try (split; [lia|reflexivity]);
    try (split; [reflexivity|lia]);
    change (Pos.compare_cont Eq mx my) with (Pos.compare mx my);
    destruct (Z.compare_spec ex ey); destruct (Pos.compare_spec mx my);
    cbn [CompOpp]; split; try discriminate; try reflexivity; try lia.
Qed.

Lemma leb_rank (x y : number) :
  isNaN x = false -> isNaN y = false ->
  (leb x y = true <-> rank_le (rank x) (rank y)).
Proof.
  intros Hx Hy. unfold leb, SFleb.
  destruct x as [sx|sx| |sx mx ex], y as [sy|sy| |sy my ey]; try discriminate;
    cbn [SFcompare rank rank_le];
    try (destruct sx); try (destruct sy); cbn [rank_le];
    try (split; [discriminate|lia]); try (split; [lia|reflexivity]);
    try (split; [reflexivity|lia]);
    change (Pos.compare_cont Eq mx my) with (Pos.compare mx my);
    destruct (Z.compare_spec ex ey); destruct (Pos.compare_spec mx my);
    cbn [CompOpp]; split; try discriminate; try reflexivity; try lia.
Qed.

Lemma leb_refl (x : number) : isNaN x = false -> leb x x = true.
Proof.
  intros H. apply leb_rank; [exact H|exact H|].
  unfold rank_le. destruct (rank x) as [[a b] c]. lia.
Qed.

Lemma leb_trans (x y z : number) :
  isNaN x = false -> isNaN y = false -> isNaN z = false ->
  leb x y = true -> leb y z = true -> leb x z = true.
Proof.
  intros Hx Hy Hz H1 H2.
  apply leb_rank in H1; [|assumption|assumption].
  apply leb_rank in H2; [|assumption|assumption].
  apply leb_rank; [assumption|assumption|].
  unfold rank_le in *.
  destruct (rank x) as [[a1 a2] a3], (rank y) as [[b1 b2] b3], (rank z) as [[c1 c2] c3].
  lia.
Qed.

Lemma ltb_leb (x y : number) :
  isNaN x = false -> isNaN y = false -> ltb x y = true -> leb x y = true.
Proof.
  intros Hx Hy H. apply ltb_rank in H; [|assumption|assumption].
  apply leb_rank; [assumption|assumption|].
  unfold rank_le, rank_lt in *.
  destruct (rank x) as [[a1 a2] a3], (rank y) as [[b1 b2] b3]. lia.
Qed.

Lemma not_ltb_leb (x y : number) :
  isNaN x = false -> isNaN y = false -> ltb x y = false -> leb y x = true.
Proof.
  intros Hx Hy H. apply leb_rank; [assumption|assumption|].
  assert (Hn : ~ rank_lt (rank x) (rank y)).
  { intros Hr. apply ltb_rank in Hr; [|assumption|assumption]. congruence. }
  unfold rank_le, rank_lt in *.
  destruct (rank x) as [[a1 a2] a3], (rank y) as [[b1 b2] b3]. lia.
Qed.


(** ** Math.min *)

Lemma min_from_cons (lowest x : number) (r : list number) :
  isNaN x = false ->
  (leb x lowest = true /\ min_from lowest (x :: r) = min_from x r)
  \/ (ltb x lowest = false /\ min_from lowest (x :: r) = min_from lowest r).
Proof.
  intros Hx. cbn [min_from]. rewrite Hx.
  destruct x as [[|]|[|]| |[|] mx ex], lowest as [[|]|[|]| |[|] ml el];
    try discriminate;
    try (left; split; reflexivity);
    try (right; split; reflexivity);
    (destruct (ltb _ _) eqn:E;
     [left; split; [apply ltb_leb; [reflexivity|reflexivity|exact E]|reflexivity]
     |right; split; reflexivity]).
Qed.

Lemma min_from_spec (l : list number) :
  Forall notNaN l -> forall lowest, notNaN lowest ->
  let m := min_from lowest l in
  notNaN m /\ (m = lowest \/ In m l) /\ leb m lowest = true
  /\ forall c, In c l -> leb m c = true.
Proof.
  induction 1 as [|x r Hx Hr IH]; intros lowest Hl; cbv zeta.
  - cbn. repeat split; auto using leb_refl.
  - destruct (min_from_cons lowest x r Hx) as [[E1 E2]|[E1 E2]]; rewrite E2.
    + destruct (IH x Hx) as (Hm & Hin & Hle & Hall).
      split; [exact Hm|]. split; [|split].
      * destruct Hin as [->|Hin]; [right; left; reflexivity|right; right; exact Hin].
      * apply (leb_trans _ _ _ Hm Hx Hl Hle E1).
      * intros c [<-|Hc]; [exact Hle|apply Hall, Hc].
    + destruct (IH lowest Hl) as (Hm & Hin & Hle & Hall).
      split; [exact Hm|]. split; [|split].
      * destruct Hin as [->|Hin]; [left; reflexivity|right; right; exact Hin].
      * exact Hle.
      * intros c [<-|Hc]; [|apply Hall, Hc].
        apply (leb_trans _ _ _ Hm Hl Hx Hle). apply not_ltb_leb; assumption.
Qed.

(** The minimum of a non-empty list of numbers is one of them and is below
    or equal to each. *)
Lemma Math_min_spec (l : list number) :
  l <> [] -> Forall notNaN l ->
  notNaN (Math_min l) /\ In (Math_min l) l /\ forall c, In c l -> leb (Math_min l) c = true.
Proof.
  intros Hne Hl. unfold Math_min.
  destruct (@min_from_spec l Hl Infinity eq_refl) as (Hm & Hin & _ & Hall).
  split; [exact Hm|]. split; [|exact Hall].
  destruct Hin as [E|Hin]; [|exact Hin].
  destruct l as [|x r]; [contradiction|].
  specialize (Hall x (or_introl eq_refl)). rewrite E in Hall.
  left. rewrite E.
  destruct x as [[|]|[|]| |[|] mx ex]; try discriminate Hall. reflexivity.
Qed.

(** ** toFixed *)

Lemma uint_units_digits (u : Decimal.uint) : forallb isDigit (uint_units u) = true.
Proof. induction u; cbn [uint_units forallb]; rewrite ?IHu; reflexivity. Qed.

Lemma forallb_repeat (A : Type) (p : A -> bool) (a : A) (n : nat) :
  p a = true -> forallb p (repeat a n) = true.
Proof. intros H. induction n; cbn; rewrite ?H, ?IHn; reflexivity. Qed.

(** Two decimals: digits, a point, two digits. *)
Lemma fixed_digits_2 (n : N) :
  exists ip d1 d2,
    fixed_digits 2 n = ip ++ [46%N; d1; d2]
    /\ ip <> [] /\ forallb isDigit (ip ++ [d1; d2]) = true.
Proof.
  unfold fixed_digits.
  set (ds := repeat 48%N (3 - List.length (decimal_digits n)) ++ decimal_digits n).
  assert (Hlen : (3 <= List.length ds)%nat).
  { subst ds. rewrite length_app, repeat_length.
    change (@List.length char16) with (@List.length N). lia. }
  assert (Hdig : forallb isDigit ds = true).
  { subst ds. rewrite forallb_app, forallb_repeat by reflexivity.
    apply uint_units_digits. }
  remember (List.length ds) as len eqn:Elen.
  set (k := (len - 2)%nat).
  assert (Hs : List.length (skipn k ds) = 2%nat).
  { rewrite length_skipn. subst k. rewrite <- Elen. lia. }
  destruct (skipn k ds) as [|d1 [|d2 [|]]] eqn:E; try discriminate.
  exists (firstn k ds), d1, d2. split; [reflexivity|]. split.
  - intros H. apply (f_equal (@List.length N)) in H.
    rewrite length_firstn in H. cbn [List.length] in H. subst k.
    rewrite <- Elen in H. lia.
  - rewrite <- E, firstn_skipn. exact Hdig.
Qed.

Lemma replace_first_point (ip rest : jsstring) :
  forallb isDigit ip = true ->
  replace_first (js ".") (js ",") (ip ++ 46%N :: rest) = ip ++ 44%N :: rest.
Proof.
  change (js ".") with [46%N]. change (js ",") with [44%N].
  induction ip as [|d r IH]; intros H.
  - cbn. destruct rest; reflexivity.
  - cbn [forallb] in H. apply andb_prop in H. destruct H as [Hd Hr].
    cbn [app]. unfold replace_first; fold replace_first.
    cbn [startsWith].
    destruct (N.eqb_spec 46 d) as [<-|Hne]; [discriminate Hd|].
    cbn [andb]. rewrite IH by exact Hr. reflexivity.
Qed.

(** A finite number that is not negative and below 1e21 is written with
    digits, a comma and two digits. *)
Lemma toFixed2_comma_shape (x : number) :
  isFinite x = true -> ltb x zero = false -> leb (of_Z (10 ^ 21)) (SFabs x) = false ->
  exists ip d1 d2,
    Scraper.toFixed2_comma x = ip ++ [44%N; d1; d2]
    /\ ip <> [] /\ forallb isDigit (ip ++ [d1; d2]) = true.
Proof.
  intros Hf Hn Hb. unfold Scraper.toFixed2_comma, toFixed.
  assert (G : forall n, exists ip d1 d2,
             replace_first (js ".") (js ",") (fixed_digits 2 n) = ip ++ [44%N; d1; d2]
             /\ ip <> [] /\ forallb isDigit (ip ++ [d1; d2]) = true).
  { intros n. destruct (fixed_digits_2 n) as (ip & d1 & d2 & E & Hne & Hd).
    exists ip, d1, d2. rewrite E. split; [|auto].
    apply replace_first_point. rewrite forallb_app in Hd.
    apply andb_prop in Hd. tauto. }
  destruct x as [s|s| |s m e]; [apply G|discriminate Hf|discriminate Hf|].
  rewrite Hn, Hb. cbn [SFabs app]. apply G.
Qed.

End NumFacts.

(* ================================================================== *)
(** * Currency parsing *)
(* ================================================================== *)

Module ParseFacts.
Import JS Regex Num Direct Scraper RegexFacts NumFacts.
Local Open Scope N_scope.

Lemma parseBRL_direct (s : option jsstring) :
  parseBRL s =
  if isNaN (parseFloat (brl_text s)) then None else Some (parseFloat (brl_text s)).
Proof.
  unfold parseBRL, brl_text, chr. rewrite !replace_all_class. reflexivity.
Qed.

Lemma startsWith_nil (x : jsstring) : startsWith x [] = true.
Proof. destruct x; reflexivity. Qed.

(** The units of the text handed to [parseFloat]. *)
Lemma moneyChar_cases (c : char16) :
  moneyChar c = true ->
  isWhiteSpace c = false /\ c <> 43 /\ c <> 73
  /\ (isDigit c = true \/ c = 44 \/ c = 45 \/ c = 46).
Proof.
  unfold moneyChar. intros H.
  repeat rewrite Bool.orb_true_iff in H.
  destruct H as [[[H|H]|H]|H].
  - assert (Hd := H). unfold isDigit in H. apply andb_prop in H. destruct H as [Ha Hb].
    apply N.leb_le in Ha. apply N.leb_le in Hb.
    assert (Hw : isWhiteSpace c = false).
    { unfold isWhiteSpace.
      repeat match goal with
             | |- context [?a <=? ?b] => destruct (N.leb_spec a b); try lia
             | |- context [?a =? ?b] => destruct (N.eqb_spec a b); try lia
             end; reflexivity. }
    repeat split; try lia; try exact Hw. left. exact Hd.
  - apply N.eqb_eq in H; subst c; repeat split; try discriminate; auto.
  - apply N.eqb_eq in H; subst c; repeat split; try discriminate; auto.
  - apply N.eqb_eq in H; subst c; repeat split; try discriminate; auto.
Qed.

Lemma brl_text_moneyChar (s : option jsstring) :
  Forall (fun c => moneyChar c = true) (brl_text s).
Proof.
  unfold brl_text.
  set (t := filter _ (filter _ _)).
  assert (Ht : Forall (fun c => moneyChar c = true) t).
  { subst t. apply Forall_forall. intros c Hc.
    apply filter_In in Hc. destruct Hc as [Hc _].
    apply filter_In in Hc. destruct Hc as [_ Hc].
    unfold notMoneySign in Hc. rewrite Bool.negb_involutive in Hc.
    unfold moneyChar. apply Bool.orb_true_iff in Hc. destruct Hc as [Hc|Hc].
    - rewrite Hc. reflexivity.
    - unfold member in Hc. cbn in Hc. repeat rewrite Bool.orb_true_iff in Hc.
      destruct Hc as [Hc|[Hc|[Hc|Hc]]]; try discriminate;
        apply N.eqb_eq in Hc; subst c; reflexivity. }
  clearbody t. change (js ",") with [44]. change (js ".") with [46].
  induction Ht as [|c r Hc Hr IH]; [constructor|].
  unfold replace_first; fold replace_first. cbn [startsWith].
  destruct (44 =? c) eqn:E.
  - rewrite startsWith_nil. cbn [andb List.length skipn app].
    constructor; [reflexivity|exact Hr].
  - cbn [andb]. constructor; assumption.
Qed.

Lemma span_cons (p : char16 -> bool) (c : char16) (r : jsstring) :
  span p (c :: r) = if p c then (c :: fst (span p r), snd (span p r)) else ([], c :: r).
Proof. cbn [span]. destruct (p c); [|reflexivity]. destruct (span p r); reflexivity. Qed.

(** What follows the sign is a number exactly when it starts with a digit
    or with a point and a digit. *)
Lemma parse_digits_nan (neg : bool) (s1 : jsstring) :
  Forall (fun c => moneyChar c = true) s1 ->
  isNaN
    (if startsWith s1 (js "Infinity") then S754_infinity neg
     else
       let (ip, s2) := span isDigit s1 in
       let (fp, s3) :=
         match s2 with
         | c :: r => if c =? 46 then span isDigit r else ([], s2)
         | [] => ([], s2)
         end in
       match ip ++ fp with
       | [] => NaN
       | ds => of_decimal neg (digits_value ds)
                 (read_exponent s3 - Z.of_nat (List.length fp))
       end) = negb (starts_digits s1).
Proof.
  intros Hs. destruct s1 as [|d r]; [reflexivity|].
  inversion Hs as [|? ? Hd Hr]; subst.
  destruct (moneyChar_cases d Hd) as (_ & _ & H73 & _).
  assert (Hinf : startsWith (d :: r) (js "Infinity") = false).
  { change (js "Infinity") with [73; 110; 102; 105; 110; 105; 116; 121].
    cbn [startsWith]. destruct (N.eqb_spec 73 d); [congruence|reflexivity]. }
  rewrite Hinf, span_cons. cbn [starts_digits].
  destruct (isDigit d) eqn:Ed.
  - cbn [orb negb].
    destruct (match snd (span isDigit r) with
              | c :: r0 => if c =? 46 then span isDigit r0 else ([], snd (span isDigit r))
              | [] => ([], snd (span isDigit r))
              end) as [fp s3].
    cbn [app]. apply of_decimal_not_nan.
  - cbn [orb]. destruct (d =? 46) eqn:E46; cbn [andb].
    + destruct r as [|d2 r2]; [reflexivity|].
      rewrite span_cons. destruct (isDigit d2) eqn:E2; [|reflexivity].
      cbn [app negb]. apply of_decimal_not_nan.
    + reflexivity.
Qed.

Lemma parseFloat_money (t : jsstring) :
  Forall (fun c => moneyChar c = true) t ->
  isNaN (parseFloat t) = negb (starts_number t).
Proof.
  intros Ht. unfold parseFloat.
  destruct t as [|c r]; [reflexivity|].
  inversion Ht as [|? ? Hc Hr]; subst.
  destruct (moneyChar_cases c Hc) as (Hw & H43 & _ & _).
  cbn [trimStart]. rewrite Hw. cbn [read_sign starts_number].
  destruct (c =? 45) eqn:E45.
  - apply parse_digits_nan, Hr.
  - destruct (N.eqb_spec c 43) as [->|_]; [congruence|].
    apply parse_digits_nan, Ht.
Qed.

Lemma starts_number_digit (t : jsstring) :
  starts_number t = true -> existsb isDigit t = true.
Proof.
  assert (G : forall u, starts_digits u = true -> existsb isDigit u = true).
  { intros [|d [|d2 r]]; cbn; try discriminate.
    - rewrite Bool.andb_false_r, !Bool.orb_false_r. auto.
    - intros H. apply Bool.orb_true_iff in H. destruct H as [->|H]; [reflexivity|].
      apply andb_prop in H. destruct H as [_ ->]. apply Bool.orb_true_r. }
  destruct t as [|c r]; [discriminate|]. cbn [starts_number].
  destruct (c =? 45).
  - intros H. cbn [existsb]. rewrite (G r H). apply Bool.orb_true_r.
  - apply G.
Qed.

Lemma existsb_filter_sub (A : Type) (p f : A -> bool) (l : list A) :
  existsb p (filter f l) = true -> existsb p l = true.
Proof.
  rewrite !existsb_exists. intros [x [Hx Hp]].
  apply filter_In in Hx. exists x. tauto.
Qed.

Lemma brl_text_digit (s : option jsstring) :
  existsb isDigit (brl_text s) = true -> existsb isDigit (or_empty s) = true.
Proof.
  unfold brl_text. set (t := filter _ (filter _ _)).
  assert (Ht : existsb isDigit t = true -> existsb isDigit (or_empty s) = true).
  { subst t. intros H. apply existsb_filter_sub in H. apply existsb_filter_sub in H.
    exact H. }
  intros H. apply Ht. clear Ht. clearbody t.
  change (js ",") with [44] in H. change (js ".") with [46] in H.
  induction t as [|c r IH]; [exact H|].
  unfold replace_first in H; fold replace_first in H. cbn [startsWith] in H.
  destruct (44 =? c) eqn:E.
  - rewrite startsWith_nil in H.
    cbn [andb List.length skipn app existsb] in H.
    cbn [existsb]. rewrite Bool.orb_true_iff. right. exact H.
  - cbn [andb existsb] in H |- *. apply Bool.orb_true_iff in H.
    destruct H as [->|H]; [reflexivity|]. rewrite (IH H). apply Bool.orb_true_r.
Qed.

End ParseFacts.

Module CaptureFacts.
Import JS Regex Direct Scraper Shapes RegexFacts.

Lemma matcher_Seq (R : Type) (r1 r2 : regex) (x : pos) (cs : caps) (k : cont R) :
  matcher (Seq r1 r2) x cs k = matcher r1 x cs (fun y cs' => matcher r2 y cs' k).
Proof. reflexivity. Qed.

Lemma matcher_Group (R : Type) (i : nat) (r1 : regex) (x : pos) (cs : caps) (k : cont R) :
  matcher (Group i r1) x cs k =
  matcher r1 x cs (fun y cs' => k y ((i, firstn (fst y - fst x) (snd x)) :: cs')).
Proof. reflexivity. Qed.

(** A match ends in its continuation. *)
Lemma repeat_cont (R : Type) (m : matcher_of R) (k : cont R) (g : bool) (z : R) :
  (forall x cs (k' : cont R), m x cs k' = Some z -> exists y cs', k' y cs' = Some z) ->
  forall fuel mn mx x cs,
    repeat_matcher m k g fuel mn mx x cs = Some z -> exists y cs', k y cs' = Some z.
Proof.
  intros Hm. induction fuel as [|f IH]; intros mn mx x cs H; [discriminate H|].
  rewrite repeat_matcher_S in H.
  destruct (max_zero mx); [eauto|].
  cbv zeta in H.
  assert (Hd : forall x0 cs0,
    m x0 cs0 (fun y cs' =>
      if Nat.eqb mn 0 && Nat.eqb (fst y) (fst x) then None
      else repeat_matcher m k g f (pred mn) (max_pred mx) y cs') = Some z ->
    exists y cs', k y cs' = Some z).
  { intros x0 cs0 H0. apply Hm in H0. destruct H0 as (y & cs' & H0).
    destruct (Nat.eqb mn 0 && Nat.eqb (fst y) (fst x)); [discriminate H0|].
    eapply IH; eauto. }
  destruct (negb (Nat.eqb mn 0)); [eapply Hd; eauto|].
  destruct g.
  - destruct (m x cs _) eqn:E.
    + inversion H; subst. eapply Hd; eauto.
    + eauto.
  - destruct (k x cs) eqn:E.
    + inversion H; subst. eauto.
    + eapply Hd; eauto.
Qed.

Lemma matcher_cont (R : Type) (z : R) (r : regex) :
  forall (x : pos) (cs : caps) (k : cont R),
    matcher r x cs k = Some z -> exists y cs', k y cs' = Some z.
Proof.
  induction r as [|p|r1 IH1 r2 IH2|r1 IH1 r2 IH2|g mn mx r1 IH|i r1 IH| |];
    intros x cs k H.
  - eauto.
  - cbn [matcher] in H. destruct (snd x) as [|c rest]; [discriminate H|].
    destruct (p c); [eauto|discriminate H].
  - rewrite matcher_Seq in H. apply IH1 in H. destruct H as (y & cs' & H).
    eapply IH2; eauto.
  - cbn [matcher] in H. destruct (matcher r1 x cs k) eqn:E.
    + inversion H; subst. eapply IH1; eauto.
    + eapply IH2; eauto.
  - rewrite matcher_Rep in H. eapply repeat_cont; eauto.
  - rewrite matcher_Group in H. apply IH in H. destruct H as (y & cs' & H). eauto.
  - cbn [matcher] in H. destruct (Nat.eqb (fst x) 0); [eauto|discriminate H].
  - cbn [matcher] in H. destruct (snd x); [eauto|discriminate H].
Qed.

(** A pattern without groups hands the captures on as it got them. *)
Lemma repeat_nogroup (R : Type) (m : matcher_of R) (k : cont R) (g : bool) (z : R) :
  (forall x cs (k' : cont R), m x cs k' = Some z -> exists y, k' y cs = Some z) ->
  forall fuel mn mx x cs,
    repeat_matcher m k g fuel mn mx x cs = Some z -> exists y, k y cs = Some z.
Proof.
  intros Hm. induction fuel as [|f IH]; intros mn mx x cs H; [discriminate H|].
  rewrite repeat_matcher_S in H.
  destruct (max_zero mx); [eauto|].
  cbv zeta in H.
  assert (Hd : forall x0,
    m x0 cs (fun y cs' =>
      if Nat.eqb mn 0 && Nat.eqb (fst y) (fst x) then None
      else repeat_matcher m k g f (pred mn) (max_pred mx) y cs') = Some z ->
    exists y, k y cs = Some z).
  { intros x0 H0. apply Hm in H0. destruct H0 as (y & H0).
    destruct (Nat.eqb mn 0 && Nat.eqb (fst y) (fst x)); [discriminate H0|].
    eapply IH; eauto. }
  destruct (negb (Nat.eqb mn 0)); [eapply Hd; eauto|].
  destruct g.
  - destruct (m x cs _) eqn:E.
    + inversion H; subst. eapply Hd; eauto.
    + eauto.
  - destruct (k x cs) eqn:E.
    + inversion H; subst. eauto.
    + eapply Hd; eauto.
Qed.

Lemma matcher_nogroup (R : Type) (z : R) (r : regex) :
  nogroup r = true ->
  forall (x : pos) (cs : caps) (k : cont R),
    matcher r x cs k = Some z -> exists y, k y cs = Some z.
Proof.
  induction r as [|p|r1 IH1 r2 IH2|r1 IH1 r2 IH2|g mn mx r1 IH|i r1 IH| |];
    intros Hn x cs k H; cbn [nogroup] in Hn.
  - eauto.
  - cbn [matcher] in H. destruct (snd x) as [|c rest]; [discriminate H|].
    destruct (p c); [eauto|discriminate H].
  - apply andb_prop in Hn. destruct Hn as [Hn1 Hn2].
    rewrite matcher_Seq in H. apply (IH1 Hn1) in H. destruct H as (y & H).
    eapply IH2; eauto.
  - apply andb_prop in Hn. destruct Hn as [Hn1 Hn2].
    cbn [matcher] in H. destruct (matcher r1 x cs k) eqn:E.
    + inversion H; subst. eapply IH1; eauto.
    + eapply IH2; eauto.
  - rewrite matcher_Rep in H. eapply repeat_nogroup; [|exact H].
    intros x0 cs0 k'. apply IH; assumption.
  - discriminate Hn.
  - cbn [matcher] in H. destruct (Nat.eqb (fst x) 0); [eauto|discriminate H].
  - cbn [matcher] in H. destruct (snd x); [eauto|discriminate H].
Qed.

(** What a quantified class has read when the match goes on. *)
Lemma repeat_class_reach (R : Type) (p : char16 -> bool) (k : cont R) (g : bool) (z : R) :
  forall fuel mn mx i (s : jsstring) cs,
    bounded mn mx ->
    repeat_matcher (matcher (Class p)) k g fuel mn mx (i, s) cs = Some z ->
    exists n, (mn <= n)%nat /\ (n <= List.length s)%nat
      /\ (forall m, mx = Some m -> (n <= m)%nat)
      /\ forallb p (firstn n s) = true
      /\ k ((i + n)%nat, skipn n s) cs = Some z.
Proof.
  induction fuel as [|f IH]; intros mn mx i s cs Hb H; [discriminate H|].
  rewrite repeat_matcher_S in H.
  assert (Hzero : k (i, s) cs = Some z ->
    mn = 0%nat ->
    exists n, (mn <= n)%nat /\ (n <= List.length s)%nat
      /\ (forall m, mx = Some m -> (n <= m)%nat)
      /\ forallb p (firstn n s) = true
      /\ k ((i + n)%nat, skipn n s) cs = Some z).
  { intros Hk Hmn. exists 0%nat. rewrite Nat.add_0_r. cbn [firstn skipn forallb].
    repeat split; try lia. exact Hk. }
  destruct (max_zero mx) eqn:Hz.
  { apply Hzero; [exact H|].
    destruct mx as [[|m]|]; try discriminate Hz.
    specialize (Hb 0%nat eq_refl). lia. }
  cbv zeta in H.
  assert (Hd :
    matcher (Class p) (i, s) cs (fun y cs' =>
      if Nat.eqb mn 0 && Nat.eqb (fst y) (fst (i, s)) then None
      else repeat_matcher (matcher (Class p)) k g f (pred mn) (max_pred mx) y cs') = Some z ->
    exists n, (mn <= n)%nat /\ (n <= List.length s)%nat
      /\ (forall m, mx = Some m -> (n <= m)%nat)
      /\ forallb p (firstn n s) = true
      /\ k ((i + n)%nat, skipn n s) cs = Some z).
  { intros H0. destruct s as [|c r].
    - rewrite matcher_Class_nil in H0. discriminate H0.
    - rewrite matcher_Class_cons in H0. destruct (p c) eqn:Hp; [|discriminate H0].
      cbn [fst] in H0.
      replace (Nat.eqb (S i) i) with false in H0
        by (symmetry; apply Nat.eqb_neq; lia).
      rewrite Bool.andb_false_r in H0.
      apply IH in H0.
      + destruct H0 as (n & Hmn & Hlen & Hmx & Hall & Hk).
        exists (S n). cbn [firstn skipn forallb List.length]. rewrite Hp, Hall.
        replace (i + S n)%nat with (S i + n)%nat by lia.
        repeat split; try lia; [|exact Hk].
        intros m Hm. subst mx. cbn [max_pred] in Hmx.
        specialize (Hmx (pred m) eq_refl).
        destruct m as [|m]; [discriminate Hz|]. cbn [pred] in Hmx. lia.
      + intros m Hm. destruct mx as [m0|]; [|discriminate Hm].
        cbn [max_pred] in Hm. inversion Hm; subst.
        specialize (Hb m0 eq_refl). lia. }
  destruct (Nat.eqb mn 0) eqn:Hmn; cbn [negb] in H.
  - apply Nat.eqb_eq in Hmn. subst mn.
    destruct g.
    + destruct (matcher (Class p) (i, s) cs _) eqn:E.
      * inversion H; subst r. apply Hd. reflexivity.
      * apply Hzero; [exact H|reflexivity].
    + destruct (k (i, s) cs) eqn:E.
      * inversion H; subst r. apply Hzero; reflexivity.
      * apply Hd. exact H.
  - apply Hd. exact H.
Qed.

(** The group of a pattern that ends in a capture holds a captured text. *)
Lemma captures_matcher (R : Type) (z : R) (i : nat) (p : char16 -> bool)
    (mn : nat) (mx : option nat) (r : regex) :
  bounded mn mx -> captures i p mn mx r ->
  forall (x : pos) (cs : caps) (k : cont R),
    matcher r x cs k = Some z ->
    exists y cs' cap, captured_by p mn mx cap /\ k y ((i, cap) :: cs') = Some z.
Proof.
  intros Hb Hc.
  assert (Hg : forall g (x : pos) (cs : caps) (k : cont R),
    matcher (Group i (Rep g mn mx (Class p))) x cs k = Some z ->
    exists y cap, captured_by p mn mx cap /\ k y ((i, cap) :: cs) = Some z).
  { intros g [j s] cs k H. rewrite matcher_Group, matcher_Rep in H.
    apply repeat_class_reach in H; [|exact Hb].
    destruct H as (n & Hmn & Hlen & Hmx & Hall & Hk).
    cbn [fst snd] in Hk. replace (j + n - j)%nat with n in Hk by lia.
    exists ((j + n)%nat, skipn n s), (firstn n s). split; [|exact Hk].
    assert (Hl : List.length (firstn n s) = n) by (apply firstn_length_le; exact Hlen).
    unfold captured_by. rewrite Hl. auto. }
  induction Hc as [g|g post Hn|a r Hc IH]; intros x cs k H.
  - apply Hg in H. destruct H as (y & cap & Hcap & Hk). eauto.
  - rewrite matcher_Seq in H. apply Hg in H. destruct H as (y & cap & Hcap & Hk).
    apply (matcher_nogroup _ Hn) in Hk. destruct Hk as (y' & Hk). eauto.
  - rewrite matcher_Seq in H. apply matcher_cont in H. destruct H as (y & cs' & H).
    eapply IH; eauto.
Qed.

Lemma search_match_at (r : regex) (z : match_result) :
  forall (s : jsstring) (i : nat), search r i s = Some z ->
    exists j t, match_at r (j, t) = Some z.
Proof.
  induction s as [|c s IH]; intros i H; cbn [search] in H; revert H;
    destruct (match_at r _) eqn:E; intro H.
  - inversion H; subst. eauto.
  - discriminate H.
  - inversion H; subst. eauto.
  - eapply IH; eauto.
Qed.

(** [m[i]] of a match of a pattern that ends in the capture [i]. *)
Lemma exec_captures (i : nat) (p : char16 -> bool) (mn : nat) (mx : option nat)
    (r : regex) (s : jsstring) (z : match_result) :
  bounded mn mx -> captures i p mn mx r -> exec r s = Some z ->
  captured_by p mn mx (group_text i z).
Proof.
  intros Hb Hc H. apply search_match_at in H. destruct H as (j & t & H).
  unfold match_at in H. apply (captures_matcher Hb Hc) in H.
  destruct H as (y & cs' & cap & Hcap & Hk).
  unfold accept in Hk. inversion Hk; subst z.
  unfold group_text. cbn [groups group]. rewrite Nat.eqb_refl. exact Hcap.
Qed.

Lemma bounded_None (mn : nat) : bounded mn None.
Proof. intros m H. discriminate H. Qed.

Lemma bounded_exactly (n : nat) : bounded n (Some n).
Proof. intros m H. inversion H. lia. Qed.

End CaptureFacts.

Module CanonFacts.
Import JS Regex Direct Scraper Shapes RegexFacts TextFacts CaptureFacts.
Local Open Scope N_scope.

Ltac split_tests :=
  repeat (match goal with
          | |- context [N.leb ?a ?b] =>
              first [is_var a | is_var b]; destruct (N.leb_spec a b)
          | |- context [N.ltb ?a ?b] =>
              first [is_var a | is_var b]; destruct (N.ltb_spec a b)
          | |- context [N.eqb ?a ?b] =>
              first [is_var a | is_var b]; destruct (N.eqb_spec a b)
          | |- context [N.leb ?a ?b] => destruct (N.leb_spec a b)
          | |- context [N.ltb ?a ?b] => destruct (N.ltb_spec a b)
          | |- context [N.eqb ?a ?b] => destruct (N.eqb_spec a b)
          end; cbn [andb orb negb]; try lia).

(** Below the letters, the canonical form of a unit is the unit. *)
Lemma canonicalize_low (x : char16) : canonicalize x < 65 -> canonicalize x = x.
Proof.
  unfold canonicalize, upper1. split_tests; intros; try reflexivity; try lia.
Qed.

(** A unit whose canonical form is an ASCII capital has it as its upper
    case. *)
Lemma canonicalize_upper (x : char16) :
  isUpperAZ (canonicalize x) = true -> upper1 x = [canonicalize x].
Proof.
  unfold isUpperAZ, canonicalize, upper1.
  split_tests; intros; try reflexivity; try discriminate; try lia.
Qed.

Lemma isDigit_canonicalize (x : char16) :
  isDigit (canonicalize x) = true -> isDigit x = true.
Proof.
  intros H. rewrite <- (canonicalize_low x); [exact H|].
  unfold isDigit in H. apply andb_prop in H. destruct H as [_ H].
  apply N.leb_le in H. lia.
Qed.

Lemma isCepChar_canonicalize (x : char16) :
  isCepChar (canonicalize x) = true -> isCepChar x = true.
Proof.
  intros H. rewrite <- (canonicalize_low x); [exact H|].
  unfold isCepChar, isDigit in H.
  apply Bool.orb_true_iff in H. destruct H as [H|H].
  - apply andb_prop in H. destruct H as [_ H]. apply N.leb_le in H. lia.
  - apply N.eqb_eq in H. lia.
Qed.

Lemma isMoneyChar_cases (c : char16) :
  isMoneyChar c = true -> isDigit c = true \/ c = 46 \/ c = 44.
Proof.
  unfold isMoneyChar.
  change (member ".," c) with ((c =? 46) || ((c =? 44) || false)).
  intros H. repeat (apply Bool.orb_true_iff in H; destruct H as [H|H]);
    try discriminate H; auto.
  - right; left. apply N.eqb_eq. exact H.
  - right; right. apply N.eqb_eq. exact H.
Qed.

Lemma isMoneyChar_canonicalize (x : char16) :
  isMoneyChar (canonicalize x) = true -> isMoneyChar x = true.
Proof.
  intros H. rewrite <- (canonicalize_low x); [exact H|].
  apply isMoneyChar_cases in H. destruct H as [H|[H|H]]; [|lia|lia].
  unfold isDigit in H. apply andb_prop in H. destruct H as [_ H].
  apply N.leb_le in H. lia.
Qed.

Lemma forallb_impl (A : Type) (p q : A -> bool) (l : list A) :
  (forall a, p a = true -> q a = true) -> forallb p l = true -> forallb q l = true.
Proof.
  intros Hpq. induction l as [|a l IH]; cbn [forallb]; [reflexivity|].
  intros H. apply andb_prop in H. destruct H as [Ha Hl].
  rewrite (Hpq a Ha), (IH Hl). reflexivity.
Qed.

Lemma forallb_map_compose (A B : Type) (f : A -> B) (p : B -> bool) (l : list A) :
  forallb p (map f l) = forallb (fun a => p (f a)) l.
Proof.
  induction l as [|a l IH]; cbn [map forallb]; [reflexivity|]. rewrite IH. reflexivity.
Qed.

Lemma forallb_trim (p : char16 -> bool) (s : jsstring) :
  forallb p s = true -> forallb p (trim s) = true.
Proof.
  intros H. apply forallb_forall. apply Forall_forall.
  apply Forall_trim. apply Forall_forall. apply forallb_forall. exact H.
Qed.

(** Trimming leaves a text without white space alone. *)
Lemma trim_no_space (s : jsstring) :
  forallb (fun c => negb (isWhiteSpace c)) s = true -> trim s = s.
Proof.
  intros H. apply trimmed_trim. split.
  - destruct s as [|c r]; [reflexivity|]. cbn [forallb] in H.
    apply andb_prop in H. destruct H as [Hc _]. cbn [trimStart].
    destruct (isWhiteSpace c); [discriminate Hc|reflexivity].
  - induction s as [|c r IH]; [reflexivity|]. cbn [forallb] in H.
    apply andb_prop in H. destruct H as [Hc Hr].
    rewrite trimEnd_cons, (IH Hr).
    destruct r; [|reflexivity]. destruct (isWhiteSpace c); [discriminate Hc|reflexivity].
Qed.

Lemma isDigit_no_space (c : char16) : isDigit c = true -> negb (isWhiteSpace c) = true.
Proof.
  unfold isDigit, isWhiteSpace. split_tests; intros; try reflexivity; try discriminate.
Qed.

Lemma isMoneyChar_no_space (c : char16) :
  isMoneyChar c = true -> negb (isWhiteSpace c) = true.
Proof.
  intros H. apply isMoneyChar_cases in H. destruct H as [H|[H|H]].
  - apply isDigit_no_space. exact H.
  - subst c. reflexivity.
  - subst c. reflexivity.
Qed.

(** ** The patterns of the scraper that end in a capture *)

Lemma captures_detalhe_imovel : captures 1 isDigit 1 None re_detalhe_imovel.
Proof.
  unfold re_detalhe_imovel. cbn [seq]. apply captures_seq.
  apply captures_then. reflexivity.
Qed.

Lemma captures_money (r : regex) :
  In r [re_aval; re_min1; re_min2; re_min_generic] ->
  captures 1 (fun x => isMoneyChar (canonicalize x)) 1 None r.
Proof.
  intros H. cbn [In] in H.
  destruct H as [H|[H|[H|[H|[]]]]]; subst r;
    unfold re_aval, re_min1, re_min2, re_min_generic; cbn [seq];
    repeat apply captures_seq; apply captures_last.
Qed.

Lemma captures_cep : captures 1 (fun x => isCepChar (canonicalize x)) 1 None re_cep.
Proof. unfold re_cep. cbn [seq]. repeat apply captures_seq. apply captures_last. Qed.

Lemma captures_numero : captures 1 (fun x => isDigit (canonicalize x)) 1 None re_numero.
Proof. unfold re_numero. cbn [seq]. repeat apply captures_seq. apply captures_last. Qed.

Lemma captures_cidade_uf :
  captures 2 (fun x => isUpperAZ (canonicalize x)) 2 (Some 2%nat) re_cidade_uf.
Proof.
  unfold re_cidade_uf. cbn [seq]. do 5 apply captures_seq.
  apply captures_then. reflexivity.
Qed.

(** The text a money pattern captures. *)
Lemma money_capture (r : regex) (text : jsstring) (m : match_result) :
  In r [re_aval; re_min1; re_min2; re_min_generic] ->
  exec r text = Some m ->
  trim (group_text 1 m) = group_text 1 m
  /\ group_text 1 m <> []
  /\ forallb isMoneyChar (group_text 1 m) = true.
Proof.
  intros Hr H.
  apply (@exec_captures 1 _ 1 None r text m (@bounded_None 1) (captures_money Hr)) in H.
  destruct H as (Hall & Hlen & _).
  assert (Hall' : forallb isMoneyChar (group_text 1 m) = true).
  { revert Hall. apply forallb_impl. intros a. apply isMoneyChar_canonicalize. }
  clear Hall. rename Hall' into Hall.
  split; [|split].
  - apply trim_no_space. revert Hall. apply forallb_impl. apply isMoneyChar_no_space.
  - intros E. rewrite E in Hlen. cbn in Hlen. lia.
  - exact Hall.
Qed.

Lemma captured_money (r : regex) (text : jsstring) :
  In r [re_aval; re_min1; re_min2; re_min_generic] ->
  forallb isMoneyChar (captured (exec r text)) = true
  /\ (captured (exec r text) = [] <-> exec r text = None).
Proof.
  intros Hr. unfold captured. destruct (exec r text) as [m|] eqn:E.
  - destruct (@money_capture r text m Hr E) as (Ht & Hne & Hall). rewrite Ht.
    split; [exact Hall|]. split; [intros H; contradiction|discriminate].
  - split; [reflexivity|]. split; reflexivity.
Qed.

End CanonFacts.

Module SignFacts.
Import JS Regex Num Direct Scraper Shapes RegexFacts NumFacts ParseFacts CanonFacts.
Local Open Scope Z_scope.

Lemma binary_round_aux_sign (sx : bool) (mx ex : Z) (lx : location) :
  0 <= mx -> negative (binary_round_aux prec emax sx mx ex lx) = sx.
Proof.
  intros H. unfold binary_round_aux.
  pose proof (@shr_fexp_nonneg mx ex lx H) as H1.
  destruct (shr_fexp prec emax mx ex lx) as [mrs' e']. cbn [fst] in H1.
  pose proof (@shr_fexp_nonneg _ e' loc_Exact
                (@round_nearest_even_nonneg _ (loc_of_shr_record mrs') H1)) as H2.
  destruct (shr_fexp prec emax _ e' loc_Exact) as [mrs'' e'']. cbn [fst] in H2.
  destruct (shr_m mrs'') as [|p|p]; [reflexivity| |lia].
  destruct (e'' <=? emax - prec); reflexivity.
Qed.

Lemma binary_round_sign (sx : bool) (mx : positive) (ex : Z) :
  negative (binary_round prec emax sx mx ex) = sx.
Proof.
  unfold binary_round.
  destruct (shl_align mx ex _) as [mz ez].
  apply binary_round_aux_sign. lia.
Qed.

Lemma of_decimal_sign (neg : bool) (d : N) (e : Z) : negative (of_decimal neg d e) = neg.
Proof.
  unfold of_decimal. destruct d as [|p]; [reflexivity|].
  destruct (0 <=? e); [apply binary_round_sign|].
  cbn [SFdiv]. unfold SFdiv_core_binary.
  set (m' := match _ with Zpos _ => _ | _ => _ end).
  assert (Hm : 0 <= m').
  { subst m'. destruct (0 - 0 - _); try lia.
    rewrite Z.shiftl_mul_pow2 by lia. apply Z.mul_nonneg_nonneg; [lia|].
    apply Z.pow_nonneg. lia. }
  assert (Hd0 : Z.pos (Z.to_pos (10 ^ (- e))) <> 0) by lia.
  assert (Hd1 : 0 < Z.pos (Z.to_pos (10 ^ (- e)))) by lia.
  pose proof (Z.div_eucl_eq m' _ Hd0) as Hq.
  pose proof (Z.mod_pos_bound m' _ Hd1) as Hr.
  unfold Z.modulo in Hr.
  destruct (Z.div_eucl m' _) as [q r].
  rewrite binary_round_aux_sign; [apply Bool.xorb_false_r|].
  assert (0 <= q \/ q < 0) as [Hq0|Hq0] by lia; [exact Hq0|]. nia.
Qed.

Lemma negative_ltb (x : number) : negative x = false -> ltb x zero = false.
Proof.
  destruct x as [s|s| |s m e]; cbn [negative]; intros H; try subst s; reflexivity.
Qed.

Lemma no_hyphen_trimStart (t : jsstring) :
  no_hyphen t = true -> no_hyphen (trimStart t) = true.
Proof.
  unfold no_hyphen. induction t as [|c r IH]; [auto|].
  cbn [trimStart]. destruct (isWhiteSpace c); [|auto].
  cbn [existsb]. intros H. apply IH.
  apply Bool.negb_true_iff in H. apply Bool.orb_false_iff in H.
  destruct H as [_ H]. rewrite H. reflexivity.
Qed.

(** A text without a hyphen reads as no number below zero. *)
Lemma parseFloat_sign (t : jsstring) :
  no_hyphen t = true -> negative (parseFloat t) = false.
Proof.
  intros H. apply no_hyphen_trimStart in H. unfold parseFloat.
  assert (Hs : fst (read_sign (trimStart t)) = false).
  { unfold no_hyphen in H. destruct (trimStart t) as [|c r]; [reflexivity|].
    cbn [existsb] in H. cbn [read_sign].
    rewrite N.eqb_sym. destruct (N.eqb 45 c); [discriminate H|].
    destruct (N.eqb c 43); reflexivity. }
  destruct (read_sign (trimStart t)) as [neg s1]. cbn [fst] in Hs. subst neg.
  destruct (startsWith s1 _); [reflexivity|].
  destruct (span isDigit s1) as [ip s2].
  destruct (match s2 with [] => _ | _ :: _ => _ end) as [fp s3].
  destruct (ip ++ fp); [reflexivity|]. apply of_decimal_sign.
Qed.

Lemma existsb_skipn (A : Type) (p : A -> bool) (n : nat) (s : list A) :
  existsb p s = false -> existsb p (skipn n s) = false.
Proof.
  revert s. induction n as [|n IH]; intros s H; [exact H|].
  destruct s as [|c r]; [reflexivity|]. cbn [skipn]. apply IH.
  cbn [existsb] in H. apply Bool.orb_false_iff in H. apply H.
Qed.

Lemma existsb_replace_first (p : char16 -> bool) (pat by_ s : jsstring) :
  existsb p by_ = false -> existsb p s = false ->
  existsb p (replace_first pat by_ s) = false.
Proof.
  intros Hb. induction s as [|c r IH]; intros H.
  - cbn [replace_first]. destruct (startsWith [] pat); [|reflexivity].
    rewrite existsb_app, Hb. apply existsb_skipn. reflexivity.
  - cbn [replace_first]. destruct (startsWith (c :: r) pat).
    + rewrite existsb_app, Hb. apply existsb_skipn. exact H.
    + cbn [existsb] in *. apply Bool.orb_false_iff in H. destruct H as [Hc Hr].
      rewrite Hc, (IH Hr). reflexivity.
Qed.

Lemma existsb_filter_false (A : Type) (p f : A -> bool) (l : list A) :
  existsb p l = false -> existsb p (filter f l) = false.
Proof.
  intros H. destruct (existsb p (filter f l)) eqn:E; [|reflexivity].
  apply existsb_filter_sub in E. congruence.
Qed.

Lemma brl_text_no_hyphen (s : option jsstring) :
  no_hyphen (or_empty s) = true -> no_hyphen (brl_text s) = true.
Proof.
  unfold no_hyphen, brl_text. intros H. apply Bool.negb_true_iff in H.
  apply Bool.negb_true_iff. apply existsb_replace_first; [reflexivity|].
  apply existsb_filter_false. apply existsb_filter_false. exact H.
Qed.

(** An amount without a hyphen is never read as a number below zero. *)
Lemma parseBRL_sign (s : option jsstring) (x : number) :
  no_hyphen (or_empty s) = true -> parseBRL s = Some x -> negative x = false.
Proof.
  intros Hs H. rewrite parseBRL_direct in H.
  destruct (isNaN (parseFloat (brl_text s))); [discriminate H|].
  injection H as <-. apply parseFloat_sign. apply brl_text_no_hyphen. exact Hs.
Qed.

Lemma money_no_hyphen (s : jsstring) :
  forallb isMoneyChar s = true -> no_hyphen s = true.
Proof.
  unfold no_hyphen. induction s as [|c r IH]; [reflexivity|].
  cbn [forallb existsb]. intros H. apply andb_prop in H. destruct H as [Hc Hr].
  apply IH in Hr. apply Bool.negb_true_iff in Hr. rewrite Hr, Bool.orb_false_r.
  apply Bool.negb_true_iff.
  apply isMoneyChar_cases in Hc. destruct Hc as [Hc|[Hc|Hc]].
  - unfold isDigit in Hc. apply andb_prop in Hc. destruct Hc as [Hc _].
    apply N.leb_le in Hc. apply N.eqb_neq. lia.
  - subst c. reflexivity.
  - subst c. reflexivity.
Qed.

End SignFacts.

Module SheetFacts.
Import JS Regex Num Direct Scraper Shapes RegexFacts TextFacts RowFacts CollectFacts.
Local Open Scope N_scope.

Lemma newlines_id (by_ s : jsstring) : Forall noNewline s -> newlines by_ s = s.
Proof.
  induction s as [|c r IH]; intros H; [reflexivity|].
  inversion H as [|c' r' [Hcr Hlf] Hr]; subst. cbn [newlines].
  destruct (N.eqb_spec c CR); [contradiction|].
  destruct (N.eqb_spec c LF); [contradiction|].
  rewrite (IH Hr). reflexivity.
Qed.

Lemma spaced_weaken (s : jsstring) : spaced true s = true -> spaced false s = true.
Proof.
  destruct s as [|c r]; [auto|]. cbn [spaced].
  destruct (isWhiteSpace c); [discriminate|auto].
Qed.

Lemma squeeze2_id (by_ s : jsstring) :
  spaced false s = true -> squeeze2 isWhiteSpace by_ false s = s.
Proof.
  induction s as [|c r IH]; intros H; [reflexivity|].
  cbn [spaced negb andb] in H. cbn [squeeze2].
  destruct (isWhiteSpace c) eqn:Hc.
  - destruct r as [|d r']; [reflexivity|].
    assert (Hd : isWhiteSpace d = false).
    { cbn [spaced] in H. destruct (isWhiteSpace d); [discriminate H|reflexivity]. }
    rewrite Hd. rewrite (IH (@spaced_weaken _ H)). reflexivity.
  - rewrite (IH H). reflexivity.
Qed.

(** Sanitizing twice is sanitizing once. *)
Lemma sanitize_idem (v : jsvalue) : sanitize (Str (sanitize v)) = sanitize v.
Proof.
  destruct (sanitize_clean v) as (Hn & Hs & Ht).
  rewrite sanitize_direct, (@newlines_id _ _ Hn), (@squeeze2_id _ _ Hs).
  apply trimmed_trim. exact Ht.
Qed.

Lemma row_of_idem (det : jsobject) : row_of (row_of det) = row_of det.
Proof.
  rewrite (row_of_eq (row_of det)), (row_of_eq det).
  apply map_ext_in. intros campo Hc.
  rewrite (@get_map (fun campo => Str (sanitize (get det campo))) _ _ Hc).
  rewrite sanitize_idem. reflexivity.
Qed.

(** ** The set of URLs in insertion order *)

Lemma filter_filter (A : Type) (f g : A -> bool) (l : list A) :
  filter f (filter g l) = filter (fun a => g a && f a) l.
Proof.
  induction l as [|a l IH]; [reflexivity|]. cbn [filter].
  destruct (g a); cbn [filter andb]; [destruct (f a)|]; rewrite IH; reflexivity.
Qed.

Lemma streq_sym (a b : jsstring) : streq a b = streq b a.
Proof.
  destruct (streq b a) eqn:E.
  - apply streq_true in E. subst. apply streq_refl.
  - destruct (streq a b) eqn:E'; [|reflexivity].
    apply streq_true in E'. subst. rewrite streq_refl in E. discriminate E.
Qed.

Lemma fold_Set_add_first (l : list jsstring) :
  forall set,
    fold_left Set_add l set =
    set ++ filter (fun y => negb (existsb (streq y) set)) (first_occurrences l).
Proof.
  induction l as [|x r IH]; intros set.
  - cbn. rewrite app_nil_r. reflexivity.
  - cbn [fold_left first_occurrences filter]. rewrite IH, filter_filter.
    unfold Set_add. destruct (existsb (streq x) set) eqn:Ex; cbn [negb].
    + f_equal. apply filter_ext_in. intros y _.
      destruct (streq x y) eqn:Exy; cbn [negb andb]; [|reflexivity].
      apply streq_true in Exy. subst y. rewrite Ex. reflexivity.
    + rewrite <- app_assoc. cbn [app]. f_equal. f_equal.
      apply filter_ext_in. intros y _.
      rewrite existsb_app. cbn [existsb]. rewrite Bool.orb_false_r.
      rewrite (streq_sym y x), Bool.negb_orb. apply Bool.andb_comm.
Qed.

(** ** Page counts *)

Lemma digits_value_acc (u : Decimal.uint) :
  forall acc : positive,
    fold_left (fun a c => 10 * a + (c - 48)) (uint_units u) (Npos acc)
    = Npos (Pos.of_uint_acc u acc).
Proof.
  induction u as [|u IH|u IH|u IH|u IH|u IH|u IH|u IH|u IH|u IH|u IH]; intros acc;
    cbn [uint_units fold_left Pos.of_uint_acc]; [reflexivity|..];
    rewrite <- IH; f_equal; lia.
Qed.

Lemma digits_value_uint (u : Decimal.uint) : digits_value (uint_units u) = N.of_uint u.
Proof.
  unfold digits_value, N.of_uint.
  induction u as [|u IH|u IH|u IH|u IH|u IH|u IH|u IH|u IH|u IH|u IH];
    cbn [uint_units fold_left Pos.of_uint]; [reflexivity|exact IH|..];
    rewrite <- digits_value_acc; reflexivity.
Qed.

Lemma digits_value_decimal (n : N) : digits_value (decimal_digits n) = n.
Proof.
  unfold decimal_digits. rewrite digits_value_uint. apply DecimalN.Unsigned.of_to.
Qed.

Lemma span_all (p : char16 -> bool) (s : jsstring) :
  forallb p s = true -> span p s = (s, []).
Proof.
  induction s as [|c r IH]; [reflexivity|]. cbn [forallb span]. intros H.
  apply andb_prop in H. destruct H as [Hc Hr]. rewrite Hc, (IH Hr). reflexivity.
Qed.

Lemma decimal_digits_nonempty (n : N) : decimal_digits n <> [].
Proof.
  unfold decimal_digits. destruct n as [|p]; [discriminate|]. cbn [N.to_uint].
  pose proof (DecimalPos.Unsigned.to_uint_nonnil p) as H.
  destruct (Pos.to_uint p); [contradiction| | | | | | | | | |]; discriminate.
Qed.

Lemma parseInt10_decimal (n : N) : parseInt10 (decimal_digits n) = Some (Z.of_N n).
Proof.
  pose proof (NumFacts.uint_units_digits (N.to_uint n)) as Hd.
  pose proof (decimal_digits_nonempty n) as Hne.
  pose proof (digits_value_decimal n) as Hv.
  unfold decimal_digits in *. unfold parseInt10.
  destruct (uint_units (N.to_uint n)) as [|c r] eqn:E; [contradiction|].
  assert (Hc : isDigit c = true).
  { cbn [forallb] in Hd. apply andb_prop in Hd. apply Hd. }
  assert (Hws : isWhiteSpace c = false).
  { pose proof (@CanonFacts.isDigit_no_space c Hc) as H.
    apply Bool.negb_true_iff in H. exact H. }
  cbn [trimStart]. rewrite Hws. cbn [read_sign].
  unfold isDigit in Hc. apply andb_prop in Hc. destruct Hc as [H1 H2].
  apply N.leb_le in H1. apply N.leb_le in H2.
  destruct (N.eqb_spec c 45); [lia|]. destruct (N.eqb_spec c 43); [lia|].
  rewrite (@span_all _ _ Hd). rewrite Hv. reflexivity.
Qed.

End SheetFacts.

Module AreaFacts.
Import JS Regex Direct Scraper Shapes RegexFacts TextFacts LabelFacts.
Local Open Scope N_scope.

Lemma split_sep (sep : char16) (row : jsstring) :
  split sep row = before sep row ::
    (if existsb (N.eqb sep) row then split sep (after sep row) else []).
Proof.
  induction row as [|c r IH]; [reflexivity|].
  cbn [split before after existsb].
  rewrite (N.eqb_sym sep c). destruct (c =? sep) eqn:E.
  - reflexivity.
  - rewrite IH. cbn [orb]. reflexivity.
Qed.

Lemma after_nil (sep : char16) (row : jsstring) :
  existsb (N.eqb sep) row = false -> after sep row = [].
Proof.
  induction row as [|c r IH]; [reflexivity|].
  cbn [existsb after]. rewrite (N.eqb_sym sep c).
  destruct (c =? sep); [discriminate|]. exact IH.
Qed.

(** The second element of [row.split(sep)], when there is one. *)
Lemma second_of_split (sep : char16) (row : jsstring) :
  nth_error (split sep row) 1 =
  if existsb (N.eqb sep) row then Some (before sep (after sep row)) else None.
Proof.
  rewrite split_sep. cbn [nth_error].
  destruct (existsb (N.eqb sep) row); [|reflexivity].
  rewrite split_sep. reflexivity.
Qed.

Lemma includes_unit (c : char16) (s : jsstring) : includes s [c] = existsb (N.eqb c) s.
Proof.
  induction s as [|y r IH]; [reflexivity|].
  cbn [includes startsWith existsb]. rewrite IH.
  destruct r; rewrite Bool.andb_true_r; reflexivity.
Qed.

Lemma skipn_run_trimStart (s : jsstring) : skipn (run isWhiteSpace s) s = trimStart s.
Proof.
  induction s as [|c r IH]; [reflexivity|]. cbn [run trimStart].
  destruct (isWhiteSpace c); [exact IH|reflexivity].
Qed.

(** A greedy run of white space in front of a continuation that never
    fails. *)
Lemma star_ws_greedy (R : Type) (k : cont R) (i : nat) (s : jsstring) (cs : caps) :
  (forall y cs', k y cs' <> None) ->
  matcher (star ws) (i, s) cs k
  = k ((i + run isWhiteSpace s)%nat, trimStart s) cs.
Proof.
  intros Hk. unfold star, ws. rewrite matcher_Rep. cbn [snd].
  rewrite (@repeat_class_greedy R isWhiteSpace k Hk s _ 0%nat i cs) by lia.
  cbn [Nat.leb]. rewrite skipn_run_trimStart. reflexivity.
Qed.

(** An optional unit in front of a continuation that never fails. *)
Lemma opt_class_greedy (R : Type) (p : char16 -> bool) (k : cont R) (i : nat)
    (s : jsstring) (cs : caps) :
  (forall y cs', k y cs' <> None) ->
  matcher (opt (Class p)) (i, s) cs k =
  match s with
  | c :: r => if p c then k (S i, r) cs else k (i, s) cs
  | [] => k (i, s) cs
  end.
Proof.
  intros Hk. unfold opt. rewrite matcher_Rep. cbn [snd].
  replace (0 + List.length s + 1)%nat with (S (List.length s)) by lia.
  rewrite repeat_matcher_S. cbn [max_zero Nat.eqb negb andb]. cbv zeta.
  destruct s as [|c r].
  - rewrite matcher_Class_nil. reflexivity.
  - rewrite matcher_Class_cons. destruct (p c); [|reflexivity].
    cbn [fst List.length pred max_pred].
    replace (Nat.eqb (S i) i) with false by (symmetry; apply Nat.eqb_neq; lia).
    rewrite repeat_matcher_S. cbn [max_zero].
    destruct (k (S i, r) cs) eqn:E; [reflexivity|].
    exfalso. exact (Hk _ _ E).
Qed.

(** [/^\s*\*?\s*/] always matches at the start: it takes the white space,
    one asterisk and the white space behind it. *)
Lemma match_at_area_prefix (part : jsstring) :
  match_at re_area_prefix (0%nat, part) =
  accept (0%nat, part)
    (let n1 := run isWhiteSpace part in
     match trimStart part with
     | c :: r =>
         if 42 =? c then ((S n1 + run isWhiteSpace r)%nat, trimStart r)
         else ((n1 + run isWhiteSpace (c :: r))%nat, trimStart (c :: r))
     | [] => ((n1 + 0)%nat, [])
     end) [].
Proof.
  assert (Hacc : forall x y cs', accept x y cs' <> None) by (intros; discriminate).
  unfold match_at, re_area_prefix. cbn [seq].
  rewrite CaptureFacts.matcher_Seq.
  change (matcher Bol (0%nat, part) [] ?k) with (k (0%nat, part) []). cbv beta.
  rewrite CaptureFacts.matcher_Seq.
  rewrite star_ws_greedy.
  2:{ intros y cs'. destruct y as [j t]. rewrite CaptureFacts.matcher_Seq.
      unfold chr. rewrite opt_class_greedy.
      - destruct t as [|c r]; [|destruct (42 =? c)];
          rewrite star_ws_greedy; auto.
      - intros [j' t'] cs''. rewrite star_ws_greedy; auto. }
  rewrite CaptureFacts.matcher_Seq. unfold chr. rewrite opt_class_greedy.
  2:{ intros [j' t'] cs''. rewrite star_ws_greedy; auto. }
  cbv zeta. cbn [Nat.add].
  destruct (trimStart part) as [|c r].
  - rewrite star_ws_greedy by auto. reflexivity.
  - destruct (42 =? c); rewrite star_ws_greedy by auto; reflexivity.
Qed.

Lemma length_trimStart (s : jsstring) : (List.length (trimStart s) <= List.length s)%nat.
Proof.
  induction s as [|a r IH]; [auto|]. cbn [trimStart].
  destruct (isWhiteSpace a); cbn [List.length]; lia.
Qed.

Lemma trimStart_head (s : jsstring) (c : char16) (r : jsstring) :
  trimStart s = c :: r -> isWhiteSpace c = false.
Proof.
  induction s as [|a s IH]; [discriminate|]. cbn [trimStart].
  destruct (isWhiteSpace a) eqn:E; [exact IH|].
  intros H. injection H as <- _. exact E.
Qed.

Lemma replace_area_prefix (part : jsstring) :
  replace re_area_prefix [] part = trimStart (drop_star (trimStart part)).
Proof.
  assert (H : exists n, (n <= List.length part)%nat
            /\ skipn n part = trimStart (drop_star (trimStart part))
            /\ match_at re_area_prefix (0%nat, part)
               = accept (0%nat, part) (n, skipn n part) []).
  { rewrite match_at_area_prefix. cbv zeta.
    pose proof (run_le_length isWhiteSpace part) as Hle1.
    pose proof (skipn_run_trimStart part) as Hs1.
    pose proof (length_skipn (run isWhiteSpace part) part) as Hl1.
    rewrite Hs1 in Hl1.
    destruct (trimStart part) as [|c r] eqn:E1.
    - cbn [drop_star trimStart].
      exists (run isWhiteSpace part + 0)%nat. split; [lia|].
      replace (run isWhiteSpace part + 0)%nat with (run isWhiteSpace part) by lia.
      rewrite Hs1. auto.
    - cbn [drop_star]. destruct (42 =? c) eqn:E42.
      + pose proof (run_le_length isWhiteSpace r) as Hle2.
        pose proof (skipn_run_trimStart r) as Hs2.
        cbn [List.length] in Hl1.
        exists (S (run isWhiteSpace part) + run isWhiteSpace r)%nat.
        assert (Hsk : skipn (S (run isWhiteSpace part) + run isWhiteSpace r) part
                      = trimStart r).
        { replace (S (run isWhiteSpace part) + run isWhiteSpace r)%nat
            with (run isWhiteSpace r + (1 + run isWhiteSpace part))%nat by lia.
          rewrite <- skipn_skipn. rewrite <- (skipn_skipn 1 (run isWhiteSpace part)).
          rewrite Hs1. cbn [skipn]. exact Hs2. }
        rewrite Hsk. split; [lia|]. split; reflexivity.
      + pose proof (trimStart_head part E1) as Hc.
        cbn [run trimStart]. rewrite Hc.
        exists (run isWhiteSpace part + 0)%nat. split; [lia|].
        replace (run isWhiteSpace part + 0)%nat with (run isWhiteSpace part) by lia.
        rewrite Hs1. auto. }
  destruct H as (n & Hn & Hsk & Hm).
  assert (Hs : exec re_area_prefix part = accept (0%nat, part) (n, skipn n part) []).
  { unfold exec. destruct part; cbn [search]; rewrite Hm; reflexivity. }
  unfold replace. rewrite Hs. unfold accept. cbn [index matched fst snd app].
  rewrite Nat.sub_0_r, length_firstn, Nat.min_l by exact Hn.
  cbn [Nat.add]. exact Hsk.
Qed.

End AreaFacts.

Module FieldFacts.
Import JS Regex Num Direct Scraper Shapes RegexFacts TextFacts LabelFacts AreaFacts.
Local Open Scope N_scope.

(** ** Joining and splitting *)

Lemma split_nosep (sep : char16) (x : jsstring) :
  existsb (N.eqb sep) x = false -> split sep x = [x].
Proof.
  intros H. rewrite split_sep, H. f_equal.
  induction x as [|c r IH]; [reflexivity|].
  cbn [existsb] in H. apply Bool.orb_false_iff in H. destruct H as [Hc Hr].
  cbn [before]. rewrite N.eqb_sym, Hc, (IH Hr). reflexivity.
Qed.

Lemma split_app (sep : char16) (x rest : jsstring) :
  existsb (N.eqb sep) x = false ->
  split sep (x ++ sep :: rest) = x :: split sep rest.
Proof.
  induction x as [|c r IH]; intros H.
  - cbn [app split]. rewrite N.eqb_refl. reflexivity.
  - cbn [existsb] in H. apply Bool.orb_false_iff in H. destruct H as [Hc Hr].
    cbn [app split]. rewrite N.eqb_sym, Hc, (IH Hr). reflexivity.
Qed.

Lemma split_join (sep : char16) (l : list jsstring) :
  l <> [] -> Forall (fun x => existsb (N.eqb sep) x = false) l ->
  split sep (join [sep] l) = l.
Proof.
  induction l as [|x l IH]; intros Hne H; [contradiction|].
  inversion H as [|x' l' Hx Hl]; subst.
  destruct l as [|y l].
  - cbn [join]. apply split_nosep. exact Hx.
  - change (join [sep] (x :: y :: l)) with (x ++ sep :: join [sep] (y :: l)).
    rewrite split_app by exact Hx. rewrite IH; [reflexivity|discriminate|exact Hl].
Qed.

(** ** Trimmed results *)

Lemma trimmed_nil : trimmed [].
Proof. split; reflexivity. Qed.

Lemma trimmed_safeText (el : option Element) : trimmed (safeText el).
Proof.
  unfold safeText. destruct el as [e|]; [|apply trimmed_nil].
  destruct (truthy _); [apply trim_trimmed|apply trimmed_nil].
Qed.

Lemma trimmed_getValueAfterLabel (arr : list jsstring) (label : jsstring) :
  trimmed (getValueAfterLabel arr label).
Proof.
  unfold getValueAfterLabel. cbv zeta.
  destruct (find _ arr) as [row|]; [|apply trimmed_nil].
  destruct (truthy row); [|apply trimmed_nil].
  destruct (nth_error _ 1) as [part|]; [|apply trimmed_nil].
  destruct (truthy part); [apply trim_trimmed|apply trimmed_nil].
Qed.

Lemma trimmed_getValueAfterEqOrColon (arr : list jsstring) (label : jsstring) :
  trimmed (getValueAfterEqOrColon arr label).
Proof.
  unfold getValueAfterEqOrColon. cbv zeta.
  destruct (find _ arr) as [row|]; [|apply trimmed_nil].
  destruct (truthy row); [|apply trimmed_nil].
  destruct (nth_error _ 1) as [part|]; [|apply trimmed_nil].
  destruct (truthy part); [apply trim_trimmed|apply trimmed_nil].
Qed.

Lemma trimmed_valor_de (f : jsstring -> jsstring) (d : Document) :
  (forall text, trimmed (f text)) -> trimmed (valor_de f d).
Proof.
  intros Hf. unfold valor_de. destruct (dadosImovel d) as [di|]; [|apply trimmed_nil].
  destruct (pValores di); [apply Hf|apply trimmed_nil].
Qed.

Lemma trimmed_captured (m : option match_result) : trimmed (captured m).
Proof. destruct m; [apply trim_trimmed|apply trimmed_nil]. Qed.

Lemma fold_left_inv (A B : Type) (P : A -> Prop) (f : A -> B -> A) :
  (forall st x, P st -> P (f st x)) ->
  forall l init, P init -> P (fold_left f l init).
Proof.
  intros Hf. induction l as [|a l IH]; intros init H; [exact H|].
  cbn [fold_left]. apply IH. apply Hf. exact H.
Qed.

Lemma trimmed_spansRel (d : Document) :
  let sr := spansRel d in
  trimmed (editalTexto sr) /\ trimmed (leiloeiro sr) /\ trimmed (numeroItem sr)
  /\ trimmed (dataLeilao1 sr) /\ trimmed (dataLeilao2 sr).
Proof.
  cbv zeta. unfold spansRel. cbv zeta.
  set (P := fun sr : SpansRel =>
    trimmed (editalTexto sr) /\ trimmed (leiloeiro sr) /\ trimmed (numeroItem sr)
    /\ trimmed (dataLeilao1 sr) /\ trimmed (dataLeilao2 sr)).
  assert (Hinit : P {| editalTexto := []; leiloeiro := []; numeroItem := [];
                       dataLeilao1 := []; dataLeilao2 := [] |}).
  { unfold P. cbn. repeat split. }
  assert (Hstep : forall st span, P st -> P (spansRel_step st span)).
  { intros st span (H1 & H2 & H3 & H4 & H5). unfold spansRel_step. cbv zeta.
    repeat match goal with
           | |- P (if ?b then _ else _) => destruct b
           end; unfold P; cbn [editalTexto leiloeiro numeroItem dataLeilao1 dataLeilao2];
      (split; [|split; [|split; [|split]]]);
      first [assumption | apply trim_trimmed]. }
  destruct (relatedBox d) as [rb|]; [|exact Hinit].
  exact (@fold_left_inv _ _ P spansRel_step Hstep (rel_spans rb) _ Hinit).
Qed.

Lemma trimmed_pList (d : Document) :
  let pl := pList d in
  trimmed (enderecoCompleto pl) /\ trimmed (descricao pl) /\ trimmed (formasPagamento pl).
Proof.
  cbv zeta. unfold pList. cbv zeta.
  set (P := fun pl : PList =>
    trimmed (enderecoCompleto pl) /\ trimmed (descricao pl)
    /\ trimmed (formasPagamento pl)).
  assert (Hinit : P {| enderecoCompleto := []; descricao := []; formasPagamento := [] |}).
  { unfold P. cbn. repeat split. }
  assert (Hstep : forall st p, P st -> P (pList_step st p)).
  { intros st p (H1 & H2 & H3). unfold pList_step. cbv zeta.
    repeat match goal with
           | |- P (if ?b then _ else _) => destruct b
           end; unfold P; cbn [enderecoCompleto descricao formasPagamento];
      (split; [|split]); first [assumption | apply trim_trimmed]. }
  destruct (relatedBox d) as [rb|]; [|exact Hinit].
  exact (@fold_left_inv _ _ P pList_step Hstep (rel_p rb) _ Hinit).
Qed.

Lemma partes_trimmed (e p : jsstring) : In p (partes e) -> trimmed p /\ p <> [].
Proof.
  unfold partes. intros H. apply filter_In in H. destruct H as [H Ht].
  apply in_map_iff in H. destruct H as (x & <- & _).
  split; [apply trim_trimmed|]. intros E. rewrite E in Ht. discriminate Ht.
Qed.

Lemma trimmed_no_space (s : jsstring) :
  forallb (fun c => negb (isWhiteSpace c)) s = true -> trimmed s.
Proof.
  intros H. rewrite <- (@CanonFacts.trim_no_space s H). apply trim_trimmed.
Qed.

Lemma isUpperAZ_no_space (c : char16) :
  isUpperAZ c = true -> negb (isWhiteSpace c) = true.
Proof.
  unfold isUpperAZ, isWhiteSpace.
  CanonFacts.split_tests; intros; try reflexivity; try discriminate.
Qed.

Lemma last_In (A : Type) (l : list A) (d : A) : l <> [] -> In (last l d) l.
Proof.
  induction l as [|a l IH]; intros H; [contradiction|].
  destruct l as [|b l]; [left; reflexivity|].
  right. apply IH. discriminate.
Qed.

(** The state code the address pattern captures, in upper case. *)
Lemma estado_capture (u : jsstring) (m : match_result) :
  exec re_cidade_uf u = Some m ->
  List.length (toUpperCase (group_text 2 m)) = 2%nat
  /\ forallb isUpperAZ (toUpperCase (group_text 2 m)) = true.
Proof.
  intros Em.
  apply (@CaptureFacts.exec_captures 2 _ 2 (Some 2%nat) _ _ _
           (@CaptureFacts.bounded_exactly 2) CanonFacts.captures_cidade_uf) in Em.
  destruct Em as (Hall & Hmin & Hmax). specialize (Hmax 2%nat eq_refl).
  assert (Hup : toUpperCase (group_text 2 m) = map canonicalize (group_text 2 m)).
  { revert Hall. generalize (group_text 2 m). intros s.
    induction s as [|c s IH]; [reflexivity|]. cbn [forallb]. intros H.
    apply andb_prop in H. destruct H as [Hc Hs].
    unfold toUpperCase in *. cbn [flat_map map].
    rewrite (@CanonFacts.canonicalize_upper c Hc), (IH Hs). reflexivity. }
  rewrite Hup, length_map. split; [lia|].
  rewrite CanonFacts.forallb_map_compose. exact Hall.
Qed.

Lemma trimmed_quebrar_endereco (e : jsstring) :
  let r := quebrar_endereco e in
  trimmed (enderecoLogradouro r) /\ trimmed (enderecoNumero r)
  /\ trimmed (enderecoBairroTexto r) /\ trimmed (enderecoCep r)
  /\ trimmed (enderecoCidadeTexto r) /\ trimmed (enderecoEstadoTexto r).
Proof.
  cbv zeta. unfold quebrar_endereco.
  destruct (truthy e).
  2:{ cbn. repeat split. }
  assert (Hcep : trimmed (fst (separar_cep e))).
  { unfold separar_cep. destruct (exec re_cep e); [apply trim_trimmed|apply trimmed_nil]. }
  destruct (separar_cep e) as [cep e']. cbn [fst] in Hcep.
  set (parts := partes e').
  assert (Hparts : forall p, In p parts -> trimmed p).
  { intros p Hp. apply (partes_trimmed e' p Hp). }
  cbn [enderecoLogradouro enderecoNumero enderecoBairroTexto enderecoCep
       enderecoCidadeTexto enderecoEstadoTexto].
  split; [|split; [|split; [|split; [exact Hcep|]]]].
  - destruct parts as [|p0 ps]; [apply trimmed_nil|].
    cbn [nth]. apply Hparts. left. reflexivity.
  - destruct (nth_error parts 1); [|apply trimmed_nil].
    destruct (exec re_numero _); [apply trim_trimmed|apply trimmed_nil].
  - destruct (nth_error parts 2); [apply trim_trimmed|apply trimmed_nil].
  - destruct (Nat.leb_spec 4 (List.length parts)) as [Hlen|Hlen].
    2:{ cbn [fst snd]. split; apply trimmed_nil. }
    assert (Hne : parts <> []).
    { intros E. rewrite E in Hlen. cbn in Hlen. lia. }
    destruct (exec re_cidade_uf (last parts [])) as [m|] eqn:Em; cbn [fst snd].
    + split; [apply trim_trimmed|].
      destruct (estado_capture _ Em) as [_ Hup].
      apply trimmed_no_space. revert Hup. apply CanonFacts.forallb_impl.
      intros a. apply isUpperAZ_no_space.
    + split; [|apply trimmed_nil]. apply Hparts. apply last_In. exact Hne.
Qed.

Lemma trimmed_hidden_or (h : option jsstring) (fallback : jsstring) :
  trimmed fallback -> trimmed (hidden_or h fallback).
Proof.
  intros H. unfold hidden_or. destruct h as [v|]; [|exact H].
  destruct (truthy v); [apply trim_trimmed|exact H].
Qed.

(** ** The units of a normalized text *)

Lemma lower1_not_mark (c : char16) :
  isCombiningMark c = false -> isCombiningMark (lower1 c) = false.
Proof.
  unfold isCombiningMark, lower1.
  CanonFacts.split_tests; intros; try reflexivity; try discriminate; try lia.
Qed.

End FieldFacts.

Module FluxoFacts.
Import JS Regex Num Direct Scraper Shapes RowFacts SheetFacts.
Local Open Scope N_scope.

(** ** Array indices *)

Lemma uint_units_of_units (s : jsstring) :
  forallb isDigit s = true -> uint_units (uint_of_units s) = s.
Proof.
  induction s as [|c r IH]; [reflexivity|]. cbn [forallb]. intros H.
  apply andb_prop in H. destruct H as [Hc Hr]. cbn [uint_of_units].
  unfold isDigit in Hc. apply andb_prop in Hc. destruct Hc as [H1 H2].
  apply N.leb_le in H1. apply N.leb_le in H2.
  repeat (match goal with
          | |- context [N.eqb c ?a] => destruct (N.eqb_spec c a); [subst c|]
          end; [cbn [uint_units]; rewrite (IH Hr); reflexivity|]).
  cbn [uint_units]. rewrite (IH Hr). f_equal. lia.
Qed.

(** An array index is the value of one key only. *)
Lemma array_index_digits (k : jsstring) (n : N) :
  array_index k = Some n -> k = decimal_digits n.
Proof.
  unfold array_index. destruct k as [|c r]; [discriminate|].
  destruct (forallb isDigit (c :: r)) eqn:Hd; [|discriminate].
  cbn [andb]. destruct (negb (c =? 48) || negb (truthy r)) eqn:Hz; [|discriminate].
  destruct (digits_value (c :: r) <? 4294967295); [|discriminate].
  intros H. injection H as <-.
  rewrite <- (uint_units_of_units _ Hd) at 2. rewrite digits_value_uint.
  unfold decimal_digits. rewrite DecimalN.Unsigned.to_of.
  rewrite <- (uint_units_of_units _ Hd) at 1. f_equal.
  cbn [uint_of_units]. unfold Decimal.unorm.
  destruct (N.eqb_spec c 48) as [->|Hc].
  - cbn [negb orb] in Hz. destruct r; [reflexivity|discriminate Hz].
  - cbn [forallb] in Hd. apply andb_prop in Hd. destruct Hd as [Hc' _].
    unfold isDigit in Hc'. apply andb_prop in Hc'. destruct Hc' as [H1 H2].
    apply N.leb_le in H1. apply N.leb_le in H2.
    repeat (match goal with
            | |- context [N.eqb c ?a] => destruct (N.eqb_spec c a); [reflexivity|]
            end).
    reflexivity.
Qed.

Lemma array_index_inj (k k' : jsstring) (n : N) :
  array_index k = Some n -> array_index k' = Some n -> k = k'.
Proof.
  intros H H'. apply array_index_digits in H. apply array_index_digits in H'.
  congruence.
Qed.

(** ** Assignments to an object *)

Section Object.
Variable V : Type.
Implicit Types (o : list (jsstring * V)) (k : jsstring) (v : V).

Lemma obj_set_keys o k v (k' : jsstring) :
  In k' (map fst (obj_set o k v)) <-> k' = k \/ In k' (map fst o).
Proof.
  induction o as [|[k0 v0] r IH]; cbn [obj_set map fst In].
  - intuition.
  - destruct (streq k k0) eqn:E.
    + apply streq_true in E. subst k0. cbn [map fst In]. intuition.
    + destruct (array_index k) as [n|], (array_index k0) as [n0|];
        try destruct (n <? n0); cbn [map fst In]; rewrite ?IH; intuition.
Qed.

Lemma obj_set_In_new o k v : In (k, v) (obj_set o k v).
Proof.
  induction o as [|[k0 v0] r IH]; cbn [obj_set]; [left; reflexivity|].
  destruct (streq k k0) eqn:E.
  - apply streq_true in E. subst k0. left. reflexivity.
  - destruct (array_index k) as [n|], (array_index k0) as [n0|];
      try destruct (n <? n0); cbn [In]; auto.
Qed.

Lemma obj_set_In_old o k v (k' : jsstring) (v' : V) :
  k' <> k -> In (k', v') o -> In (k', v') (obj_set o k v).
Proof.
  intros Hne. induction o as [|[k0 v0] r IH]; cbn [obj_set]; [intros []|].
  intros Hin. destruct (streq k k0) eqn:E.
  - apply streq_true in E. subst k0. destruct Hin as [Hin|Hin]; [|right; exact Hin].
    injection Hin as <- _. contradiction.
  - destruct (array_index k) as [n|], (array_index k0) as [n0|];
      try destruct (n <? n0); cbn [In] in *; intuition.
Qed.

Lemma obj_set_In_inv o k v (k' : jsstring) (v' : V) :
  In (k', v') (obj_set o k v) -> (k' = k /\ v' = v) \/ In (k', v') o.
Proof.
  induction o as [|[k0 v0] r IH]; cbn [obj_set].
  - intros [H|[]]. injection H as <- <-. auto.
  - destruct (streq k k0) eqn:E.
    + apply streq_true in E. subst k0. intros [H|H]; [|right; right; exact H].
      injection H as <- <-. auto.
    + destruct (array_index k) as [n|], (array_index k0) as [n0|];
        try destruct (n <? n0); cbn [In]; intros H;
        repeat match goal with
               | H : _ \/ _ |- _ => destruct H as [H|H]
               | H : (_, _) = (_, _) |- _ => injection H as <- <-
               end; auto;
        try (apply IH in H; destruct H as [H|H]; auto).
Qed.

Lemma forallb_obj_set (p : jsstring -> bool) o k v :
  p k = true -> forallb p (map fst o) = true ->
  forallb p (map fst (obj_set o k v)) = true.
Proof.
  intros Hk Ho. apply forallb_forall. intros x Hx.
  apply obj_set_keys in Hx. destruct Hx as [->|Hx]; [exact Hk|].
  rewrite forallb_forall in Ho. apply Ho. exact Hx.
Qed.

Lemma precedes_trans_index (k k0 x : jsstring) (n n0 : N) :
  array_index k = Some n -> array_index k0 = Some n0 -> n < n0 ->
  precedes k0 x = true -> precedes k x = true.
Proof.
  unfold precedes. intros -> -> Hlt. destruct (array_index x) as [m|]; [|auto].
  intros H. apply N.ltb_lt in H. apply N.ltb_lt. lia.
Qed.

Lemma precedes_after_string (k k0 x : jsstring) (n : N) :
  array_index k = Some n -> array_index k0 = None ->
  precedes k0 x = true -> precedes k x = true.
Proof.
  unfold precedes. intros -> ->. destruct (array_index x); [discriminate|auto].
Qed.

Lemma precedes_irrefl_key (k x : jsstring) :
  precedes k x = true -> array_index k <> None -> x <> k.
Proof.
  unfold precedes. intros H Hk ->. destruct (array_index k) as [n|]; [|contradiction].
  apply N.ltb_lt in H. lia.
Qed.

Lemma obj_set_ordered o k v :
  ordered (map fst o) = true -> ordered (map fst (obj_set o k v)) = true.
Proof.
  induction o as [|[k0 v0] r IH]; cbn [obj_set map fst ordered]; intros H.
  - reflexivity.
  - apply andb_prop in H. destruct H as [Hk0 Hr].
    destruct (streq k k0) eqn:E.
    { cbn [map fst ordered]. rewrite Hk0, Hr. reflexivity. }
    assert (Hne : k <> k0).
    { intros ->. rewrite streq_refl in E. discriminate E. }
    destruct (array_index k) as [n|] eqn:Ek, (array_index k0) as [n0|] eqn:Ek0.
    + destruct (N.ltb_spec n n0) as [Hlt|Hge]; cbn [map fst ordered forallb].
      * rewrite Hk0, Hr, !Bool.andb_true_r.
        assert (Hp : precedes k k0 = true).
        { unfold precedes. rewrite Ek, Ek0. apply N.ltb_lt. exact Hlt. }
        rewrite Hp. cbn [andb]. apply forallb_forall. intros x Hx.
        rewrite forallb_forall in Hk0.
        eapply precedes_trans_index; [exact Ek|exact Ek0|exact Hlt|exact (Hk0 x Hx)].
      * rewrite (IH Hr), Bool.andb_true_r. apply forallb_obj_set; [|exact Hk0].
        unfold precedes. rewrite Ek0, Ek. apply N.ltb_lt.
        assert (n <> n0); [|lia]. intros ->.
        apply Hne. eapply array_index_inj; [exact Ek|exact Ek0].
    + cbn [map fst ordered forallb]. rewrite Hk0, Hr, !Bool.andb_true_r.
      assert (Hp : precedes k k0 = true).
      { unfold precedes. rewrite Ek, Ek0. reflexivity. }
      rewrite Hp. cbn [andb]. apply forallb_forall. intros x Hx.
      rewrite forallb_forall in Hk0.
      eapply precedes_after_string; [exact Ek|exact Ek0|exact (Hk0 x Hx)].
    + cbn [map fst ordered]. rewrite (IH Hr), Bool.andb_true_r.
      apply forallb_obj_set; [|exact Hk0].
      unfold precedes. rewrite Ek0, Ek. reflexivity.
    + cbn [map fst ordered]. rewrite (IH Hr), Bool.andb_true_r.
      apply forallb_obj_set; [|exact Hk0].
      unfold precedes. rewrite Ek0, Ek. reflexivity.
Qed.

Lemma obj_set_NoDup o k v :
  ordered (map fst o) = true -> NoDup (map fst o) ->
  NoDup (map fst (obj_set o k v)).
Proof.
  induction o as [|[k0 v0] r IH]; cbn [obj_set map fst ordered]; intros Ho H.
  - constructor; [intros []|constructor].
  - apply andb_prop in Ho. destruct Ho as [Hk0 Hr].
    inversion H as [|x l Hnotin Hnd]; subst.
    destruct (streq k k0) eqn:E; [exact H|].
    assert (Hne : k0 <> k).
    { intros ->. rewrite streq_refl in E. discriminate E. }
    assert (Hrec : NoDup (k0 :: map fst (obj_set r k v))).
    { constructor; [|apply IH; assumption].
      intros Hk. apply obj_set_keys in Hk. destruct Hk as [Hk|Hk]; auto. }
    rewrite forallb_forall in Hk0.
    destruct (array_index k) as [n|] eqn:Ek, (array_index k0) as [n0|] eqn:Ek0.
    + destruct (N.ltb_spec n n0) as [Hlt|Hge]; cbn [map fst]; [|exact Hrec].
      constructor; [|exact H]. intros [Hk|Hk]; [congruence|].
      assert (Hp : precedes k k = true)
        by (eapply precedes_trans_index; [exact Ek|exact Ek0|exact Hlt|exact (Hk0 k Hk)]).
      eapply precedes_irrefl_key; [exact Hp|rewrite Ek; discriminate|reflexivity].
    + cbn [map fst]. constructor; [|exact H]. intros [Hk|Hk]; [congruence|].
      assert (Hp : precedes k k = true)
        by (eapply precedes_after_string; [exact Ek|exact Ek0|exact (Hk0 k Hk)]).
      eapply precedes_irrefl_key; [exact Hp|rewrite Ek; discriminate|reflexivity].
    + exact Hrec.
    + exact Hrec.
Qed.

End Object.

(** ** The index of the cities *)

Lemma urlsPorCidade_app (l1 l2 : list (Cidade * Busca)) :
  urlsPorCidade (l1 ++ l2) = fold_left indexar l2 (urlsPorCidade l1).
Proof. unfold urlsPorCidade. apply fold_left_app. Qed.

Lemma fold_indexar_wf (l : list (Cidade * Busca)) :
  forall o, ordered (map fst o) = true -> NoDup (map fst o) ->
    ordered (map fst (fold_left indexar l o)) = true
    /\ NoDup (map fst (fold_left indexar l o))
    /\ (forall k, In k (map fst (fold_left indexar l o)) <->
                  In k (map fst o) \/ In k (map (fun cb => cidade_value (fst cb)) l))
    /\ (forall k i, In (k, i) o ->
          ~ In k (map (fun cb => cidade_value (fst cb)) l) ->
          In (k, i) (fold_left indexar l o)).
Proof.
  induction l as [|cb l IH]; intros o Ho Hnd; cbn [fold_left map In].
  - repeat split; auto. intros [H|[]]. exact H.
  - assert (Ho' : ordered (map fst (indexar o cb)) = true)
      by (apply obj_set_ordered; exact Ho).
    assert (Hnd' : NoDup (map fst (indexar o cb)))
      by (apply obj_set_NoDup; assumption).
    destruct (IH _ Ho' Hnd') as (H1 & H2 & H3 & H4).
    split; [exact H1|]. split; [exact H2|]. split.
    + intros k. rewrite H3. unfold indexar. rewrite obj_set_keys. intuition.
    + intros k i Hin Hnot. apply H4.
      * unfold indexar. apply obj_set_In_old; [|exact Hin].
        intros ->. apply Hnot. left. reflexivity.
      * intros Hk. apply Hnot. right. exact Hk.
Qed.

(** ** The detail loop *)

Lemma length_flat_map_option (A B : Type) (f : A -> option B) (l : list A) :
  (List.length (flat_map (fun a => match f a with Some b => [b] | None => [] end) l)
   <= List.length l)%nat
  /\ (Forall (fun a => f a <> None) l ->
      List.length (flat_map (fun a => match f a with Some b => [b] | None => [] end) l)
      = List.length l).
Proof.
  induction l as [|a l [IH1 IH2]]; [split; reflexivity|auto].
  cbn [flat_map]. rewrite length_app. split.
  - destruct (f a); cbn [List.length]; lia.
  - intros H. inversion H as [|x l' Ha Hl]; subst. rewrite (IH2 Hl).
    destruct (f a); [reflexivity|contradiction].
Qed.

Lemma fold_indexar_from (l : list (Cidade * Busca)) :
  forall o k i, In (k, i) (fold_left indexar l o) ->
    In (k, i) o
    \/ exists c b, In (c, b) l /\ k = cidade_value c
         /\ i = {| info_cidade := cidade_text c; info_urls := urls_da_busca b |}.
Proof.
  induction l as [|[c b] l IH]; intros o k i H; cbn [fold_left] in H; [auto|].
  apply IH in H. destruct H as [H|(c' & b' & Hin & Hk & Hi)].
  - unfold indexar in H. apply obj_set_In_inv in H. cbn [fst snd] in H.
    destruct H as [[-> ->]|H]; [|auto].
    right. exists c, b. split; [left; reflexivity|auto].
  - right. exists c', b'. split; [right; exact Hin|auto].
Qed.

Lemma In_combine_seq (A : Type) (l : list A) :
  forall s n (v : A), In (n, v) (combine (List.seq s (List.length l)) l) ->
    (s <= n)%nat /\ nth_error l (n - s) = Some v.
Proof.
  induction l as [|a l IH]; intros s n v H; [destruct H|].
  cbn [List.length List.seq combine In] in H. destruct H as [H|H].
  - injection H as <- <-. rewrite Nat.sub_diag. split; [lia|reflexivity].
  - apply IH in H. destruct H as [Hle Hn]. split; [lia|].
    replace (n - s)%nat with (S (n - S s)) by lia. exact Hn.
Qed.

End FluxoFacts.

Module MinusFacts.
Import JS Regex Num Direct Scraper Shapes NumFacts SignFacts.
Local Open Scope N_scope.

Lemma no_hyphen_app (a b : jsstring) :
  no_hyphen (a ++ b) = no_hyphen a && no_hyphen b.
Proof. unfold no_hyphen. rewrite existsb_app, Bool.negb_orb. reflexivity. Qed.

Lemma no_hyphen_digits (s : jsstring) : forallb isDigit s = true -> no_hyphen s = true.
Proof.
  unfold no_hyphen. induction s as [|c r IH]; [reflexivity|].
  cbn [forallb existsb]. intros H. apply andb_prop in H. destruct H as [Hc Hr].
  apply IH in Hr. apply Bool.negb_true_iff in Hr. rewrite Hr, Bool.orb_false_r.
  unfold isDigit in Hc. apply andb_prop in Hc. destruct Hc as [Hc _].
  apply N.leb_le in Hc. apply Bool.negb_true_iff. apply N.eqb_neq. lia.
Qed.

Lemma no_hyphen_firstn (n : nat) (s : jsstring) :
  no_hyphen s = true -> no_hyphen (firstn n s) = true.
Proof.
  unfold no_hyphen. revert s. induction n as [|n IH]; intros s H; [reflexivity|].
  destruct s as [|c r]; [reflexivity|]. cbn [firstn existsb] in *.
  apply Bool.negb_true_iff in H. apply Bool.orb_false_iff in H. destruct H as [Hc Hr].
  rewrite Hc. cbn [orb]. apply IH. rewrite Hr. reflexivity.
Qed.

Lemma no_hyphen_skipn (n : nat) (s : jsstring) :
  no_hyphen s = true -> no_hyphen (skipn n s) = true.
Proof.
  unfold no_hyphen. intros H. apply Bool.negb_true_iff in H.
  apply Bool.negb_true_iff. apply existsb_skipn. exact H.
Qed.

Lemma no_hyphen_rev (s : jsstring) : no_hyphen (rev s) = no_hyphen s.
Proof.
  induction s as [|c r IH]; [reflexivity|]. cbn [rev].
  rewrite no_hyphen_app, IH. unfold no_hyphen. cbn [existsb].
  rewrite Bool.orb_false_r, Bool.negb_orb. apply Bool.andb_comm.
Qed.

Lemma no_hyphen_strip (s : jsstring) :
  no_hyphen s = true -> no_hyphen (strip_zeros_rev s) = true.
Proof.
  induction s as [|c r IH]; [auto|]. cbn [strip_zeros_rev]. intros H.
  destruct (c =? 48); [|exact H]. apply IH.
  unfold no_hyphen in *. cbn [existsb] in H.
  apply Bool.negb_true_iff in H. apply Bool.orb_false_iff in H.
  destruct H as [_ H]. rewrite H. reflexivity.
Qed.

Lemma no_hyphen_decimal (n : N) : no_hyphen (decimal_digits n) = true.
Proof. apply no_hyphen_digits. apply uint_units_digits. Qed.

Lemma no_hyphen_repeat (n : nat) : no_hyphen (repeat 48 n) = true.
Proof. apply no_hyphen_digits. apply forallb_repeat. reflexivity. Qed.

Lemma no_hyphen_fixed_digits (fd : nat) (n : N) : no_hyphen (fixed_digits fd n) = true.
Proof.
  unfold fixed_digits. cbv zeta.
  set (ds := repeat 48 _ ++ decimal_digits n).
  assert (Hds : no_hyphen ds = true).
  { subst ds. rewrite no_hyphen_app, no_hyphen_repeat, no_hyphen_decimal. reflexivity. }
  destruct fd; [exact Hds|].
  rewrite !no_hyphen_app, (no_hyphen_firstn _ _ Hds), (no_hyphen_skipn _ _ Hds).
  reflexivity.
Qed.

Lemma no_hyphen_exponential (v : N) : no_hyphen (exponential v) = true.
Proof.
  unfold exponential. cbv zeta.
  assert (Hr : no_hyphen (rev (strip_zeros_rev (rev (decimal_digits v)))) = true).
  { rewrite no_hyphen_rev. apply no_hyphen_strip. rewrite no_hyphen_rev.
    apply no_hyphen_decimal. }
  destruct (rev (strip_zeros_rev (rev (decimal_digits v)))) as [|d [|d' r]].
  - apply no_hyphen_decimal.
  - rewrite !no_hyphen_app, Hr, no_hyphen_decimal. reflexivity.
  - assert (Hd : no_hyphen [d] = true).
    { apply (no_hyphen_firstn 1) in Hr. exact Hr. }
    assert (Hrest : no_hyphen (d' :: r) = true).
    { apply (no_hyphen_skipn 1) in Hr. exact Hr. }
    rewrite !no_hyphen_app, Hd, Hrest, no_hyphen_decimal. reflexivity.
Qed.

Lemma no_hyphen_shortest (x : number) (X : N) :
  forall fuel k, no_hyphen (shortest fuel k x X) = true.
Proof.
  induction fuel as [|f IH]; intros k; cbn [shortest]; [apply no_hyphen_exponential|].
  cbv zeta.
  repeat match goal with
         | |- no_hyphen (if ?b then _ else _) = true => destruct b
         end; try apply no_hyphen_exponential. apply IH.
Qed.

Lemma no_hyphen_toString_large (x : number) : no_hyphen (toString_large x) = true.
Proof.
  destruct x as [s|s| |s m e]; cbn [toString_large]; try reflexivity.
  apply no_hyphen_shortest.
Qed.

(** A number that is not below zero is written without a minus sign. *)
Lemma no_hyphen_toFixed (fd : nat) (x : number) :
  ltb x zero = false -> no_hyphen (toFixed fd x) = true.
Proof.
  intros Hx. unfold toFixed.
  destruct x as [s|s| |s m e];
    [apply no_hyphen_fixed_digits| |reflexivity|]; rewrite Hx; cbv zeta; cbn [app].
  - destruct (leb _ _); [apply no_hyphen_toString_large|reflexivity].
  - destruct (leb _ _); [apply no_hyphen_toString_large|].
    cbn [SFabs]. apply no_hyphen_fixed_digits.
Qed.

Lemma no_hyphen_toFixed2_comma (x : number) :
  ltb x zero = false -> no_hyphen (toFixed2_comma x) = true.
Proof.
  intros Hx. unfold toFixed2_comma. pose proof (no_hyphen_toFixed 2 x Hx) as H.
  unfold no_hyphen in *. apply Bool.negb_true_iff in H. apply Bool.negb_true_iff.
  apply existsb_replace_first; [reflexivity|exact H].
Qed.

End MinusFacts.

Module SpanFacts.
Import JS Regex Num Direct Scraper Shapes RegexFacts TextFacts CaptureFacts CanonFacts.
Local Open Scope N_scope.

(** A pattern that begins with [^] matches at the start or nowhere. *)
Lemma search_bol (r : regex) (s : jsstring) :
  forall i, (0 < i)%nat -> search (Seq Bol r) i s = None.
Proof.
  assert (H : forall i t, (0 < i)%nat -> match_at (Seq Bol r) (i, t) = None).
  { intros i t Hi. unfold match_at. rewrite matcher_Seq. cbn [matcher fst].
    destruct i; [lia|reflexivity]. }
  induction s as [|c s IH]; intros i Hi; cbn [search]; rewrite (H _ _ Hi);
    [reflexivity|]. apply IH. lia.
Qed.

Lemma exec_bol (r : regex) (s : jsstring) :
  exec (Seq Bol r) s = match_at (Seq Bol r) (0%nat, s).
Proof.
  unfold exec. destruct s as [|c s]; cbn [search];
    destruct (match_at (Seq Bol r) _); try reflexivity.
  apply search_bol. lia.
Qed.

(** The unit whose upper case begins with a given ASCII capital other than
    S, which also begins the upper case of U+00DF. *)
Lemma upper1_head_ascii (c h : char16) :
  65 <= h <= 90 -> h <> 83 -> hd_error (upper1 c) = Some h ->
  upper1 c = [h] /\ canonicalize c = h.
Proof.
  intros Hh Hs. unfold canonicalize, upper1.
  split_tests; cbn [hd_error]; intros Hhd; injection Hhd as Hhd; subst;
    try (split; reflexivity); try lia.
Qed.

Lemma startsWith_cons (s p : jsstring) (x : char16) :
  startsWith s (x :: p) = true ->
  exists r, s = x :: r /\ startsWith r p = true.
Proof.
  destruct s as [|y r]; cbn [startsWith]; [discriminate|].
  intros H. apply andb_prop in H. destruct H as [Hx Hr].
  apply N.eqb_eq in Hx. subst y. eauto.
Qed.

(** A text whose upper case begins with two given ASCII capitals begins
    with two units that have them as canonical forms. *)
Lemma toUpperCase_two (t rest : jsstring) (h1 h2 : char16) :
  65 <= h1 <= 90 -> h1 <> 83 -> 65 <= h2 <= 90 -> h2 <> 83 ->
  startsWith (toUpperCase t) (h1 :: h2 :: rest) = true ->
  exists c1 c2 t', t = c1 :: c2 :: t'
    /\ canonicalize c1 = h1 /\ canonicalize c2 = h2.
Proof.
  intros H1 S1 H2 S2 H. apply startsWith_cons in H. destruct H as (r1 & E1 & H).
  destruct t as [|c1 t]; [discriminate E1|].
  unfold toUpperCase in E1. cbn [flat_map] in E1.
  assert (Hd1 : hd_error (upper1 c1) = Some h1).
  { destruct (upper1 c1) as [|u us] eqn:Eu.
    - exfalso. revert Eu. unfold upper1. split_tests; discriminate.
    - cbn [app] in E1. injection E1 as -> _. reflexivity. }
  destruct (@upper1_head_ascii c1 h1 H1 S1 Hd1) as [Eu1 Ec1].
  rewrite Eu1 in E1. cbn [app] in E1. injection E1 as E1. subst r1.
  apply startsWith_cons in H. destruct H as (r2 & E2 & _).
  destruct t as [|c2 t]; [discriminate E2|]. cbn [flat_map] in E2.
  assert (Hd2 : hd_error (upper1 c2) = Some h2).
  { destruct (upper1 c2) as [|u us] eqn:Eu.
    - exfalso. revert Eu. unfold upper1. split_tests; discriminate.
    - cbn [app] in E2. injection E2 as -> _. reflexivity. }
  destruct (@upper1_head_ascii c2 h2 H2 S2 Hd2) as [_ Ec2].
  exists c1, c2, t. auto.
Qed.

(** [/^Número do item:\s*/i] does not match a text whose second unit is a
    plain U. *)
Lemma numero_item_unaccented (c1 c2 : char16) (t : jsstring) :
  canonicalize c2 = 85 -> replace re_numero_item [] (c1 :: c2 :: t) = c1 :: c2 :: t.
Proof.
  intros H2. unfold replace.
  match goal with
  | |- context [exec ?r ?s] => assert (E : exec r s = None)
  end.
  { unfold re_numero_item. cbn [seq]. rewrite exec_bol.
    unfold match_at. rewrite matcher_Seq.
    change (matcher Bol (0%nat, c1 :: c2 :: t) [] ?k) with (k (0%nat, c1 :: c2 :: t) []).
    cbv beta. rewrite matcher_Seq.
    assert (Elit : exists R, lit_i "Número do item:" = Seq (chr_i 78) (Seq (chr_i 250) R)).
    { eexists. reflexivity. }
    destruct Elit as [R ->]. rewrite !matcher_Seq. unfold chr_i at 1.
    rewrite matcher_Class_cons. destruct (_ =? _); [|reflexivity].
    rewrite matcher_Seq. unfold chr_i at 1. rewrite matcher_Class_cons.
    rewrite H2. reflexivity. }
  rewrite E. reflexivity.
Qed.

End SpanFacts.

(* ================================================================== *)
(** * The properties of the specification *)
(* ================================================================== *)

Import JS Regex Num Direct Scraper SyncWP.


Module ValorFacts.
Import NumFacts.

Lemma candidatos_In (text : jsstring) (c : number) :
  In c (candidatos text) <->
  vMin1 text = Some c \/ vMin2 text = Some c \/ vMinGen text = Some c.
Proof.
  unfold candidatos. cbn [flat_map].
  destruct (vMin1 text) as [a|], (vMin2 text) as [b|], (vMinGen text) as [g|];
    cbn; split; intros H;
    repeat match goal with
           | H : _ \/ _ |- _ => destruct H
           | H : Some _ = Some _ |- _ => injection H as <-
           | H : False |- _ => destruct H
           | H : None = Some _ |- _ => discriminate H
           end; subst; auto 6.
Qed.

Lemma parseBRL_notNaN (s : option jsstring) (x : number) :
  parseBRL s = Some x -> notNaN x.
Proof.
  unfold parseBRL. cbv zeta. destruct (isNaN (parseFloat _)) eqn:E; [discriminate|].
  intros H. injection H as <-. exact E.
Qed.

Lemma candidatos_notNaN (text : jsstring) : Forall notNaN (candidatos text).
Proof.
  apply Forall_forall. intros c Hc. apply candidatos_In in Hc.
  destruct Hc as [H|[H|H]]; apply parseBRL_notNaN in H; exact H.
Qed.

End ValorFacts.


Ltac sync_leaf :=
  cbn [missing negb orb exit requests console List.length nonzero_exit];
  (split; [|split; [|split; [|split; [|split]]]]);
  try solve [auto | lia | discriminate | intros; discriminate
            | intros [?|?]; discriminate
            | intros ? ? ? ? [?|[? ?]]; congruence
            | intros; congruence
            | split; [discriminate|];
              intros (u' & t' & f' & txt' & v' & res' & H1 & H2 & H3 & H4 & H5 & H6 & H7 & H8);
              congruence ].









(** C4, amended.  [parseBRL] maps "1.234,56" to the number 1234.56 (the
    binary64 value nearest to it), and it is total: for every input, also an
    absent one, it returns either a number that is not NaN or no value.  It
    returns no value exactly when the text that is left after dropping every
    character other than digits, commas, periods and hyphens, dropping the
    periods and turning the first comma into a period does not begin with a
    number (a digit, or a period and a digit, after an optional hyphen); this
    is so for every input without a digit. *)
Theorem parseBRL_total_lenient :
  parseBRL (Some (js "1.234,56")) = Some (of_decimal false 123456 (-2))
  /\ of_decimal false 123456 (-2) = S754_finite false 5429652300748554 (-42)
  /\ (Z.abs (5429652300748554 * 100 - 123456 * 2 ^ 42) * 2 <= 100)%Z
  /\ parseBRL None = None
  /\ (forall s, parseBRL s = None <-> starts_number (brl_text s) = false)
  /\ (forall s x, parseBRL s = Some x ->
        x = parseFloat (brl_text s) /\ notNaN x)
  /\ (forall s, existsb isDigit (or_empty s) = false -> parseBRL s = None).
Proof.
  assert (Hnone : forall s, parseBRL s = None <-> starts_number (brl_text s) = false).
  { intros s. rewrite ParseFacts.parseBRL_direct.
    rewrite (ParseFacts.parseFloat_money (ParseFacts.brl_text_moneyChar s)).
    destruct (starts_number (brl_text s)); cbn; split; congruence. }
  split; [vm_compute; reflexivity|]. split; [vm_compute; reflexivity|].
  split; [vm_compute; discriminate|]. split; [vm_compute; reflexivity|].
  split; [exact Hnone|]. split.
  - intros s x. rewrite ParseFacts.parseBRL_direct.
    destruct (isNaN (parseFloat (brl_text s))) eqn:E; [discriminate|].
    intros H. injection H as <-. split; [reflexivity|exact E].
  - intros s H. apply Hnone.
    destruct (starts_number (brl_text s)) eqn:E; [|reflexivity].
    apply ParseFacts.starts_number_digit, ParseFacts.brl_text_digit in E.
    congruence.
Qed.

Lemma parseBRL_total_lenient_witness :
  existsb isDigit (or_empty (Some (js "R$ --,--"))) = false
  /\ parseBRL (Some (js "R$ --,--")) = None.
Proof.
  split; [reflexivity|].
  apply (proj2 (proj2 (proj2 (proj2 (proj2 (proj2 parseBRL_total_lenient)))))).
  reflexivity.
Defined.

(** C4, as stated, fails on malformed amounts that hold digits: "12abc34"
    and "1,2,3" are no Brazilian currency amounts, and they are read as 1234
    and as 1.2. *)
Lemma parseBRL_reads_malformed :
  brl_amount (js "12abc34") = false
  /\ parseBRL (Some (js "12abc34")) = Some (of_Z 1234)
  /\ brl_amount (js "1,2,3") = false
  /\ parseBRL (Some (js "1,2,3")) = Some (of_decimal false 12 (-1))
  /\ brl_amount (js "1.234,56") = true.
Proof. repeat split; vm_compute; reflexivity. Qed.




(** C6.  The address "Rua A, Nº 123, Bairro B, CEP: 12345-000, Cidade C - RO"
    decomposes into street "Rua A", number "123", neighbourhood "Bairro B",
    postal code "12345-000", city "Cidade C" and state "RO": the CEP token is
    captured and removed first, what remains is split on commas into four
    parts, and the last part is split on the City - UF pattern. *)
Theorem quebrar_endereco_example :
  let e := js "Rua A, Nº 123, Bairro B, CEP: 12345-000, Cidade C - RO" in
  separar_cep e = (js "12345-000", js "Rua A, Nº 123, Bairro B, , Cidade C - RO")
  /\ partes (snd (separar_cep e)) = [js "Rua A"; js "Nº 123"; js "Bairro B"; js "Cidade C - RO"]
  /\ quebrar_endereco e =
     {| enderecoLogradouro := js "Rua A";
        enderecoNumero := js "123";
        enderecoBairroTexto := js "Bairro B";
        enderecoCep := js "12345-000";
        enderecoCidadeTexto := js "Cidade C";
        enderecoEstadoTexto := js "RO" |}
  /\ (let r := dados Exemplos.detalhe None in
      (_imoveis_endereco_logradouro r, _imoveis_endereco_numero r,
       _imoveis_endereco_bairro_texto r, _imoveis_cep r,
       _imoveis_endereco_cidade_texto r, _imoveis_endereco_estado_texto r)
      = (js "Rua A", js "123", js "Bairro B", js "12345-000", js "Cidade C", js "RO")).
Proof. repeat split; vm_compute; reflexivity. Qed.


(** C7, amended.  For every list of lines and every label, the lookup takes
    the first line whose normalized form contains the normalized label and
    returns, trimmed, the text between the first and the second colon of
    that line (all the text behind the first colon when the line has no
    second one); it returns the empty string when no line matches. *)
Theorem getValueAfterLabel_between_colons :
  forall (arr : list jsstring) (label : jsstring),
    getValueAfterLabel arr label =
    match find (fun t => includes (norm (Some t)) (norm (Some label))) arr with
    | Some row => trim (before_colon (after_colon row))
    | None => []
    end
    /\ ((forall row, In row arr -> existsb (N.eqb 58) (after_colon row) = false) ->
        getValueAfterLabel arr label = getValueAfterLabel_spec arr label).
Proof.
  intros arr label.
  assert (Hfind :
    find (fun t => startsWith (norm (Some t)) (norm (Some label))
                   || includes (norm (Some t)) (norm (Some label))) arr
    = find (fun t => includes (norm (Some t)) (norm (Some label))) arr).
  { apply LabelFacts.find_ext. intros t. apply LabelFacts.startsWith_includes. }
  assert (Hmain : getValueAfterLabel arr label =
    match find (fun t => includes (norm (Some t)) (norm (Some label))) arr with
    | Some row => trim (before_colon (after_colon row))
    | None => []
    end).
  { unfold getValueAfterLabel. cbv zeta. rewrite Hfind. clear Hfind.
    destruct (find _ arr) as [row|]; [|reflexivity].
    rewrite LabelFacts.second_part.
    destruct row; reflexivity. }
  split; [exact Hmain|].
  intros Hone. rewrite Hmain. unfold getValueAfterLabel_spec. cbv zeta.
  rewrite Hfind. clear Hfind Hmain.
  destruct (find _ arr) as [row|] eqn:E; [|reflexivity].
  apply find_some in E. destruct E as [E _].
  rewrite (LabelFacts.before_colon_id _ (Hone row E)). reflexivity.
Qed.

Lemma getValueAfterLabel_between_colons_witness :
  (forall row, In row [js "Quartos: 3"; js "Garagem : 1 vaga"] ->
     existsb (N.eqb 58) (after_colon row) = false)
  /\ getValueAfterLabel [js "Quartos: 3"; js "Garagem : 1 vaga"] (js "Garagem") = js "1 vaga"
  /\ getValueAfterLabel [js "Quartos: 3"; js "Garagem : 1 vaga"] (js "Garagem")
     = getValueAfterLabel_spec [js "Quartos: 3"; js "Garagem : 1 vaga"] (js "Garagem").
Proof.
  assert (H : forall row, In row [js "Quartos: 3"; js "Garagem : 1 vaga"] ->
                existsb (N.eqb 58) (after_colon row) = false).
  { intros row [<-|[<-|[]]]; vm_compute; reflexivity. }
  split; [exact H|]. split; [vm_compute; reflexivity|].
  apply (proj2 (getValueAfterLabel_between_colons
                  [js "Quartos: 3"; js "Garagem : 1 vaga"] (js "Garagem"))).
  exact H.
Defined.

(** C7, as stated, fails on a line with a second colon: the lookup returns
    the text up to that colon, not all the text behind the first one. *)
Lemma getValueAfterLabel_second_colon :
  getValueAfterLabel [js "Tipo de imóvel: Casa"; js "Comarca: Porto Velho: RO"]
                     (js "Comarca") = js "Porto Velho"
  /\ getValueAfterLabel_spec [js "Tipo de imóvel: Casa"; js "Comarca: Porto Velho: RO"]
                             (js "Comarca") = js "Porto Velho: RO".
Proof. split; vm_compute; reflexivity. Qed.


(** C8.  Every row handed to the sheet writer has exactly the fields of
    [campos], in that order, whatever fields the record had; each cell is the
    sanitized value of the record's field: the empty string for an absent
    value, and otherwise the text with every line break turned into a space,
    every run of two or more white-space units turned into one space, and
    trimmed, so that a cell holds no line break, no two white-space units in a
    row and no white space at either end. *)
Theorem rows_fixed_schema_sanitized :
  forall detalhes : list jsobject,
    List.length (rows detalhes) = List.length detalhes
    /\ (forall i det, nth_error detalhes i = Some det ->
          exists row, nth_error (rows detalhes) i = Some row
            /\ map fst row = campos
            /\ forall campo, In campo campos ->
                 get row campo = Str (sanitize (get det campo)))
    /\ (forall v : jsvalue,
          Forall noNewline (sanitize v)
          /\ spaced false (sanitize v) = true
          /\ trimmed (sanitize v))
    /\ sanitize Undefined = [] /\ sanitize Null = []
    /\ (forall s, sanitize (Str s) =
          trim (squeeze2 isWhiteSpace (js " ") false (newlines (js " ") s))).
Proof.
  intros detalhes. split; [apply length_map|]. split; [|split].
  - intros i det Hi. exists (row_of det). split; [|split].
    + unfold rows. rewrite nth_error_map, Hi. reflexivity.
    + rewrite RowFacts.row_of_eq, map_map. cbn [fst]. apply map_id.
    + intros campo Hc. rewrite RowFacts.row_of_eq.
      apply (RowFacts.get_map (fun campo => Str (sanitize (get det campo)))), Hc.
  - apply RowFacts.sanitize_clean.
  - repeat split. apply RegexFacts.sanitize_direct.
Qed.

Lemma rows_fixed_schema_sanitized_witness :
  let det : jsobject :=
    [(js "_imoveis_titulo", Str (js "  Casa
 com   quintal ")); (js "_imoveis_quartos", Null)] in
  nth_error [det] 0 = Some det
  /\ (exists row, nth_error (rows [det]) 0 = Some row
        /\ map fst row = campos
        /\ forall campo, In campo campos ->
             get row campo = Str (sanitize (get det campo)))
  /\ sanitize (get det (js "_imoveis_titulo")) = js "Casa com quintal"
  /\ sanitize (get det (js "_imoveis_quartos")) = []
  /\ sanitize (get det (js "_imoveis_bairro")) = [].
Proof.
  cbv zeta. split; [reflexivity|]. split.
  - apply (proj1 (proj2 (rows_fixed_schema_sanitized _)) 0%nat). reflexivity.
  - repeat split; vm_compute; reflexivity.
Defined.





(** C10.  In every record the extractor returns, the two discount fields
    hold the same string, also when the record is read as the object the
    sheet writer receives. *)
Theorem desconto_fields_equal :
  forall (page : Page) (url : jsstring) (meta : option Meta) (r : PropertyRecord),
    extrairDetalhesImovel page url meta = Some r ->
    _imoveis_desconto_percentual r = _imoveis_desconto_pct r
    /\ get (object_of r) (js "_imoveis_desconto_percentual")
       = get (object_of r) (js "_imoveis_desconto_pct").
Proof.
  intros page url meta r H. unfold extrairDetalhesImovel in H.
  destruct (page url) as [d|]; [|discriminate].
  injection H as <-. split; reflexivity.
Qed.

Lemma desconto_fields_equal_witness :
  extrairDetalhesImovel Exemplos.pagina Exemplos.url_detalhe None
    = Some (dados Exemplos.detalhe None)
  /\ _imoveis_desconto_percentual (dados Exemplos.detalhe None) = js "20,00%"
  /\ (_imoveis_desconto_percentual (dados Exemplos.detalhe None)
      = _imoveis_desconto_pct (dados Exemplos.detalhe None)
      /\ get (object_of (dados Exemplos.detalhe None)) (js "_imoveis_desconto_percentual")
         = get (object_of (dados Exemplos.detalhe None)) (js "_imoveis_desconto_pct")).
Proof.
  split; [vm_compute; reflexivity|]. split; [vm_compute; reflexivity|].
  apply (desconto_fields_equal Exemplos.pagina Exemplos.url_detalhe None).
  vm_compute. reflexivity.
Defined.


(* ================================================================== *)
(** * Further properties of the code *)
(* ================================================================== *)

Import Shapes.

Module ValorSign.

(** The sign of the two numbers the value block computes. *)
Lemma valores_sign (text : jsstring) (v : number) :
  vAval text = Some v \/ vMinGeral text = Some v ->
  negative v = false /\ notNaN v.
Proof.
  assert (Hcap : forall r, In r [re_aval; re_min1; re_min2; re_min_generic] ->
            no_hyphen (captured (exec r text)) = true).
  { intros r Hr. apply SignFacts.money_no_hyphen.
    apply (@CanonFacts.captured_money r text Hr). }
  assert (Hgen : no_hyphen (valorMinimoGenerico text) = true).
  { unfold valorMinimoGenerico, matchMin1, matchMin2, matchMinGeneric.
    destruct (exec re_min1 text); [reflexivity|].
    destruct (exec re_min2 text); [reflexivity|].
    apply (Hcap re_min_generic). cbn; auto 6. }
  assert (Hparse : forall x,
            vAval text = Some x \/ vMin1 text = Some x \/ vMin2 text = Some x
            \/ vMinGen text = Some x ->
            negative x = false /\ notNaN x).
  { intros x Hx. split.
    - destruct Hx as [Hx|[Hx|[Hx|Hx]]];
        (eapply SignFacts.parseBRL_sign; [|exact Hx]); cbn [or_empty].
      + apply (Hcap re_aval). cbn; auto.
      + apply (Hcap re_min1). cbn; auto.
      + apply (Hcap re_min2). cbn; auto.
      + exact Hgen.
    - destruct Hx as [Hx|[Hx|[Hx|Hx]]];
        exact (ValorFacts.parseBRL_notNaN _ Hx). }
  intros [H|H]; [apply Hparse; auto|].
  unfold vMinGeral in H.
  destruct (candidatos text) as [|c cs] eqn:E; [discriminate H|].
  injection H as <-.
  assert (Hne : c :: cs <> []) by discriminate.
  pose proof (ValorFacts.candidatos_notNaN text) as Hnn. rewrite E in Hnn.
  destruct (NumFacts.Math_min_spec Hne Hnn) as (_ & Hin & _).
  rewrite <- E in Hin |- *. apply ValorFacts.candidatos_In in Hin.
  apply Hparse. right. exact Hin.
Qed.

End ValorSign.

(** X1.  Every URL the collector returns is the detail address of an
    identifier that is a non-empty run of decimal digits, read from the
    handler of an item of one of the pages 1 to [total]. *)
Theorem coletarUrlsCidade_digit_ids (total : nat) (lista : nat -> list Item)
    (u : jsstring) :
  In u (coletarUrlsCidade total lista) ->
  exists id p it,
    u = urlDet id /\ id <> [] /\ forallb isDigit id = true
    /\ (1 <= p <= total)%nat /\ In it (lista p) /\ idImovel it = Some id.
Proof.
  intros H. unfold coletarUrlsCidade in H.
  rewrite CollectFacts.coletar_paginas_fold, CollectFacts.urls_of_ids in H.
  destruct (@CollectFacts.fold_Set_add (map urlDet (ids_lidos total lista)) []
              (NoDup_nil _)) as [_ Hin].
  apply Hin in H. destruct H as [[]|H].
  apply in_map_iff in H. destruct H as (id & Hu & Hid).
  unfold ids_lidos in Hid. apply in_flat_map in Hid. destruct Hid as (p & Hp & Hid).
  apply in_flat_map in Hid. destruct Hid as (it & Hit & Hid).
  apply in_seq in Hp.
  destruct (idImovel it) as [i|] eqn:E; [|destruct Hid].
  destruct Hid as [Hid|[]]. subst i.
  exists id, p, it.
  assert (Hshape : id <> [] /\ forallb isDigit id = true).
  { unfold idImovel in E. destruct (link_onclick it) as [oc|]; [|discriminate E].
    destruct (exec re_detalhe_imovel (or_empty oc)) as [m|] eqn:Em; [|discriminate E].
    injection E as <-.
    apply (@CaptureFacts.exec_captures 1 isDigit 1 None _ _ _
             (@CaptureFacts.bounded_None 1) CanonFacts.captures_detalhe_imovel) in Em.
    destruct Em as (Hall & Hlen & _). split; [|exact Hall].
    intros E0. rewrite E0 in Hlen. cbn in Hlen. lia. }
  destruct Hshape as [Hne Hdig].
  repeat split; auto; lia.
Qed.

Lemma coletarUrlsCidade_digit_ids_witness :
  let lista := fun _ : nat =>
    [ {| link_onclick := Some (Some (js "javascript:detalhe_imovel(8787700000001);")) |} ] in
  In Exemplos.url_detalhe (coletarUrlsCidade 1 lista)
  /\ exists id p it,
       Exemplos.url_detalhe = urlDet id /\ id <> [] /\ forallb isDigit id = true
       /\ (1 <= p <= 1)%nat /\ In it (lista p) /\ idImovel it = Some id.
Proof.
  cbv zeta.
  assert (H : In Exemplos.url_detalhe
                (coletarUrlsCidade 1 (fun _ : nat =>
                   [ {| link_onclick :=
                          Some (Some (js "javascript:detalhe_imovel(8787700000001);")) |} ]))).
  { vm_compute. left. reflexivity. }
  split; [exact H|].
  exact (coletarUrlsCidade_digit_ids 1 _ _ H).
Defined.

(** X2.  The four value strings of the value block hold only digits,
    periods and commas, and each of the first three is empty exactly when
    its pattern does not match the text. *)
Theorem valores_capturados_shape (text : jsstring) :
  Forall (fun v => forallb isMoneyChar v = true)
    [valorAvaliacao text; valorMinimo1 text; valorMinimo2 text;
     valorMinimoGenerico text]
  /\ (valorAvaliacao text = [] <-> matchAval text = None)
  /\ (valorMinimo1 text = [] <-> matchMin1 text = None)
  /\ (valorMinimo2 text = [] <-> matchMin2 text = None)
  /\ (valorMinimoGenerico text <> [] ->
        matchMin1 text = None /\ matchMin2 text = None
        /\ matchMinGeneric text <> None).
Proof.
  assert (Ha := @CanonFacts.captured_money re_aval text ltac:(cbn; auto)).
  assert (H1 := @CanonFacts.captured_money re_min1 text ltac:(cbn; auto)).
  assert (H2 := @CanonFacts.captured_money re_min2 text ltac:(cbn; auto)).
  assert (Hg := @CanonFacts.captured_money re_min_generic text ltac:(cbn; auto 6)).
  unfold valorAvaliacao, valorMinimo1, valorMinimo2, valorMinimoGenerico,
    matchAval, matchMin1, matchMin2, matchMinGeneric.
  split; [|split; [apply Ha|split; [apply H1|split; [apply H2|]]]].
  - repeat constructor; try apply Ha; try apply H1; try apply H2.
    destruct (exec re_min1 text); [reflexivity|].
    destruct (exec re_min2 text); [reflexivity|].
    exact (proj1 Hg).
  - destruct (exec re_min1 text); [intros H; contradiction|].
    destruct (exec re_min2 text); [intros H; contradiction|].
    destruct (exec re_min_generic text); [|intros H; contradiction].
    intros _. repeat split. discriminate.
Qed.

(** X3.  Neither the appraisal nor the overall minimum the value block
    computes is ever NaN or below zero. *)
Theorem valores_nunca_negativos (text : jsstring) (v : number) :
  vAval text = Some v \/ vMinGeral text = Some v ->
  ltb v zero = false /\ notNaN v.
Proof.
  intros H. destruct (ValorSign.valores_sign text H) as [Hs Hn].
  split; [apply SignFacts.negative_ltb; exact Hs|exact Hn].
Qed.

Lemma valores_nunca_negativos_witness :
  let text := js "Valor de avaliação: R$ 100.000,00 Valor mínimo de venda: R$ 80.000,00" in
  let v := of_decimal false 8000000 (-2) in
  (vAval text = Some v \/ vMinGeral text = Some v)
  /\ ltb v zero = false /\ notNaN v.
Proof.
  cbv zeta.
  assert (H : vAval (js "Valor de avaliação: R$ 100.000,00 Valor mínimo de venda: R$ 80.000,00")
              = Some (of_decimal false 8000000 (-2))
           \/ vMinGeral (js "Valor de avaliação: R$ 100.000,00 Valor mínimo de venda: R$ 80.000,00")
              = Some (of_decimal false 8000000 (-2))).
  { right. vm_compute. reflexivity. }
  split; [exact H|].
  exact (valores_nunca_negativos _ H).
Defined.

(** X4.  Whatever the address, the postal code [quebrar_endereco] returns
    holds only digits and hyphens, the number only digits, and the state is
    either empty or two ASCII capitals; an empty address gives six empty
    fields, and an address of fewer than four parts has no city and no
    state. *)
Theorem quebrar_endereco_shapes (e : jsstring) :
  let r := quebrar_endereco e in
  forallb isCepChar (enderecoCep r) = true
  /\ forallb isDigit (enderecoNumero r) = true
  /\ (enderecoEstadoTexto r = []
      \/ (List.length (enderecoEstadoTexto r) = 2%nat
          /\ forallb isUpperAZ (enderecoEstadoTexto r) = true))
  /\ (e = [] ->
        r = {| enderecoLogradouro := []; enderecoNumero := [];
               enderecoBairroTexto := []; enderecoCep := [];
               enderecoCidadeTexto := []; enderecoEstadoTexto := [] |})
  /\ ((List.length (partes (snd (separar_cep e))) < 4)%nat ->
        enderecoCidadeTexto r = [] /\ enderecoEstadoTexto r = []).
Proof.
  cbv zeta. unfold quebrar_endereco.
  destruct (truthy e) eqn:Ht.
  2:{ cbn. repeat split; auto. }
  assert (Hcep : forallb isCepChar (fst (separar_cep e)) = true).
  { unfold separar_cep. destruct (exec re_cep e) as [m|] eqn:Em; [|reflexivity].
    cbn [fst]. apply CanonFacts.forallb_trim.
    apply (@CaptureFacts.exec_captures 1 _ 1 None _ _ _
             (@CaptureFacts.bounded_None 1) CanonFacts.captures_cep) in Em.
    destruct Em as (Hall & _). revert Hall. apply CanonFacts.forallb_impl.
    intros a. apply CanonFacts.isCepChar_canonicalize. }
  destruct (separar_cep e) as [cep e'] eqn:Es. cbn [fst snd] in *.
  set (parts := partes e').
  cbn [enderecoCep enderecoNumero enderecoEstadoTexto enderecoCidadeTexto].
  split; [exact Hcep|]. split; [|split; [|split]].
  - destruct (nth_error parts 1) as [numParte|]; [|reflexivity].
    destruct (exec re_numero numParte) as [m|] eqn:Em; [|reflexivity].
    apply CanonFacts.forallb_trim.
    apply (@CaptureFacts.exec_captures 1 _ 1 None _ _ _
             (@CaptureFacts.bounded_None 1) CanonFacts.captures_numero) in Em.
    destruct Em as (Hall & _). revert Hall. apply CanonFacts.forallb_impl.
    intros a. apply CanonFacts.isDigit_canonicalize.
  - destruct (4 <=? List.length parts)%nat; [|left; reflexivity].
    destruct (exec re_cidade_uf (last parts [])) as [m|] eqn:Em; [|left; reflexivity].
    right. cbn [snd].
    apply (@CaptureFacts.exec_captures 2 _ 2 (Some 2%nat) _ _ _
             (@CaptureFacts.bounded_exactly 2) CanonFacts.captures_cidade_uf) in Em.
    destruct Em as (Hall & Hmin & Hmax). specialize (Hmax 2%nat eq_refl).
    assert (Hup : toUpperCase (group_text 2 m) = map canonicalize (group_text 2 m)).
    { revert Hall. generalize (group_text 2 m). intros s.
      induction s as [|c s IH]; [reflexivity|]. cbn [forallb]. intros H.
      apply andb_prop in H. destruct H as [Hc Hs].
      unfold toUpperCase in *. cbn [flat_map map].
      rewrite (CanonFacts.canonicalize_upper c Hc), (IH Hs). reflexivity. }
    rewrite Hup. rewrite length_map. split; [lia|].
    rewrite CanonFacts.forallb_map_compose. exact Hall.
  - intros He. subst e. discriminate Ht.
  - intros Hlen. apply Nat.leb_gt in Hlen. rewrite Hlen. split; reflexivity.
Qed.

(** X5.  Sanitizing is idempotent: a cell that went through [sanitize]
    comes out unchanged when it is sanitized again, and so do the rows of a
    sheet built from rows. *)
Theorem sanitize_idempotent :
  (forall v : jsvalue, sanitize (Str (sanitize v)) = sanitize v)
  /\ (forall detalhes : list jsobject, rows (rows detalhes) = rows detalhes).
Proof.
  split; [exact SheetFacts.sanitize_idem|].
  intros detalhes. unfold rows. rewrite map_map.
  apply map_ext. exact SheetFacts.row_of_idem.
Qed.

(** X6.  The keys of the object the extractor returns are the columns of
    the sheet, in the same order: every column finds a string under its
    key, and the cell of a column is the sanitized field of that name. *)
Theorem retorno_columns (r : PropertyRecord) :
  map fst (retorno r) = campos
  /\ retorno r = object_of r
  /\ NoDup (map fst (retorno r))
  /\ (forall campo v, In (campo, v) (retorno r) ->
        exists s, v = Str s
          /\ get (retorno r) campo = Str s
          /\ get (row_of (retorno r)) campo = Str (sanitize (Str s))).
Proof.
  assert (Hk : map fst (retorno r) = campos) by reflexivity.
  split; [exact Hk|]. split; [reflexivity|].
  split; [rewrite Hk; exact RowFacts.campos_NoDup|].
  intros campo v Hin.
  assert (Hc : In campo campos).
  { rewrite <- Hk. apply in_map_iff. exists (campo, v). auto. }
  assert (Hget : get (retorno r) campo = v).
  { pose proof RowFacts.campos_NoDup as Hnd. rewrite <- Hk in Hnd.
    revert Hnd Hin. generalize (retorno r). intros o.
    induction o as [|[k w] o IH]; intros Hnd Hin; [destruct Hin|].
    cbn [map fst] in Hnd. inversion Hnd as [|k' l' Hnotin Hnd']; subst.
    cbn [get]. destruct Hin as [Hin|Hin].
    - injection Hin as -> ->. rewrite RowFacts.streq_refl. reflexivity.
    - rewrite RowFacts.streq_false; [apply IH; assumption|].
      intros ->. apply Hnotin. apply in_map_iff. exists (k, v). auto. }
  assert (Hs : exists s, v = Str s).
  { unfold retorno in Hin. cbn [In] in Hin.
    repeat (destruct Hin as [Hin|Hin];
            [injection Hin as _ <-; eexists; reflexivity|]).
    destruct Hin. }
  destruct Hs as [s ->]. exists s. split; [reflexivity|]. split; [exact Hget|].
  rewrite RowFacts.row_of_eq.
  rewrite (@RowFacts.get_map (fun campo => Str (sanitize (get (retorno r) campo))) _ _ Hc).
  rewrite Hget. reflexivity.
Qed.

(** X7.  The collector returns the URLs of the identifiers read on the
    pages 1 to [total], in reading order, each at its first occurrence. *)
Theorem coletarUrlsCidade_first_occurrences (total : nat) (lista : nat -> list Item) :
  coletarUrlsCidade total lista
  = first_occurrences (map urlDet (ids_lidos total lista)).
Proof.
  unfold coletarUrlsCidade.
  rewrite CollectFacts.coletar_paginas_fold, CollectFacts.urls_of_ids.
  rewrite SheetFacts.fold_Set_add_first. cbn [app existsb negb].
  generalize (first_occurrences (map urlDet (ids_lidos total lista))).
  intros l. induction l as [|a l IH]; [reflexivity|].
  cbn [filter]. rewrite IH. reflexivity.
Qed.


(** X9.  [parseBRL] reads an amount by its digits, commas, periods and
    hyphens alone, and never by its periods: dropping every other
    character, dropping the periods, or putting "R$ " in front changes
    nothing. *)
Theorem parseBRL_ignores_noise (s : jsstring) :
  parseBRL (Some (filter moneyChar s)) = parseBRL (Some s)
  /\ parseBRL (Some (filter (fun c => negb (N.eqb c 46)) s)) = parseBRL (Some s)
  /\ parseBRL (Some (js "R$ " ++ s)) = parseBRL (Some s).
Proof.
  assert (Hm : forall c, negb (notMoneySign c) = moneyChar c).
  { intros c. unfold notMoneySign, moneyChar. rewrite Bool.negb_involutive.
    change (member ",.-" c) with ((c =? 44)%N || ((c =? 46)%N || ((c =? 45)%N || false))).
    destruct (isDigit c), (c =? 44)%N, (c =? 46)%N, (c =? 45)%N; reflexivity. }
  assert (Hb : forall a b, brl_text (Some a) = brl_text (Some b) ->
                 parseBRL (Some a) = parseBRL (Some b)).
  { intros a b H. rewrite !ParseFacts.parseBRL_direct, H. reflexivity. }
  split; [|split]; apply Hb; unfold brl_text; cbn [or_empty].
  - f_equal. rewrite !SheetFacts.filter_filter. apply filter_ext. intros c.
    rewrite Hm. destruct (moneyChar c); reflexivity.
  - f_equal. rewrite !SheetFacts.filter_filter. apply filter_ext. intros c.
    rewrite (N.eqb_sym 46 c).
    destruct (N.eqb c 46), (negb (notMoneySign c)); reflexivity.
  - reflexivity.
Qed.

(** X10.  An amount without a hyphen is never read as a number below zero. *)
Theorem parseBRL_nonnegative (s : option jsstring) (x : number) :
  no_hyphen (or_empty s) = true -> parseBRL s = Some x ->
  ltb x zero = false /\ negative x = false.
Proof.
  intros Hs H. pose proof (SignFacts.parseBRL_sign s Hs H) as Hn.
  split; [apply SignFacts.negative_ltb|]; exact Hn.
Qed.

Lemma parseBRL_nonnegative_witness :
  no_hyphen (or_empty (Some (js "R$ 80.000,00"))) = true
  /\ parseBRL (Some (js "R$ 80.000,00")) = Some (of_decimal false 8000000 (-2))
  /\ ltb (of_decimal false 8000000 (-2)) zero = false
  /\ negative (of_decimal false 8000000 (-2)) = false.
Proof.
  assert (H1 : no_hyphen (or_empty (Some (js "R$ 80.000,00"))) = true)
    by (vm_compute; reflexivity).
  assert (H2 : parseBRL (Some (js "R$ 80.000,00")) = Some (of_decimal false 8000000 (-2)))
    by (vm_compute; reflexivity).
  split; [exact H1|]. split; [exact H2|].
  exact (parseBRL_nonnegative (Some (js "R$ 80.000,00")) H1 H2).
Defined.

(** X11.  The area lookup takes, of the first line whose normalized form
    contains the normalized label, the text between the first two equals
    signs when the line has an equals sign and between the first two colons
    otherwise, without its leading white space, one leading asterisk and
    the white space behind it, trimmed; it is empty when no line matches. *)
Theorem getValueAfterEqOrColon_closed (arr : list jsstring) (label : jsstring) :
  getValueAfterEqOrColon arr label =
  match find (fun t => includes (norm (Some t)) (norm (Some label))) arr with
  | Some row =>
      let sep := if existsb (N.eqb 61) row then 61%N else 58%N in
      trim (drop_star (trimStart (before sep (after sep row))))
  | None => []
  end.
Proof.
  unfold getValueAfterEqOrColon. cbv zeta.
  rewrite (@LabelFacts.find_ext _ _
            (fun t => includes (norm (Some t)) (norm (Some label))) arr
            (fun t => LabelFacts.startsWith_includes _ _)).
  destruct (find _ arr) as [row|]; [|reflexivity].
  assert (Htrim : forall part,
            trim (replace re_area_prefix [] part) = trim (drop_star (trimStart part))).
  { intros part. rewrite AreaFacts.replace_area_prefix. unfold trim.
    rewrite TextFacts.trimStart_idem. reflexivity. }
  destruct row as [|c r]; [reflexivity|]. cbn [truthy].
  change (js "=") with [61%N]. rewrite AreaFacts.includes_unit.
  destruct (existsb (N.eqb 61) (c :: r)) eqn:E61.
  - rewrite AreaFacts.second_of_split, E61.
    destruct (before 61%N (after 61%N (c :: r))) as [|a p] eqn:Ep; [reflexivity|].
    cbn [truthy]. apply Htrim.
  - rewrite AreaFacts.second_of_split.
    destruct (existsb (N.eqb 58) (c :: r)) eqn:E58.
    + destruct (before 58%N (after 58%N (c :: r))) as [|a p] eqn:Ep; [reflexivity|].
      cbn [truthy]. apply Htrim.
    + rewrite (@AreaFacts.after_nil 58%N (c :: r) E58). reflexivity.
Qed.

(** X12.  The text fields of a record that the extractor reads from the
    page never begin or end with white space: code, title, the four
    captured values, the labelled attributes, the areas, the auction
    fields, the address and its parts, description, payment forms and
    neighbourhood. *)
Theorem dados_text_fields_trimmed (d : Document) (meta : option Meta) :
  let r := dados d meta in
  Forall trimmed
    [_imoveis_codigo_imovel r; _imoveis_titulo r;
     _imoveis_valor_avaliacao r; _imoveis_valor_minimo_1_leilao r;
     _imoveis_valor_minimo_2_leilao r; _imoveis_valor_minimo_generico r;
     _imoveis_tipo_imovel r; _imoveis_quartos r; _imoveis_garagem r;
     _imoveis_numero_imovel r; _imoveis_matricula r; _imoveis_comarca r;
     _imoveis_oficio r; _imoveis_inscricao_imobiliaria r;
     _imoveis_averbacao_leiloes r;
     _imoveis_area_total r; _imoveis_area_privativa r; _imoveis_area_terreno r;
     _imoveis_tipo_leilao r; _imoveis_edital r; _imoveis_leiloeiro r;
     _imoveis_numero_item r; _imoveis_data_leilao_1 r; _imoveis_data_leilao_2 r;
     _imoveis_endereco_completo r; _imoveis_endereco_logradouro r;
     _imoveis_endereco_numero r; _imoveis_endereco_bairro_texto r;
     _imoveis_endereco_cidade_texto r; _imoveis_endereco_estado_texto r;
     _imoveis_cep r; _imoveis_descricao r; _imoveis_formas_pagamento r;
     _imoveis_bairro r].
Proof.
  cbv zeta. unfold dados. cbv zeta.
  cbn [_imoveis_codigo_imovel _imoveis_titulo _imoveis_valor_avaliacao
       _imoveis_valor_minimo_1_leilao _imoveis_valor_minimo_2_leilao
       _imoveis_valor_minimo_generico _imoveis_tipo_imovel _imoveis_quartos
       _imoveis_garagem _imoveis_numero_imovel _imoveis_matricula _imoveis_comarca
       _imoveis_oficio _imoveis_inscricao_imobiliaria _imoveis_averbacao_leiloes
       _imoveis_area_total _imoveis_area_privativa _imoveis_area_terreno
       _imoveis_tipo_leilao _imoveis_edital _imoveis_leiloeiro _imoveis_numero_item
       _imoveis_data_leilao_1 _imoveis_data_leilao_2 _imoveis_endereco_completo
       _imoveis_endereco_logradouro _imoveis_endereco_numero
       _imoveis_endereco_bairro_texto _imoveis_endereco_cidade_texto
       _imoveis_endereco_estado_texto _imoveis_cep _imoveis_descricao
       _imoveis_formas_pagamento _imoveis_bairro].
  destruct (FieldFacts.trimmed_spansRel d) as (S1 & S2 & S3 & S4 & S5).
  destruct (FieldFacts.trimmed_pList d) as (P1 & P2 & P3).
  destruct (FieldFacts.trimmed_quebrar_endereco (enderecoCompleto (pList d)))
    as (E1 & E2 & E3 & E4 & E5 & E6).
  assert (Hinfo1 : forall label, trimmed (info1 label d)).
  { intros label. unfold info1. destruct (colInfo 0 d);
      [apply FieldFacts.trimmed_getValueAfterLabel|apply FieldFacts.trimmed_nil]. }
  assert (Hinfo2 : forall label, trimmed (info2 label d)).
  { intros label. unfold info2. destruct (colInfo 1 d);
      [apply FieldFacts.trimmed_getValueAfterEqOrColon|apply FieldFacts.trimmed_nil]. }
  assert (Hcod : trimmed (codigoImovel d)).
  { unfold codigoImovel. destruct (hdnimovel d) as [v|]; [|apply FieldFacts.trimmed_nil].
    destruct (truthy v); [apply TextFacts.trim_trimmed|apply FieldFacts.trimmed_nil]. }
  assert (Htit : trimmed (tituloImovel d)).
  { unfold tituloImovel. destruct (dadosImovel d) as [di|]; [|apply FieldFacts.trimmed_nil].
    destruct (dados_h5 di) as [h|]; [|apply FieldFacts.trimmed_nil].
    destruct (firstChild h) as [[t|]|];
      [apply TextFacts.trim_trimmed|apply FieldFacts.trimmed_safeText
      |apply FieldFacts.trimmed_safeText]. }
  assert (Hgen : forall text, trimmed (valorMinimoGenerico text)).
  { intros text. unfold valorMinimoGenerico.
    destruct (matchMin1 text); [apply FieldFacts.trimmed_nil|].
    destruct (matchMin2 text); [apply FieldFacts.trimmed_nil|].
    destruct (matchMinGeneric text);
      [apply TextFacts.trim_trimmed|apply FieldFacts.trimmed_nil]. }
  assert (Htipo : trimmed (tipoLeilao d)).
  { unfold tipoLeilao. destruct (relatedBox d);
      [apply FieldFacts.trimmed_safeText|apply FieldFacts.trimmed_nil]. }
  repeat (apply Forall_cons || apply Forall_nil);
    try assumption; try apply Hinfo1; try apply Hinfo2;
    try (apply FieldFacts.trimmed_valor_de; intros text;
         first [apply FieldFacts.trimmed_captured | apply Hgen]).
  apply FieldFacts.trimmed_hidden_or. exact E3.
Qed.

(** X13.  When the page has gallery images and none of their URLs holds a
    vertical bar, splitting the image field of the record at the bars gives
    back the list of image URLs; with no image the field is empty. *)
Theorem imgs_lista_roundtrip (d : Document) (meta : option Meta) :
  Forall (fun u => existsb (N.eqb 124) u = false) (imgsLista d) ->
  (imgsLista d <> [] ->
     split 124%N (_imoveis_imgs_lista (dados d meta)) = imgsLista d)
  /\ (imgsLista d = [] -> _imoveis_imgs_lista (dados d meta) = [])
  /\ Forall (fun u => u <> []) (imgsLista d).
Proof.
  intros H. unfold dados. cbv zeta. cbn [_imoveis_imgs_lista].
  change (js "|") with [124%N].
  split; [|split].
  - intros Hne. apply FieldFacts.split_join; assumption.
  - intros ->. reflexivity.
  - apply Forall_forall. intros u Hu. unfold imgsLista in Hu.
    apply filter_In in Hu. destruct Hu as [_ Hu]. intros ->. discriminate Hu.
Qed.

Lemma imgs_lista_roundtrip_witness :
  Forall (fun u => existsb (N.eqb 124) u = false) (imgsLista Amostras.detalhe_com_fotos)
  /\ imgsLista Amostras.detalhe_com_fotos
     = [js "https://venda-imoveis.caixa.gov.br/fotos/F8787700000001_21.jpg";
        js "https://venda-imoveis.caixa.gov.br/fotos/F8787700000001_22.jpg"]
  /\ split 124%N (_imoveis_imgs_lista (dados Amostras.detalhe_com_fotos None))
     = imgsLista Amostras.detalhe_com_fotos.
Proof.
  assert (H : Forall (fun u => existsb (N.eqb 124) u = false)
                (imgsLista Amostras.detalhe_com_fotos)).
  { vm_compute. repeat constructor. }
  split; [exact H|]. split; [vm_compute; reflexivity|].
  apply (proj1 (imgs_lista_roundtrip Amostras.detalhe_com_fotos None H)).
  vm_compute. discriminate.
Defined.



(** X16.  Every record of the detail loop is the record of a page that one
    of the visits opened, extracted with the code and the name of that
    visit's city: its city field is that name unless the name is empty, and
    its city code is that code when the page has no hidden city field and
    the code is not empty. *)
Theorem detalhes_sound (abre : nat -> Page) (o : list (jsstring * InfoCidade))
    (det : PropertyRecord) :
  In det (detalhes abre o) ->
  exists n cod nome u doc,
    nth_error (visitas o) n = Some (cod, nome, u)
    /\ abre n u = Some doc
    /\ det = dados doc (Some {| estado := Some (js "RO");
                                cidadeCodigo := Some cod;
                                cidadeNome := Some nome |})
    /\ (nome <> [] -> _imoveis_cidade det = nome)
    /\ (hdn_cidade doc = None -> _imoveis_cidade_codigo det = cod).
Proof.
  intros H. unfold detalhes in H. apply in_flat_map in H.
  destruct H as ([n [[cod nome] u]] & Hin & Hdet).
  apply FluxoFacts.In_combine_seq in Hin. destruct Hin as [_ Hn].
  rewrite Nat.sub_0_r in Hn. cbn [fst snd] in Hdet.
  unfold extrairDetalhesImovel in Hdet.
  destruct (abre n u) as [doc|] eqn:Ea; [|destruct Hdet].
  destruct Hdet as [Hdet|[]]. subst det.
  exists n, cod, nome, u, doc.
  split; [exact Hn|]. split; [exact Ea|]. split; [reflexivity|]. split.
  - intros Hne. unfold dados. cbv zeta. cbn [_imoveis_cidade].
    unfold meta_da_visita, meta_cidadeNome. cbn [cidadeNome fst snd or_empty].
    unfold or_else. destruct nome; [contradiction|reflexivity].
  - intros Hh. unfold dados. cbv zeta. cbn [_imoveis_cidade_codigo].
    rewrite Hh. reflexivity.
Qed.

Lemma detalhes_sound_witness :
  let sel := [({| cidade_value := js "5457"; cidade_text := js "PORTO VELHO" |},
               Listagem None (fun _ : nat =>
                 [ {| link_onclick :=
                        Some (Some (js "javascript:detalhe_imovel(8787700000001);")) |} ]))] in
  let abre := fun _ : nat => Exemplos.pagina in
  let det := dados Exemplos.detalhe
               (Some {| estado := Some (js "RO"); cidadeCodigo := Some (js "5457");
                        cidadeNome := Some (js "PORTO VELHO") |}) in
  In det (detalhes abre (urlsPorCidade sel))
  /\ exists n cod nome u doc,
       nth_error (visitas (urlsPorCidade sel)) n = Some (cod, nome, u)
       /\ abre n u = Some doc
       /\ det = dados doc (Some {| estado := Some (js "RO");
                                   cidadeCodigo := Some cod;
                                   cidadeNome := Some nome |})
       /\ (nome <> [] -> _imoveis_cidade det = nome)
       /\ (hdn_cidade doc = None -> _imoveis_cidade_codigo det = cod).
Proof.
  cbv zeta.
  match goal with
  | |- ?A /\ _ => assert (H : A)
  end.
  { set (det := dados Exemplos.detalhe _).
    assert (E : detalhes (fun _ : nat => Exemplos.pagina)
                  (urlsPorCidade
                     [({| cidade_value := js "5457"; cidade_text := js "PORTO VELHO" |},
                       Listagem None (fun _ : nat =>
                         [ {| link_onclick :=
                                Some (Some (js "javascript:detalhe_imovel(8787700000001);")) |} ]))])
                = [det]).
    { subst det. vm_compute. reflexivity. }
    rewrite E. left. reflexivity. }
  split; [exact H|].
  exact (detalhes_sound _ _ _ H).
Defined.

(** X17.  A run yields at most one record for each detail page it visits,
    exactly one when every page opens; the sheet has one row for each
    record, and every row has the columns of the sheet. *)
Theorem runScrape_counts (sel : list (Cidade * Busca)) (abre : nat -> Page) :
  let r := runScrape sel abre in
  (List.length (scrape_detalhes r)
   <= List.length (visitas (scrape_urlsPorCidade r)))%nat
  /\ List.length (scrape_rows r) = List.length (scrape_detalhes r)
  /\ Forall (fun row => map fst row = campos) (scrape_rows r)
  /\ ((forall n u, abre n u <> None) ->
      List.length (scrape_detalhes r)
      = List.length (visitas (scrape_urlsPorCidade r))).
Proof.
  cbv zeta. unfold runScrape. cbv zeta.
  cbn [scrape_detalhes scrape_urlsPorCidade scrape_rows].
  set (o := urlsPorCidade sel). unfold detalhes.
  set (f := fun nv : nat * (jsstring * jsstring * jsstring) =>
              extrairDetalhesImovel (abre (fst nv)) (snd (snd nv))
                (Some (meta_da_visita (snd nv)))).
  destruct (FluxoFacts.length_flat_map_option f
              (combine (List.seq 0 (List.length (visitas o))) (visitas o)))
    as [Hle Heq].
  rewrite length_combine, length_seq, Nat.min_id in Hle, Heq.
  split; [exact Hle|]. split; [|split].
  - unfold rows. rewrite !length_map. reflexivity.
  - unfold rows. apply Forall_forall. intros row Hrow.
    apply in_map_iff in Hrow. destruct Hrow as (det & <- & _).
    rewrite RowFacts.row_of_eq, map_map. cbn [fst]. apply map_id.
  - intros Hab. apply Heq. apply Forall_forall. intros [n v] _.
    subst f. cbv beta. cbn [fst snd]. unfold extrairDetalhesImovel.
    specialize (Hab n (snd v)). destruct (abre n (snd v)); [discriminate|contradiction].
Qed.

(** X18.  The forwarder finds the index file the scraper writes: when the
    working directory lists [urls_ro_por_cidade.json], the forwarder picks
    the first entry named [urls_..._por_cidade.json], which is the
    scraper's file when no other entry has such a name, and with both
    variables set it does not stop for a missing file. *)
Theorem forwarder_finds_scraper_file (env : Env) :
  In json_name (readdirSync env) ->
  exists f,
    jsonFile env = Some f
    /\ In f (readdirSync env)
    /\ startsWith f (js "urls_") = true
    /\ endsWith f (js "_por_cidade.json") = true
    /\ ((forall g, In g (readdirSync env) ->
           startsWith g (js "urls_") && endsWith g (js "_por_cidade.json") = true ->
           g = json_name) ->
        f = json_name)
    /\ (missing (WP_URL env) = false -> missing (WP_TOKEN env) = false ->
        exit (main env) = ProcessExit 1 -> exists req, requests (main env) = [req]).
Proof.
  intros Hin. unfold jsonFile.
  destruct (find _ (readdirSync env)) as [f|] eqn:E.
  2:{ exfalso. pose proof (find_none _ _ E _ Hin) as Hn.
      vm_compute in Hn. discriminate Hn. }
  pose proof (find_some _ _ E) as [Hf Hp].
  apply andb_prop in Hp. destruct Hp as [Hp1 Hp2].
  exists f. split; [reflexivity|]. split; [exact Hf|].
  split; [exact Hp1|]. split; [exact Hp2|]. split.
  - intros Hu. apply Hu; [exact Hf|]. rewrite Hp1, Hp2. reflexivity.
  - intros Hurl Htok. unfold main. rewrite Hurl, Htok. cbn [orb].
    unfold jsonFile. rewrite E.
    destruct (readFileSync env f) as [|t|t v]; cbn [exit requests];
      try discriminate.
    destruct (fetch env _) as [res|]; cbn [exit requests]; [|discriminate].
    destruct (negb (ok res)); cbn [exit requests]; eauto.
Qed.

Lemma forwarder_finds_scraper_file_witness :
  In json_name (readdirSync Exemplos.env_ok)
  /\ exists f,
       jsonFile Exemplos.env_ok = Some f
       /\ In f (readdirSync Exemplos.env_ok)
       /\ startsWith f (js "urls_") = true
       /\ endsWith f (js "_por_cidade.json") = true
       /\ ((forall g, In g (readdirSync Exemplos.env_ok) ->
              startsWith g (js "urls_") && endsWith g (js "_por_cidade.json") = true ->
              g = json_name) ->
           f = json_name)
       /\ (missing (WP_URL Exemplos.env_ok) = false ->
           missing (WP_TOKEN Exemplos.env_ok) = false ->
           exit (main Exemplos.env_ok) = ProcessExit 1 ->
           exists req, requests (main Exemplos.env_ok) = [req]).
Proof.
  assert (H : In json_name (readdirSync Exemplos.env_ok)).
  { vm_compute. right. left. reflexivity. }
  split; [exact H|].
  exact (forwarder_finds_scraper_file Exemplos.env_ok H).
Defined.

(** X19.  The forwarder never prints the token: two runs that differ in
    the token alone, against an endpoint whose answer does not depend on
    the request headers, print the same lines and end the same way, and
    their requests differ in nothing but the headers. *)
Theorem token_never_logged (env env' : Env) :
  WP_URL env' = WP_URL env ->
  readdirSync env' = readdirSync env ->
  (forall f, readFileSync env' f = readFileSync env f) ->
  missing (WP_TOKEN env) = false -> missing (WP_TOKEN env') = false ->
  (forall r r', url r' = url r -> body r' = body r -> fetch env' r' = fetch env r) ->
  console (main env') = console (main env)
  /\ exit (main env') = exit (main env)
  /\ map url (requests (main env')) = map url (requests (main env))
  /\ map body (requests (main env')) = map body (requests (main env)).
Proof.
  intros Hurl Hdir Hfile Htok Htok' Hfetch.
  unfold main, jsonFile, xlsxFile. rewrite Hurl, Hdir, Htok, Htok'.
  destruct (missing (WP_URL env)); cbn [orb]; [auto|].
  destruct (find _ (readdirSync env)) as [f|]; [|auto].
  rewrite Hfile.
  destruct (readFileSync env f) as [|t|t v]; [auto|auto|].
  rewrite (Hfetch (request (or_empty (WP_URL env)) (or_empty (WP_TOKEN env)) v)
                  (request (or_empty (WP_URL env)) (or_empty (WP_TOKEN env')) v)
                  eq_refl eq_refl).
  destruct (fetch env _) as [res|]; [|auto].
  destruct (negb (ok res)); auto.
Qed.

Lemma token_never_logged_witness :
  let env' :=
    {| WP_URL := WP_URL Exemplos.env_ok;
       WP_TOKEN := Some (js "outro-segredo");
       readdirSync := readdirSync Exemplos.env_ok;
       readFileSync := readFileSync Exemplos.env_ok;
       fetch := fetch Exemplos.env_ok |} in
  console (main env') = console (main Exemplos.env_ok)
  /\ exit (main env') = exit (main Exemplos.env_ok)
  /\ map url (requests (main env')) = map url (requests (main Exemplos.env_ok))
  /\ map body (requests (main env')) = map body (requests (main Exemplos.env_ok))
  /\ requests (main env') <> requests (main Exemplos.env_ok).
Proof.
  cbv zeta.
  pose proof (@token_never_logged Exemplos.env_ok
    {| WP_URL := WP_URL Exemplos.env_ok;
       WP_TOKEN := Some (js "outro-segredo");
       readdirSync := readdirSync Exemplos.env_ok;
       readFileSync := readFileSync Exemplos.env_ok;
       fetch := fetch Exemplos.env_ok |}
    eq_refl eq_refl (fun f => eq_refl) eq_refl eq_refl
    (fun r r' _ _ => eq_refl)) as (H1 & H2 & H3 & H4).
  split; [exact H1|]. split; [exact H2|]. split; [exact H3|]. split; [exact H4|].
  vm_compute. discriminate.
Defined.

(** X20.  Neither computed field ever carries a minus sign: the overall
    minimum is written from a number that is not below zero, and the
    discount from a number clamped at zero. *)
Theorem computed_fields_no_minus (text : jsstring) :
  no_hyphen (valorMinimoGeral text) = true
  /\ no_hyphen (descontoPercentual text) = true.
Proof.
  split.
  - unfold valorMinimoGeral. destruct (vMinGeral text) as [m|] eqn:E; [|reflexivity].
    apply MinusFacts.no_hyphen_toFixed2_comma. apply SignFacts.negative_ltb.
    apply (ValorSign.valores_sign text (or_intror E)).
  - unfold descontoPercentual, desconto.
    destruct (vAval text) as [a|]; [|reflexivity].
    destruct (vMinGeral text) as [m|]; [|reflexivity].
    destruct (ltb zero a); [|reflexivity].
    cbv zeta. cbn [fst]. rewrite MinusFacts.no_hyphen_app.
    rewrite MinusFacts.no_hyphen_toFixed2_comma; [reflexivity|].
    destruct (ltb (mul (div (sub a m) a) (of_Z 100)) zero) eqn:E; [reflexivity|exact E].
Qed.



(** X23.  A span whose collapsed text begins, in upper case, with
    "NUMERO DO ITEM" written without the accent sets the item number to the
    whole text, label included: the pattern that strips the label asks for
    the accented letter. *)
Theorem numero_item_label_kept (st : SpansRel) (span : Element) :
  let t := trim (replace_all (plus ws) (js " ")
                   (or_else (innerText span) (textContent span))) in
  startsWith (toUpperCase t) (js "NUMERO DO ITEM") = true ->
  numeroItem (spansRel_step st span) = t.
Proof.
  cbv zeta. intros H. unfold spansRel_step. cbv zeta.
  set (t := trim (replace_all (plus ws) (js " ")
                    (or_else (innerText span) (textContent span)))) in *.
  assert (Ht : trim t = t) by (subst t; apply TextFacts.trim_idem).
  rewrite H, Bool.orb_true_r.
  change (js "NUMERO DO ITEM") with (78%N :: 85%N :: js "MERO DO ITEM") in H.
  pose proof H as H'.
  apply SpanFacts.startsWith_cons in H'. destruct H' as (r & Er & _).
  apply SpanFacts.toUpperCase_two in H; try lia.
  destruct H as (c1 & c2 & t' & Et & _ & Hc2).
  rewrite Er.
  change (startsWith (78%N :: r) (js "EDITAL")) with false.
  change (startsWith (78%N :: r) (js "LEILOEIRO")) with false.
  cbv iota. cbn [numeroItem].
  rewrite Et at 1. rewrite (@SpanFacts.numero_item_unaccented c1 c2 t' Hc2).
  rewrite <- Et. exact Ht.
Qed.

Lemma numero_item_label_kept_witness :
  let st := {| editalTexto := []; leiloeiro := []; numeroItem := [];
               dataLeilao1 := []; dataLeilao2 := [] |} in
  startsWith
    (toUpperCase
       (trim (replace_all (plus ws) (js " ")
                (or_else (innerText (Exemplos.el "Numero do item:  7"))
                         (textContent (Exemplos.el "Numero do item:  7"))))))
    (js "NUMERO DO ITEM") = true
  /\ numeroItem (spansRel_step st (Exemplos.el "Numero do item:  7"))
     = js "Numero do item: 7"
  /\ numeroItem (spansRel_step st (Exemplos.el "Número do item:  7")) = js "7".
Proof.
  cbv zeta.
  match goal with
  | |- ?A /\ _ => assert (H : A) by (vm_compute; reflexivity)
  end.
  split; [exact H|]. split; [|vm_compute; reflexivity].
  rewrite (numero_item_label_kept _ _ H). vm_compute. reflexivity.
Defined.
